(** * VoiceFlow AI: transaction extraction and invoice synthesis

    A shallow embedding of the TypeScript services of the repository

    - [AIService]       (backend aiService: transcription, extraction with
                         retry, validation, mock fallbacks),
    - [SeaLionService]  (ai-services seaLionService: cache, regional model
                         with general-purpose fallback, transcription),
    - [InvoiceService]  (backend invoiceService: business templates, due
                         dates, invoice synthesis),
    - [Server]          (backend server: rate limiter, upload, the voice
                         endpoint and its statistics),

    followed by the properties proved about them.

    Modelling conventions.
    - A JavaScript [number] is a binary64 float ([PrimFloat.float]) with the
      arithmetic of IEEE 754, [NaN] and the infinities included.  A number
      that only ever holds an integer far below [2^53] (a clock reading in
      milliseconds, a count, a size in bytes) is a [Z].  The draw of
      [Math.random()] is taken as a rational of [0, 1).
    - An optional property ([field?: T], or a property the provider may have
      left out) is an [option].
    - An object literal used as a table ([Record<string, T>]) is an
      association list read with [JS.get], which finds the literal's own
      entries.  For a key that is the name of a property of
      [Object.prototype] ([JS.Object_prototype]) JavaScript finds the
      inherited property instead; [JS.property] tells the three cases apart,
      and the properties about lookups are stated for the other keys.
    - What [JSON.parse] returns is a [JSON.value]; [Decode] reads it at the
      declared type [TransactionData].
    - A call that may throw returns a [JS.Completion].
    - The mutable [Map] of the cache is a [gmap] threaded through the calls.
    - A [Date] is its time value, milliseconds since the epoch in UTC; the
      local time zone is the host's [LocalTZA].  Time values stay inside the
      range of [TimeClip] (275 760 years either side of 1970). *)

From Stdlib Require Import QArith Qround Lqa ZArith Lia List Ascii DecimalString Floats.
From stdpp Require Import gmap strings.

#[local] Set Warnings "-inexact-float".

Local Open Scope float_scope.

(** ** JavaScript prelude *)

Module JS.

(** Outcome of a call: a value, or an exception carrying its message. *)
Inductive Completion (A : Type) : Type :=
| Returned (a : A)
| Thrown (message : string).
Arguments Returned {A} a.
Arguments Thrown {A} message.

(** [ToBoolean] on a number: [+0], [-0] and [NaN] are falsy. *)
Definition truthy_num (x : float) : bool :=
  match classify x with
  | PZero | NZero | NaN => false
  | _ => true
  end.

(** [s || d] on an optional string: [undefined] and [''] are falsy. *)
Definition or_str (s : option string) (d : string) : string :=
  match s with
  | Some v => if String.eqb v "" then d else v
  | None => d
  end.

(** [x || d] on an optional number: [undefined], [0], [-0] and [NaN] are
    falsy. *)
Definition or_num (x : option float) (d : float) : float :=
  match x with
  | Some v => if truthy_num v then v else d
  | None => d
  end.

(** [a || d] on an optional array or object: only [undefined] is falsy. *)
Definition or_obj {A : Type} (a : option A) (d : A) : A :=
  match a with
  | Some v => v
  | None => d
  end.

(** Truthiness of an optional string, as in [if (s)] and [a && s]. *)
Definition truthy_str (s : option string) : bool :=
  match s with
  | Some v => negb (String.eqb v "")
  | None => false
  end.

(** The string behind a truthy optional string: [Some v] when [s] is the
    non-empty string [v], [None] when [s] is [undefined] or ['']. *)
Definition truthy (s : option string) : option string :=
  match s with
  | Some v => if String.eqb v "" then None else Some v
  | None => None
  end.

(** [s === literal] on an optional string. *)
Definition strict_eq (s : option string) (literal : string) : bool :=
  match s with
  | Some v => String.eqb v literal
  | None => false
  end.

(** The names of the properties of [Object.prototype], which every object
    literal inherits. *)
Definition Object_prototype : list string :=
  [ "constructor"; "__defineGetter__"; "__defineSetter__"; "hasOwnProperty";
    "__lookupGetter__"; "__lookupSetter__"; "isPrototypeOf";
    "propertyIsEnumerable"; "toString"; "valueOf"; "__proto__";
    "toLocaleString" ]%string.

Definition inherited (key : string) : bool :=
  existsb (String.eqb key) Object_prototype.

(** [table[key]] on an object literal, among the literal's own entries.
    This is what JavaScript reads for every [key] with
    [inherited key = false]. *)
Fixpoint get {V : Type} (key : string) (table : list (string * V)) : option V :=
  match table with
  | [] => None
  | (k, v) :: rest => if String.eqb key k then Some v else get key rest
  end.

(** What [table[key]] finds on an object literal: an entry of its own, a
    property inherited from [Object.prototype] (a built-in function, or the
    prototype itself for ['__proto__']), or nothing. *)
Inductive Property (V : Type) : Type :=
| Own (v : V)
| Inherited
| Undefined.
Arguments Own {V} v.
Arguments Inherited {V}.
Arguments Undefined {V}.

Definition property {V : Type} (key : string) (table : list (string * V))
  : Property V :=
  match get key table with
  | Some v => Own v
  | None => if inherited key then Inherited else Undefined
  end.

(** [list.join(', ')] *)
Definition join (list : list string) : string := String.concat ", " list.

(** [table[key]?.join(', ')] on a table of arrays: the joined entry,
    [undefined] when there is none; an inherited property is neither
    [undefined] nor an array, and calling its missing [join] throws. *)
Definition get_join (name key : string) (table : list (string * list string))
  : Completion (option string) :=
  match property key table with
  | Own list => Returned (Some (join list))
  | Undefined => Returned None
  | Inherited =>
      Thrown (String.append "TypeError: "
                (String.append name "[language]?.join is not a function"))
  end.

(** [hay.includes(needle)]: [needle] occurs in [hay] as a substring. *)
Fixpoint includes (hay needle : string) : bool :=
  String.prefix needle hay
  || match hay with
     | EmptyString => false
     | String _ rest => includes rest needle
     end.

(** [x > y] on numbers. *)
Definition gt (x y : float) : bool := (y <? x).

(** An integer as a number: the nearest binary64 float, the integer itself
    up to [2^53]. *)
Definition ofZ (n : Z) : float := SF2Prim (binary_normalize prec emax n 0 false).

(** [n.toString()] for a non-negative integer. *)
Definition toString (n : Z) : string :=
  NilZero.string_of_uint (N.to_uint (Z.to_N n)).

Fixpoint repeat_char (c : Ascii.ascii) (n : nat) : string :=
  match n with
  | O => EmptyString
  | S k => String c (repeat_char c k)
  end.

(** [s.padStart(width, '0')]. *)
Definition padStart0 (width : nat) (s : string) : string :=
  String.append (repeat_char "0"%char (width - String.length s)) s.

(** [s.slice(-n)]: the last [n] characters of [s] (all of it when shorter). *)
Definition slice_last (n : nat) (s : string) : string :=
  String.substring (String.length s - n) n s.

(** The text [s] between double quotes. *)
Definition quoted (s : string) : string :=
  String "034"%char (String.append s (String "034"%char EmptyString)).

End JS.

(** ** What [JSON.parse] returns *)

Module JSON.

#[local] Unset Elimination Schemes.
Inductive value : Type :=
| Null
| Bool (b : bool)
| Number (x : float)
| String (s : string)
| Array (elements : list value)
| Object (members : list (string * value)).
#[local] Set Elimination Schemes.

(** [v.key] for one of the property names the services read ('items',
    'total', 'name', ...): a member of an object, [undefined] on anything
    else but [null]. *)
Definition member (key : string) (v : value) : option value :=
  match v with
  | Object members => JS.get key members
  | _ => None
  end.

(** [ToBoolean]. *)
Definition truthy (v : value) : bool :=
  match v with
  | Null => false
  | Bool b => b
  | Number x => JS.truthy_num x
  | String s => negb (String.eqb s "")
  | Array _ | Object _ => true
  end.

Definition isNull (v : value) : bool :=
  match v with Null => true | _ => false end.

Definition isString (v : value) : bool :=
  match v with String _ => true | _ => false end.

Definition isNumber (v : value) : bool :=
  match v with Number _ => true | _ => false end.

End JSON.

(** ** The data contract shared by the services *)

Module Item.
Record t : Type := mk
  { name : string; quantity : float; unitPrice : float; total : float }.
End Item.

Module Customer.
Record t : Type := mk
  { name : option string; contact : option string }.
(** The empty object [{}]. *)
Definition empty : t := mk None None.
End Customer.

Module Metadata.
Record t : Type := mk
  { confidence : float;
    extractedEntities : list string;
    (** further string-valued keys the provider is asked for
        ([culturalContext], [paymentMethod]) *)
    extra : list (string * string) }.
End Metadata.

Module TransactionData.
Record t : Type := mk
  { items : list Item.t;
    customer : option Customer.t;
    total : float;
    currency : string;
    paymentTerms : option string;
    dueDate : option string;
    businessType : option string;
    language : string;
    metadata : option Metadata.t }.
End TransactionData.

(** What [JSON.parse(result) as TransactionData] holds at run time when the
    document has the declared shape: the cast checks nothing, so every
    property may be missing. *)
Module RawItem.
Record t : Type := mk
  { name : string; quantity : float; unitPrice : float; total : option float }.
End RawItem.

Module RawMetadata.
Record t : Type := mk
  { confidence : option float;
    extractedEntities : option (list string);
    extra : list (string * string) }.
End RawMetadata.

Module RawTransactionData.
Record t : Type := mk
  { items : option (list RawItem.t);
    customer : option Customer.t;
    total : option float;
    currency : option string;
    paymentTerms : option string;
    dueDate : option string;
    businessType : option string;
    language : option string;
    metadata : option RawMetadata.t }.
End RawTransactionData.

(** ** Reading a parsed document at its declared type *)

Module Decode.

Definition optional (isType : JSON.value -> bool) (v : option JSON.value) : bool :=
  match v with
  | Some v => isType v
  | None => true
  end.

Definition required (isType : JSON.value -> bool) (v : option JSON.value) : bool :=
  match v with
  | Some v => isType v
  | None => false
  end.

Definition isObject (members : JSON.value -> bool) (v : JSON.value) : bool :=
  match v with
  | JSON.Object _ => members v
  | _ => false
  end.

Definition isArray (isType : JSON.value -> bool) (v : JSON.value) : bool :=
  match v with
  | JSON.Array elements => forallb isType elements
  | _ => false
  end.

(** The keys of [metadata] that are declared. *)
Definition declaredMetadata (key : string) : bool :=
  String.eqb key "confidence" || String.eqb key "extractedEntities".

(** The document has the shape of the interface [TransactionData], every
    property optional but the name, quantity and unit price of an item.  An
    item, a customer or the document may have members beyond the declared
    ones; they are not represented. *)
Definition conforms (v : JSON.value) : bool :=
  let item v :=
    required JSON.isString (JSON.member "name" v)
    && required JSON.isNumber (JSON.member "quantity" v)
    && required JSON.isNumber (JSON.member "unitPrice" v)
    && optional JSON.isNumber (JSON.member "total" v) in
  let customer v :=
    optional JSON.isString (JSON.member "name" v)
    && optional JSON.isString (JSON.member "contact" v) in
  let metadata v :=
    optional JSON.isNumber (JSON.member "confidence" v)
    && optional (isArray JSON.isString) (JSON.member "extractedEntities" v)
    && match v with
       | JSON.Object members =>
           forallb (fun kv => declaredMetadata (fst kv) || JSON.isString (snd kv))
             members
       | _ => false
       end in
  isObject
    (fun v =>
       optional (isArray (isObject item)) (JSON.member "items" v)
       && optional (isObject customer) (JSON.member "customer" v)
       && optional JSON.isNumber (JSON.member "total" v)
       && optional JSON.isString (JSON.member "currency" v)
       && optional JSON.isString (JSON.member "paymentTerms" v)
       && optional JSON.isString (JSON.member "dueDate" v)
       && optional JSON.isString (JSON.member "businessType" v)
       && optional JSON.isString (JSON.member "language" v)
       && optional (isObject metadata) (JSON.member "metadata" v))
    v.

Definition asString (v : option JSON.value) : option string :=
  match v with
  | Some (JSON.String s) => Some s
  | _ => None
  end.

Definition asNumber (v : option JSON.value) : option float :=
  match v with
  | Some (JSON.Number x) => Some x
  | _ => None
  end.

Definition asStrings (v : option JSON.value) : option (list string) :=
  match v with
  | Some (JSON.Array elements) =>
      Some (flat_map (fun e => match e with JSON.String s => [s] | _ => [] end)
              elements)
  | _ => None
  end.

(** A factor of [item.quantity * item.unitPrice]: a missing property
    multiplies as [NaN]. *)
Definition factor (v : option JSON.value) : float :=
  JS.or_obj (asNumber v) nan.

Definition item (v : JSON.value) : RawItem.t :=
  RawItem.mk
    (JS.or_obj (asString (JSON.member "name" v)) ""%string)
    (factor (JSON.member "quantity" v))
    (factor (JSON.member "unitPrice" v))
    (asNumber (JSON.member "total" v)).

Definition customer (v : JSON.value) : Customer.t :=
  Customer.mk (asString (JSON.member "name" v)) (asString (JSON.member "contact" v)).

Definition metadata (v : JSON.value) : RawMetadata.t :=
  RawMetadata.mk
    (asNumber (JSON.member "confidence" v))
    (asStrings (JSON.member "extractedEntities" v))
    match v with
    | JSON.Object members =>
        flat_map
          (fun kv =>
             match snd kv with
             | JSON.String s =>
                 if declaredMetadata (fst kv) then [] else [(fst kv, s)]
             | _ => []
             end)
          members
    | _ => []
    end.

(** [parsed as TransactionData]: the document read at the declared type.
    On a document that conforms this is the document itself.  A member of
    another type than the declared one is read as missing; what the
    services do with such a member is outside the model, and the properties
    that depend on the members of a document are stated for documents that
    conform. *)
Definition transactionData (v : JSON.value) : RawTransactionData.t :=
  RawTransactionData.mk
    match JSON.member "items" v with
    | Some (JSON.Array elements) => Some (map item elements)
    | _ => None
    end
    match JSON.member "customer" v with
    | Some (JSON.Object members) => Some (customer (JSON.Object members))
    | _ => None
    end
    (asNumber (JSON.member "total" v))
    (asString (JSON.member "currency" v))
    (asString (JSON.member "paymentTerms" v))
    (asString (JSON.member "dueDate" v))
    (asString (JSON.member "businessType" v))
    (asString (JSON.member "language" v))
    match JSON.member "metadata" v with
    | Some (JSON.Object members) => Some (metadata (JSON.Object members))
    | _ => None
    end.

End Decode.

(** The five language codes the request handler accepts. *)
Definition supportedLanguages : list string :=
  ["en"; "id"; "th"; "vi"; "tl"]%string.

(** ** Effects: a trace of provider requests and waits, and exceptions *)

Module IO.

Inductive Event : Type :=
| Request (attempt : nat)   (** a chat-completion request is sent *)
| Sleep (ms : Z).           (** [setTimeout] wait of [ms] milliseconds *)

(** A computation: what it did, and how it ended. *)
Definition t (A : Type) : Type := (list Event * JS.Completion A)%type.

Definition ret {A : Type} (a : A) : t A := ([], JS.Returned a).

Definition throw {A : Type} (message : string) : t A := ([], JS.Thrown message).

Definition emit (e : Event) : t unit := ([e], JS.Returned tt).

Definition bind {A B : Type} (m : t A) (k : A -> t B) : t B :=
  match m with
  | (tr, JS.Returned a) => let (tr', r) := k a in (tr ++ tr', r)
  | (tr, JS.Thrown e) => (tr, JS.Thrown e)
  end.

(** [try { body } catch (error) { handler }]. *)
Definition try_catch {A : Type} (body : t A) (handler : string -> t A) : t A :=
  match body with
  | (tr, JS.Thrown e) => let (tr', r) := handler e in (tr ++ tr', r)
  | (tr, JS.Returned a) => (tr, JS.Returned a)
  end.

(** Lift the outcome of an external call. *)
Definition call {A : Type} (outcome : JS.Completion A) : t A := ([], outcome).

Definition trace {A : Type} (m : t A) : list Event := fst m.
Definition result {A : Type} (m : t A) : JS.Completion A := snd m.

(** Requests sent during a computation. *)
Definition requests (tr : list Event) : list nat :=
  flat_map (fun e => match e with Request n => [n] | Sleep _ => [] end) tr.

End IO.

Declare Scope io_scope.
Delimit Scope io_scope with io.
Notation "x <- m ;; k" := (IO.bind m (fun x => k))
  (at level 100, m at next level, right associativity) : io_scope.

(** ** The host the services run on *)

(** The first choice of a chat completion:
    [response.choices[0]?.message?.content]. *)
Record ChatCompletion : Type :=
  { content : option string }.

(** The OpenAI client ([this.openai]), as it behaves for the request of the
    call at hand.  A request can be rejected, and the outcome of the chat
    request may differ from one attempt to the next. *)
Record OpenAI : Type :=
  { chat_completions_create : nat -> JS.Completion ChatCompletion;
    audio_transcriptions_create :
      list Byte.byte -> string -> JS.Completion string }.

Record Host : Type :=
  { (** [process.env.OPENAI_API_KEY] *)
    OPENAI_API_KEY : option string;
    openai : OpenAI;
    (** [JSON.parse]; [None] stands for the [SyntaxError] it throws *)
    JSON_parse : string -> option JSON.value;
    (** [fs.writeFileSync] of the temporary audio file *)
    fs_writeFileSync : list Byte.byte -> JS.Completion unit }.

(** ** backend/src/services/aiService.ts *)

Module AIService.

Definition getMockTranscription (language : string) : string :=
  let mockTranscriptions : list (string * string) :=
    [ ("id", "Pak Budi servis motor, ganti oli sama kampas rem, total 350 ribu, bayar minggu depan");
      ("th", "ลูกค้าซื้อผัดไทย 3 จาน ส้มตำ 2 จาน รวม 250 บาท");
      ("vi", "Chị Lan may áo dài, đặt cọc 500 nghìn, còn lại 1 triệu khi xong");
      ("tl", "Si Maria bumili ng 3 de lata, 2 pack ng kape, 150 pesos, hulugan");
      ("en", "Customer bought 3 shirts and 2 pants, total 150 dollars, payment due next week") ]%string in
  JS.or_str (JS.get language mockTranscriptions)
            (JS.or_str (JS.get "en"%string mockTranscriptions) ""%string).

Definition mapLanguageForWhisper (language : string) : string :=
  let languageMap : list (string * string) :=
    [ ("id", "id"); ("th", "th"); ("vi", "vi"); ("tl", "en"); ("en", "en") ]%string in
  JS.or_str (JS.get language languageMap) "en"%string.

Definition getCurrencyForLanguage (language : string) : string :=
  let currencyMap : list (string * string) :=
    [ ("id", "IDR"); ("th", "THB"); ("vi", "VND"); ("tl", "PHP"); ("en", "USD") ]%string in
  JS.or_str (JS.get language currencyMap) "USD"%string.

(** The table of [getMockTransactionData]: entries for 'id', 'th', 'en'. *)
Definition mockData : list (string * TransactionData.t) :=
  [ ("id"%string,
     TransactionData.mk
       [ Item.mk "Ganti Oli" 1 150000 150000;
         Item.mk "Kampas Rem" 1 200000 200000 ]
       (Some (Customer.mk (Some "Pak Budi"%string) None))
       350000 "IDR" (Some "later"%string) (Some "next week"%string)
       (Some "repair shop"%string) "id"
       (Some (Metadata.mk 0.92
                ["customer"; "services"; "amount"; "payment_terms"]%string [])));
    ("th"%string,
     TransactionData.mk
       [ Item.mk "ผัดไทย" 3 60 180;
         Item.mk "ส้มตำ" 2 35 70 ]
       None
       250 "THB" (Some "immediate"%string) None
       (Some "street food"%string) "th"
       (Some (Metadata.mk 0.95
                ["food_items"; "quantity"; "amount"]%string [])));
    ("en"%string,
     TransactionData.mk
       [ Item.mk "Shirts" 3 25 75;
         Item.mk "Pants" 2 37.5 75 ]
       None
       150 "USD" (Some "later"%string) (Some "next week"%string)
       (Some "retail"%string) "en"
       (Some (Metadata.mk 0.90
                ["items"; "quantity"; "amount"; "payment_terms"]%string []))) ].

(** [mockData[language] || mockData['en']]; the 'en' entry exists, the last
    default below is never reached. *)
Definition getMockTransactionData (language : string) : TransactionData.t :=
  JS.or_obj (JS.get language mockData)
    (JS.or_obj (JS.get "en"%string mockData)
       (TransactionData.mk [] None 0 "" None None None "" None)).

(** [item => ({ ...item, total: item.total || (item.quantity * item.unitPrice) })] *)
Definition fixItemTotal (item : RawItem.t) : Item.t :=
  Item.mk (RawItem.name item) (RawItem.quantity item) (RawItem.unitPrice item)
    (JS.or_num (RawItem.total item)
               (RawItem.quantity item * RawItem.unitPrice item)).

(** [items.reduce((sum, item) => sum + item.total, 0)] *)
Definition sumItemTotals (items : list Item.t) : float :=
  fold_left (fun sum item => sum + Item.total item) items 0.

(** The [metadata] literal: two defaulted keys, then the spread
    [...data.metadata], whose own keys overwrite the defaulted ones. *)
Definition enhanceMetadata (m : option RawMetadata.t) : Metadata.t :=
  let confidence := JS.or_num (m ≫= RawMetadata.confidence) 0.85 in
  let extractedEntities := JS.or_obj (m ≫= RawMetadata.extractedEntities) [] in
  match m with
  | None => Metadata.mk confidence extractedEntities []
  | Some spread =>
      Metadata.mk
        (JS.or_obj (RawMetadata.confidence spread) confidence)
        (JS.or_obj (RawMetadata.extractedEntities spread) extractedEntities)
        (RawMetadata.extra spread)
  end.

Definition validateAndEnhanceTransactionData
    (data : RawTransactionData.t) (language : string) : TransactionData.t :=
  (* Ensure required fields have default values *)
  let enhanced_items := JS.or_obj (RawTransactionData.items data) [] in
  let enhanced_total := JS.or_num (RawTransactionData.total data) 0 in
  (* Validate and fix item totals *)
  let items := map fixItemTotal enhanced_items in
  (* Recalculate total if it seems incorrect *)
  let calculatedTotal := sumItemTotals items in
  let total :=
    if JS.gt (abs (enhanced_total - calculatedTotal)) 0.01
       && JS.gt calculatedTotal 0
    then calculatedTotal else enhanced_total in
  TransactionData.mk
    items
    (Some (JS.or_obj (RawTransactionData.customer data) Customer.empty))
    total
    (JS.or_str (RawTransactionData.currency data) (getCurrencyForLanguage language))
    (Some (JS.or_str (RawTransactionData.paymentTerms data) "immediate"))
    (RawTransactionData.dueDate data)
    (Some (JS.or_str (RawTransactionData.businessType data) "general"))
    language
    (Some (enhanceMetadata (RawTransactionData.metadata data))).

(** What [validateAndEnhanceTransactionData] throws on a value [JSON.parse]
    returned, if anything: reading [data.items] of [null]; calling [map] on
    items that are truthy but no array; reading [item.total] of an item that
    is [null]. *)
Definition validationError (data : JSON.value) : option string :=
  match data with
  | JSON.Null =>
      Some "TypeError: Cannot read properties of null (reading 'items')"%string
  | _ =>
      match JSON.member "items" data with
      | Some (JSON.Array elements) =>
          if existsb JSON.isNull elements
          then Some "TypeError: Cannot read properties of null (reading 'total')"%string
          else None
      | Some items =>
          if JSON.truthy items
          then Some "TypeError: enhanced.items.map is not a function"%string
          else None
      | None => None
      end
  end.

(** [validateAndEnhanceTransactionData(parsedData, language)] on what
    [JSON.parse] returned. *)
Definition validateParsed (parsedData : JSON.value) (language : string)
  : JS.Completion TransactionData.t :=
  match validationError parsedData with
  | Some error => JS.Thrown error
  | None =>
      JS.Returned
        (validateAndEnhanceTransactionData (Decode.transactionData parsedData)
           language)
  end.

(** The values [buildSeaAsianPrompt] splices into its two templates; the
    fixed text around them is not represented.  [None] is an [undefined],
    spliced as the text "undefined"; the system template splices the
    language in upper case. *)
Record Prompt : Type :=
  { prompt_language : string;
    prompt_currency : option string;
    prompt_numberFormat : option string;
    prompt_informalTerms : option string;
    prompt_businessContexts : option string;
    prompt_transcription : string }.

Definition informalTermsMap : list (string * list string) :=
  [ ("id", ["bayar nanti"; "minggu depan"; "bulan depan"; "hulugan"; "cicilan";
            "cash"; "transfer"; "tempo"]);
    ("th", ["จ่ายทีหลัง"; "สัปดาห์หน้า"; "เดือนหน้า"; "เครดิต"; "ผ่อน"]);
    ("vi", ["trả sau"; "tuần sau"; "tháng sau"; "trả góp"; "công nợ"]);
    ("tl", ["bayad mamaya"; "next week"; "hulugan"; "installment"; "utang"]);
    ("en", ["pay later"; "next week"; "installment"; "due next month"; "credit";
            "cash"]) ]%string.

Definition businessContexts : list (string * list string) :=
  [ ("id", ["warung"; "toko"; "bengkel"; "salon"; "laundry"; "service"; "ojek";
            "angkot"]);
    ("th", ["ร้านอาหาร"; "ร้านค้า"; "อู่"; "ซาลอน"; "ร้านซักรีด"]);
    ("vi", ["quán ăn"; "cửa hàng"; "garage"; "salon"; "giặt ủi"]);
    ("tl", ["tindahan"; "sari-sari"; "talyer"; "salon"; "carinderia"]);
    ("en", ["store"; "shop"; "restaurant"; "service"; "repair"]) ]%string.

Definition numberFormats : list (string * string) :=
  let q := JS.quoted in
  let text := String.concat "" in
  [ ("id", text ["Indonesian numbers: "; q "lima ratus ribu"; " = 500,000, ";
                 q "satu juta"; " = 1,000,000, "; q "dua ratus"; " = 200"]);
    ("th", text ["Thai numbers: "; q "ห้าร้อยบาท"; " = 500, "; q "สองพันบาท";
                 " = 2,000, "; q "หนึ่งแสน"; " = 100,000"]);
    ("vi", text ["Vietnamese numbers: "; q "năm trăm nghìn"; " = 500,000, ";
                 q "một triệu"; " = 1,000,000, "; q "hai trăm"; " = 200"]);
    ("tl", text ["Filipino numbers: "; q "limang daan"; " = 500, ";
                 q "isang libo"; " = 1,000, "; q "dalawang libo"; " = 2,000"]);
    ("en", text ["English numbers: standard formats like "; q "five hundred";
                 ", "; q "one thousand"]) ]%string.

(** [buildSeaAsianPrompt]: splicing a table entry never throws, calling
    [?.join] on what the two tables of arrays hold for the language can. *)
Definition buildSeaAsianPrompt (transcription language : string)
  : JS.Completion Prompt :=
  let currencyMap : list (string * string) :=
    [ ("id", "IDR"); ("th", "THB"); ("vi", "VND"); ("tl", "PHP"); ("en", "USD") ]%string in
  match JS.get_join "informalTermsMap" language informalTermsMap with
  | JS.Thrown error => JS.Thrown error
  | JS.Returned informalTerms =>
      match JS.get_join "businessContexts" language businessContexts with
      | JS.Thrown error => JS.Thrown error
      | JS.Returned contexts =>
          JS.Returned
            {| prompt_language := language;
               prompt_currency := JS.get language currencyMap;
               prompt_numberFormat := JS.get language numberFormats;
               prompt_informalTerms := informalTerms;
               prompt_businessContexts := contexts;
               prompt_transcription := transcription |}
      end
  end.

(** The retry loop [for (attempt = 1; attempt <= maxRetries; attempt++)];
    [remaining] counts the iterations left, [maxRetries - attempt + 1].
    Falling out of the loop returns [undefined] ([None]). *)
Fixpoint retryLoop (create : nat -> JS.Completion ChatCompletion)
    (maxRetries attempt remaining : nat) : IO.t (option ChatCompletion) :=
  match remaining with
  | O => IO.ret None
  | S remaining' =>
      IO.try_catch
        (_ <- IO.emit (IO.Request attempt) ;;
         response <- IO.call (create attempt) ;;
         IO.ret (Some response))%io
        (fun error =>
           if Nat.eqb attempt maxRetries then IO.throw error
           else
             (* Exponential backoff *)
             let delay := (2 ^ Z.of_nat attempt * 1000)%Z in
             (_ <- IO.emit (IO.Sleep delay) ;;
              retryLoop create maxRetries (S attempt) remaining')%io)
  end.

Definition callOpenAIWithRetry (client : OpenAI) (maxRetries : nat)
  : IO.t (option ChatCompletion) :=
  retryLoop (chat_completions_create client) maxRetries 1 maxRetries.

(** The default of the parameter [maxRetries]. *)
Definition defaultMaxRetries : nat := 3.

Definition processTransaction (host : Host)
    (transcription : string) (language : string) : IO.t TransactionData.t :=
  IO.try_catch
    (if negb (JS.truthy_str (OPENAI_API_KEY host))
     then IO.ret (getMockTransactionData language)
     else
       (prompt <- IO.call (buildSeaAsianPrompt transcription language) ;;
        (* Enhanced API call with retry logic *)
        response <- callOpenAIWithRetry (openai host) defaultMaxRetries ;;
        match response with
        | None => IO.throw "TypeError: Cannot read properties of undefined"
        | Some response =>
            match JS.truthy (content response) with
            | None => IO.ret (getMockTransactionData language)   (* !result *)
            | Some result =>
                IO.try_catch
                  (match JSON_parse host result with
                   | None => IO.throw "SyntaxError"
                   | Some parsedData =>
                       (* Validate and enhance the parsed data *)
                       validatedData <- IO.call (validateParsed parsedData language) ;;
                       IO.ret validatedData
                   end)
                  (fun parseError => IO.ret (getMockTransactionData language))
            end
        end)%io)
    (fun error => IO.ret (getMockTransactionData language)).

Definition transcribeAudio (host : Host)
    (audioBuffer : list Byte.byte) (language : string) : IO.t string :=
  IO.try_catch
    (if negb (JS.truthy_str (OPENAI_API_KEY host))
     then IO.ret (getMockTranscription language)
     else
       (_ <- IO.call (fs_writeFileSync host audioBuffer) ;;
        response <- IO.call (audio_transcriptions_create (openai host)
                               audioBuffer (mapLanguageForWhisper language)) ;;
        IO.ret (if String.eqb response "" then getMockTranscription language
                else response))%io)
    (fun error => IO.ret (getMockTranscription language)).

End AIService.

(** ** ai-services/src/seaLionService.ts *)

Module SeaLionService.

(** A value of the [cache] map. *)
Record CacheEntry : Type :=
  { data : RawTransactionData.t; timestamp : Z }.

(** [5 * 60 * 1000], five minutes in milliseconds. *)
Definition CACHE_DURATION : Z := 5 * 60 * 1000.

(** [ToInt32]: wrap to a signed 32-bit integer, as [<<] and [&] do. *)
Definition toInt32 (x : Z) : Z :=
  let m := (x mod 2 ^ 32)%Z in
  if (m <? 2 ^ 31)%Z then m else (m - 2 ^ 32)%Z.

Definition digit36 (d : Z) : ascii :=
  if (d <? 10)%Z then ascii_of_nat (48 + Z.to_nat d)
  else ascii_of_nat (97 + (Z.to_nat d - 10)).

Fixpoint toString36_aux (fuel : nat) (n : Z) (acc : string) : string :=
  match fuel with
  | O => acc
  | S fuel' =>
      let acc' := String (digit36 (n mod 36)) acc in
      if (n / 36 =? 0)%Z then acc' else toString36_aux fuel' (n / 36) acc'
  end.

(** [n.toString(36)] for a non-negative integer. *)
Definition toString36 (n : Z) : string :=
  toString36_aux (S (Z.to_nat (Z.log2 n))) n EmptyString.

(** [hashString]; the string is given by its UTF-16 code units, which is
    what [charCodeAt] reads. *)
Definition hashString (str : list Z) : string :=
  let hash :=
    fold_left
      (fun hash char =>
         let hash := ((toInt32 (hash * 2 ^ 5) - hash) + char)%Z in
         toInt32 hash)   (* hash & hash: convert to 32-bit integer *)
      str 0%Z in
  toString36 (Z.abs hash).

Definition cacheKey (transcription : list Z) (language : string) : string :=
  String.append language (String.append "-" (hashString transcription)).

(** [getFromCache]; [now] is the reading of [Date.now()].  Returns the
    result ([None] for [null]) and the map after the call. *)
Definition getFromCache (now : Z) (key : string)
    (cache : gmap string CacheEntry)
  : option RawTransactionData.t * gmap string CacheEntry :=
  match cache !! key with
  | Some cached =>
      if (now - timestamp cached <? CACHE_DURATION)%Z
      then (Some (data cached), cache)
      else (None, delete key cache)   (* Remove expired cache *)
  | None => (None, cache)
  end.

Definition cleanupCache (now : Z) (cache : gmap string CacheEntry)
  : gmap string CacheEntry :=
  filter (fun kv => ¬ (now - timestamp (snd kv) > CACHE_DURATION)%Z) cache.

Definition setCache (now : Z) (key : string) (value : RawTransactionData.t)
    (cache : gmap string CacheEntry) : gmap string CacheEntry :=
  let cache := <[ key := {| data := value; timestamp := now |} ]> cache in
  (* Clean up old cache entries periodically *)
  if (100 <? Z.of_nat (size cache))%Z then cleanupCache now cache else cache.

Definition fallbackToGPT : bool := true.

Definition processWithSEALion (transcription : list Z) (language : string)
  : JS.Completion RawTransactionData.t :=
  JS.Thrown "🦁 SEA-LION API not available in POC phase - using GPT-4 fallback".

(** The values [buildSeaAsianPrompt] splices into its two templates; the
    fixed text around them is not represented.  [None] is an [undefined],
    spliced as the text "undefined". *)
Record Prompt : Type :=
  { prompt_language : string;
    prompt_currency : option string;
    prompt_numberFormat : option string;
    prompt_informalTerms : option string;
    prompt_transcription : list Z }.

Definition informalTermsMap : list (string * list string) :=
  [ ("id", ["bayar nanti"; "minggu depan"; "bulan depan"; "hulugan"; "cicilan"]);
    ("th", ["จ่ายทีหลัง"; "สัปดาห์หน้า"; "เดือนหน้า"]);
    ("vi", ["trả sau"; "tuần sau"; "tháng sau"]);
    ("tl", ["bayad mamaya"; "next week"; "hulugan"]);
    ("en", ["pay later"; "next week"; "installment"; "due next month"]) ]%string.

Definition numberFormats : list (string * string) :=
  let q := JS.quoted in
  let text := String.concat "" in
  [ ("id", text ["Indonesian: "; q "lima ratus ribu"; " = 500,000, ";
                 q "satu juta"; " = 1,000,000"]);
    ("th", text ["Thai: "; q "ห้าร้อยบาท"; " = 500, "; q "สองพันบาท"; " = 2,000"]);
    ("vi", text ["Vietnamese: "; q "năm trăm nghìn"; " = 500,000, ";
                 q "một triệu"; " = 1,000,000"]);
    ("tl", text ["Filipino: "; q "limang daan"; " = 500, "; q "isang libo";
                 " = 1,000"]);
    ("en", "English: standard number formats") ]%string.

(** [buildSeaAsianPrompt]: splicing a table entry never throws, calling
    [?.join] on what [informalTermsMap] holds for the language can. *)
Definition buildSeaAsianPrompt (transcription : list Z) (language : string)
  : JS.Completion Prompt :=
  let currencyMap : list (string * string) :=
    [ ("id", "IDR"); ("th", "THB"); ("vi", "VND"); ("tl", "PHP"); ("en", "USD") ]%string in
  match JS.get_join "informalTermsMap" language informalTermsMap with
  | JS.Thrown error => JS.Thrown error
  | JS.Returned informalTerms =>
      JS.Returned
        {| prompt_language := language;
           prompt_currency := JS.get language currencyMap;
           prompt_numberFormat := JS.get language numberFormats;
           prompt_informalTerms := informalTerms;
           prompt_transcription := transcription |}
  end.

Definition processWithGPT4 (host : Host) (transcription : list Z)
    (language : string) : JS.Completion RawTransactionData.t :=
  match buildSeaAsianPrompt transcription language with
  | JS.Thrown error => JS.Thrown error
  | JS.Returned prompt =>
      match chat_completions_create (openai host) 1 with
      | JS.Thrown e => JS.Thrown e
      | JS.Returned response =>
          match JS.truthy (content response) with
          | None => JS.Thrown "No response from AI service"   (* !result *)
          | Some result =>
              match JSON_parse host result with
              | Some parsed => JS.Returned (Decode.transactionData parsed)
              | None => JS.Thrown "Invalid AI response format"
              end
          end
      end
  end.

(** Which stages of the provider chain a call went through. *)
Inductive Stage : Type := SEALion | GPT4.

(** What a call of [processVoiceTransaction] leaves behind. *)
Record Run : Type :=
  { outcome : JS.Completion RawTransactionData.t;
    cache_after : gmap string CacheEntry;
    stages : list Stage }.

(** [processVoiceTransaction]; [now] is the clock when the cache is read,
    [later] the clock when the result is stored. *)
Definition processVoiceTransaction (host : Host) (now later : Z)
    (transcription : list Z) (language : string)
    (cache : gmap string CacheEntry) : Run :=
  let cacheKey := cacheKey transcription language in
  (* Check cache first *)
  let (cached, cache) := getFromCache now cacheKey cache in
  match cached with
  | Some cached => {| outcome := JS.Returned cached; cache_after := cache; stages := [] |}
  | None =>
      match processWithSEALion transcription language with
      | JS.Returned result =>
          {| outcome := JS.Returned result;
             cache_after := setCache later cacheKey result cache;
             stages := [SEALion] |}
      | JS.Thrown error =>
          if fallbackToGPT then
            match processWithGPT4 host transcription language with
            | JS.Returned result =>
                {| outcome := JS.Returned result;
                   cache_after := setCache later cacheKey result cache;
                   stages := [SEALion; GPT4] |}
            | JS.Thrown e =>
                {| outcome := JS.Thrown e; cache_after := cache;
                   stages := [SEALion; GPT4] |}
            end
          else {| outcome := JS.Thrown error; cache_after := cache;
                  stages := [SEALion] |}
      end
  end.

(** [language === 'tl' ? 'en' : language] *)
Definition whisperLanguage (language : string) : string :=
  if String.eqb language "tl" then "en"%string else language.

(** [transcribeAudio] of this service: any failure inside the [try] is
    rethrown as a plain [Error].  There is no credential check. *)
Definition transcribeAudio (host : Host)
    (audioBuffer : list Byte.byte) (language : string) : IO.t string :=
  IO.try_catch
    (_ <- IO.call (fs_writeFileSync host audioBuffer) ;;
     response <- IO.call (audio_transcriptions_create (openai host)
                            audioBuffer (whisperLanguage language)) ;;
     IO.ret response)%io
    (fun error => IO.throw "Failed to transcribe audio with SEA-LION service").

(** The earlier revision of [transcribeAudio] (the copy under ai-services):
    the buffer is wrapped in a [File] rather than written to disk, and the
    message of the rethrown [Error] is shorter. *)
Definition transcribeAudio_v1 (host : Host)
    (audioBuffer : list Byte.byte) (language : string) : IO.t string :=
  IO.try_catch
    (response <- IO.call (audio_transcriptions_create (openai host)
                            audioBuffer (whisperLanguage language)) ;;
     IO.ret response)%io
    (fun error => IO.throw "Failed to transcribe audio").

End SeaLionService.

(** ** Dates, as [Date] computes them *)

Module Calendar.

(** A civil date: [month] counts from 0 as [getMonth] does, [day] from 1 as
    [getDate] does. *)
Record Date : Type := mk
  { year : Z; month : Z; day : Z }.

Definition isLeapYear (y : Z) : bool :=
  ((y mod 4 =? 0) && negb (y mod 100 =? 0) || (y mod 400 =? 0))%Z.

Definition daysInMonth (y m : Z) : Z :=
  match m with
  | 1 => if isLeapYear y then 29 else 28
  | 3 | 5 | 8 | 10 => 30
  | _ => 31
  end%Z.

(** A date the calendar has. *)
Definition valid (d : Date) : Prop :=
  (0 <= month d <= 11 /\ 1 <= day d <= daysInMonth (year d) (month d))%Z.

(** The month after [(y, m)]. *)
Definition nextMonth (y m : Z) : Z * Z :=
  if (m =? 11)%Z then ((y + 1)%Z, 0%Z) else (y, (m + 1)%Z).

(** The month before [(y, m)]. *)
Definition prevMonth (y m : Z) : Z * Z :=
  if (m =? 0)%Z then ((y - 1)%Z, 11%Z) else (y, (m - 1)%Z).

(** The day that follows [d]. *)
Definition tomorrow (d : Date) : Date :=
  if (day d <? daysInMonth (year d) (month d))%Z
  then mk (year d) (month d) (day d + 1)
  else let (y, m) := nextMonth (year d) (month d) in mk y m 1.

(** The day before [d]. *)
Definition yesterday (d : Date) : Date :=
  if (1 <? day d)%Z
  then mk (year d) (month d) (day d - 1)
  else let (y, m) := prevMonth (year d) (month d) in mk y m (daysInMonth y m).

(** [n] days after [d], one day at a time. *)
Definition addDays (n : nat) (d : Date) : Date := Nat.iter n tomorrow d.

(** Day 0 of the time values. *)
Definition epoch : Date := mk 1970 0 1.

Definition msPerDay : Z := 86400000.

(** [Day(t)] and [TimeWithinDay(t)] of a time value. *)
Definition Day (t : Z) : Z := (t / msPerDay)%Z.
Definition TimeWithinDay (t : Z) : Z := (t mod msPerDay)%Z.

(** The civil date of a day number, counted from the epoch:
    [YearFromTime], [MonthFromTime] and [DateFromTime]. *)
Definition civil (dayNumber : Z) : Date :=
  if (0 <=? dayNumber)%Z
  then Nat.iter (Z.to_nat dayNumber) tomorrow epoch
  else Nat.iter (Z.to_nat (- dayNumber)) yesterday epoch.

(** [DayFromYear(y)], the day number of the first day of year [y]. *)
Definition DayFromYear (y : Z) : Z :=
  (365 * (y - 1970) + (y - 1969) / 4 - (y - 1901) / 100 + (y - 1601) / 400)%Z.

(** The days of year [y] before its month [m]. *)
Definition daysBeforeMonth (y m : Z) : Z :=
  let leap := (if isLeapYear y then 1 else 0)%Z in
  match m with
  | 0 => 0 | 1 => 31 | 2 => 59 + leap | 3 => 90 + leap | 4 => 120 + leap
  | 5 => 151 + leap | 6 => 181 + leap | 7 => 212 + leap | 8 => 243 + leap
  | 9 => 273 + leap | 10 => 304 + leap | _ => 334 + leap
  end%Z.

(** [MakeDay(year, month, date)]: months past December (or before January)
    carry into the year; the day number of the first of that month, plus
    [date - 1], whatever [date] is. *)
Definition MakeDay (y m date : Z) : Z :=
  let ym := (y + m / 12)%Z in
  let mn := (m mod 12)%Z in
  (DayFromYear ym + daysBeforeMonth ym mn + date - 1)%Z.

(** [MakeDate(day, time)] *)
Definition MakeDate (day time : Z) : Z := (day * msPerDay + time)%Z.

Section LocalTime.

(** [LocalTZA(t, isUTC)] of the host: the offset of local time from UTC in
    milliseconds, at the UTC time [t] or at the local time [t]. *)
Variable LocalTZA : Z -> bool -> Z.

Definition LocalTime (t : Z) : Z := (t + LocalTZA t true)%Z.
Definition UTC (t : Z) : Z := (t - LocalTZA t false)%Z.

(** [date.getDate()] and [date.getMonth()], of the local date. *)
Definition getDate (date : Z) : Z := day (civil (Day (LocalTime date))).
Definition getMonth (date : Z) : Z := month (civil (Day (LocalTime date))).

(** [date.setDate(n)]: the time value of the local date with its day of the
    month replaced, at the same local time of day. *)
Definition setDate (date : Z) (n : Z) : Z :=
  let t := LocalTime date in
  let local := civil (Day t) in
  UTC (MakeDate (MakeDay (year local) (month local) n) (TimeWithinDay t)).

(** [date.setMonth(m)] *)
Definition setMonth (date : Z) (m : Z) : Z :=
  let t := LocalTime date in
  let local := civil (Day t) in
  UTC (MakeDate (MakeDay (year local) m (day local)) (TimeWithinDay t)).

End LocalTime.

(** The year of an ISO string: four digits from 0 to 9999, otherwise a sign
    and six digits. *)
Definition isoYear (y : Z) : string :=
  if ((0 <=? y) && (y <=? 9999))%Z then JS.padStart0 4 (JS.toString y)
  else String.append (if (y <? 0)%Z then "-" else "+")
                     (JS.padStart0 6 (JS.toString (Z.abs y))).

(** The date part of an ISO string. *)
Definition isoDate (date : Date) : string :=
  String.append (isoYear (year date))
    (String.append "-"
       (String.append (JS.padStart0 2 (JS.toString (month date + 1)))
          (String.append "-" (JS.padStart0 2 (JS.toString (day date)))))).

(** [date.toISOString().split('T')[0]]: the date in UTC. *)
Definition toISODate (date : Z) : string := isoDate (civil (Day date)).

End Calendar.

(** ** backend/src/services/invoiceService.ts *)

(** What invoice synthesis takes from its host. *)
Record InvoiceHost : Type :=
  { (** [Date.now()], milliseconds *)
    Date_now : Z;
    (** the time value of [new Date()] *)
    Date_new : Z;
    (** the time zone of the server *)
    LocalTZA : Z -> bool -> Z;
    (** the time value of [new Date(text)]; [None] stands for an invalid
        date *)
    Date_parse : string -> option Z;
    (** [Math.random()], in [0, 1) *)
    Math_random : Q;
    (** [`${x}`] and [x.toString()] on a number *)
    Number_toString : float -> string;
    (** [x.toFixed(2)] *)
    Number_toFixed2 : float -> string;
    (** [QRCode.toDataURL] *)
    QRCode_toDataURL : string -> JS.Completion string }.

Module BusinessInfo.
Record t : Type := mk
  { name : string; address : string; phone : string; email : string }.
End BusinessInfo.

Module InvoiceData.
Record t : Type := mk
  { invoiceNumber : string;
    date : string;
    dueDate : option string;
    business : BusinessInfo.t;
    customer : option Customer.t;
    items : list Item.t;
    subtotal : float;
    total : float;
    currency : string;
    paymentTerms : string;
    qrCode : string;
    template : string;
    language : string }.
End InvoiceData.

Module InvoiceService.

(** Synthesis works on the transaction object of its caller.  A step is a
    function of that object which also returns the object as the step
    leaves it. *)
Definition Synth (A : Type) : Type :=
  TransactionData.t -> A * TransactionData.t.

Definition ret {A : Type} (a : A) : Synth A := fun td => (a, td).

Definition bind {A B : Type} (m : Synth A) (k : A -> Synth B) : Synth B :=
  fun td => let (a, td') := m td in k a td'.

(** [transactionData.field] *)
Definition read {A : Type} (field : TransactionData.t -> A) : Synth A :=
  fun td => (field td, td).

Definition generateInvoiceNumber (host : InvoiceHost) : string :=
  let prefix := "VF"%string in
  let timestamp := JS.slice_last 8 (JS.toString (Date_now host)) in
  let random := JS.padStart0 2 (JS.toString (Qfloor (Math_random host * 99)%Q)) in
  String.append prefix (String.append timestamp random).

Definition templates : list (string * list (string * BusinessInfo.t)) :=
  [ ("street food",
     [ ("th", BusinessInfo.mk "ร้านอาหารริมทาง" "123 ถนนสุขุมวิท กรุงเทพฯ"
                "+66 2 123 4567" "streetfood@example.com");
       ("en", BusinessInfo.mk "Street Food Corner" "123 Main Street, Bangkok"
                "+66 2 123 4567" "streetfood@example.com") ]);
    ("repair shop",
     [ ("id", BusinessInfo.mk "Bengkel Motor Pak Budi" "Jl. Raya No. 123, Jakarta"
                "+62 21 123 4567" "bengkel@example.com");
       ("en", BusinessInfo.mk "Budi Motor Repair" "123 Main Road, Jakarta"
                "+62 21 123 4567" "repair@example.com") ]);
    ("sari-sari store",
     [ ("tl", BusinessInfo.mk "Sari-Sari Store ni Maria" "123 Barangay Street, Manila"
                "+63 2 123 4567" "sarisari@example.com");
       ("en", BusinessInfo.mk "Maria's Sari-Sari Store" "123 Barangay Street, Manila"
                "+63 2 123 4567" "store@example.com") ]);
    ("tailor",
     [ ("vi", BusinessInfo.mk "Tiệm May Chị Lan" "123 Đường Nguyễn Huệ, TP.HCM"
                "+84 28 123 4567" "tailor@example.com");
       ("en", BusinessInfo.mk "Lan's Tailor Shop" "123 Nguyen Hue Street, HCMC"
                "+84 28 123 4567" "tailor@example.com") ]) ]%string.

(** The identity returned when the table has no entry. *)
Definition genericBusiness : BusinessInfo.t :=
  BusinessInfo.mk "VoiceFlow Business" "123 Business Street"
    "+1 234 567 8900" "contact@voiceflow.ai".

Definition getBusinessTemplate (businessType language : string)
  : BusinessInfo.t :=
  let businessTemplate := JS.get businessType templates in
  match businessTemplate with
  | Some businessTemplate =>
      match JS.get language businessTemplate with
      | Some info => info
      | None => genericBusiness
      end
  | None => genericBusiness
  end.

Definition selectTemplate (businessType : string) : string :=
  let templates : list (string * string) :=
    [ ("street food", "food-service");
      ("repair shop", "service-maintenance");
      ("sari-sari store", "retail");
      ("tailor", "custom-service");
      ("retail", "retail");
      ("general", "standard") ]%string in
  JS.or_str (JS.get businessType templates) "standard"%string.

Definition parseDueDate (host : InvoiceHost) (dueDate : string) : string :=
  if JS.includes dueDate "week" then
    let nextWeek := Date_new host in
    let nextWeek :=
      Calendar.setDate (LocalTZA host) nextWeek
        (Calendar.getDate (LocalTZA host) nextWeek + 7) in
    Calendar.toISODate nextWeek
  else if JS.includes dueDate "month" then
    let nextMonth := Date_new host in
    let nextMonth :=
      Calendar.setMonth (LocalTZA host) nextMonth
        (Calendar.getMonth (LocalTZA host) nextMonth + 1) in
    Calendar.toISODate nextMonth
  else
    match Date_parse host dueDate with
    | Some parsed => Calendar.toISODate parsed
    | None =>
        let defaultDue := Date_new host in
        let defaultDue :=
          Calendar.setDate (LocalTZA host) defaultDue
            (Calendar.getDate (LocalTZA host) defaultDue + 30) in
        Calendar.toISODate defaultDue
    end.

(** [s.replace('.', '')]: drop the first full stop. *)
Fixpoint dropFirstDot (s : string) : string :=
  match s with
  | EmptyString => EmptyString
  | String c rest =>
      if Ascii.eqb c "."%char then rest else String c (dropFirstDot rest)
  end.

Local Notation "a +++ b" := (String.append a b)
  (at level 60, right associativity).

Definition generatePromptPayQR (host : InvoiceHost) (amount : float) : string :=
  let promptPayID := "0891234567890"%string in
  let amountStr := JS.padStart0 12 (dropFirstDot (Number_toFixed2 host amount)) in
  "00020101021129370016A000000677010111011300" +++ promptPayID +++ "520454"
    +++ amountStr +++ "5303764540" +++ Number_toFixed2 host amount
    +++ "5802TH63040123".

Definition generateGCashQR (host : InvoiceHost) (amount : float) : string :=
  let merchantId := "DEMO123456"%string in
  "https://qr.gcash.com/qrcode?merchantId=" +++ merchantId +++ "&amount="
    +++ Number_toString host amount +++ "&currency=PHP&reference=VF"
    +++ JS.toString (Date_now host).

Definition generateGoPayQR (host : InvoiceHost) (amount : float) : string :=
  let merchantId := "GOPAY_DEMO_12345"%string in
  let transactionId := "VF" +++ JS.toString (Date_now host) in
  "https://gojek.link/gopay/qr?merchant=" +++ merchantId +++ "&amount="
    +++ Number_toString host amount +++ "&currency=IDR&ref=" +++ transactionId.

Definition generateVietQRCode (host : InvoiceHost) (amount : float) : string :=
  let bankCode := "970436"%string in
  let accountNumber := "1234567890"%string in
  let amountStr := Number_toString host amount in
  "00020101021238540010A00000072701240006" +++ bankCode +++ "01"
    +++ JS.toString (Z.of_nat (String.length accountNumber)) +++ accountNumber
    +++ "520454" +++ JS.toString (Z.of_nat (String.length amountStr))
    +++ amountStr +++ "5303704540" +++ Number_toString host amount
    +++ ".005802VN63041234".

(** [generatePaymentQR]: the payload by currency, then the encoder; a
    failure of the encoder gives the empty string. *)
Definition generatePaymentQR (host : InvoiceHost) : Synth string :=
  bind (read TransactionData.currency) (fun currency =>
  bind (read TransactionData.total) (fun total =>
  let qrData :=
    if String.eqb currency "THB" then generatePromptPayQR host total
    else if String.eqb currency "PHP" then generateGCashQR host total
    else if String.eqb currency "IDR" then generateGoPayQR host total
    else if String.eqb currency "VND" then generateVietQRCode host total
    else "Payment Amount: " +++ Number_toString host total +++ " " +++ currency in
  match QRCode_toDataURL host qrData with
  | JS.Returned url => ret url
  | JS.Thrown error => ret ""%string
  end)).

Definition generateInvoice (host : InvoiceHost) (businessType : string)
  : Synth InvoiceData.t :=
  let invoiceNumber := generateInvoiceNumber host in
  let currentDate := Calendar.toISODate (Date_new host) in
  bind (read TransactionData.language) (fun language =>
  let businessInfo := getBusinessTemplate businessType language in
  let template := selectTemplate businessType in
  bind (read TransactionData.paymentTerms) (fun paymentTerms =>
  bind (read TransactionData.dueDate) (fun dueDateHint =>
  let dueDate :=
    if JS.strict_eq paymentTerms "later"
    then match JS.truthy dueDateHint with
         | Some hint => Some (parseDueDate host hint)
         | None => None
         end
    else None in
  bind (generatePaymentQR host) (fun qrCode =>
  bind (read TransactionData.customer) (fun customer =>
  bind (read TransactionData.items) (fun items =>
  bind (read TransactionData.total) (fun subtotal =>
  bind (read TransactionData.total) (fun total =>
  bind (read TransactionData.currency) (fun currency =>
  ret (InvoiceData.mk invoiceNumber currentDate dueDate businessInfo
         customer items subtotal total currency
         (JS.or_str paymentTerms "immediate") qrCode template language)))))))))).

End InvoiceService.

(** ** ai-services/src/seaLionService.ts, the revision without a cache *)

Module SeaLionServiceV1.

Definition fallbackToGPT : bool := true.

Definition processWithSEALion (transcription : list Z) (language : string)
  : JS.Completion RawTransactionData.t :=
  JS.Thrown "SEA-LION API not available in POC phase".

(** The tables and templates are those of the later revision. *)
Definition buildSeaAsianPrompt (transcription : list Z) (language : string)
  : JS.Completion SeaLionService.Prompt :=
  SeaLionService.buildSeaAsianPrompt transcription language.

Definition processWithGPT4 (host : Host) (transcription : list Z)
    (language : string) : JS.Completion RawTransactionData.t :=
  match buildSeaAsianPrompt transcription language with
  | JS.Thrown error => JS.Thrown error
  | JS.Returned prompt =>
      match chat_completions_create (openai host) 1 with
      | JS.Thrown e => JS.Thrown e
      | JS.Returned response =>
          match JS.truthy (content response) with
          | None => JS.Thrown "No response from AI service"   (* !result *)
          | Some result =>
              match JSON_parse host result with
              | Some parsed => JS.Returned (Decode.transactionData parsed)
              | None => JS.Thrown "Invalid AI response format"
              end
          end
      end
  end.

Definition processVoiceTransaction (host : Host) (transcription : list Z)
    (language : string) : JS.Completion RawTransactionData.t :=
  match processWithSEALion transcription language with
  | JS.Returned result => JS.Returned result
  | JS.Thrown error =>
      if fallbackToGPT
      then processWithGPT4 host transcription language
      else JS.Thrown error
  end.

End SeaLionServiceV1.

(** ** backend/src/server.ts: the rate limiter *)

Module RateLimiter.

(** [rlWindowMs] and [rlMax], read from the environment when the server
    starts. *)
Record Config : Type :=
  { rlWindowMs : Z; rlMax : Z }.

(** The values used when the environment sets neither. *)
Definition defaultConfig : Config :=
  {| rlWindowMs := 60000; rlMax := 60 |}.

(** [(req.ip || 'global') + ':' + (req.path.split('/')[2] || 'root')];
    [segments] is [req.path.split('/')]. *)
Definition key (ip : option string) (segments : list string) : string :=
  String.append (JS.or_str ip "global")
    (String.append ":" (JS.or_str (nth_error segments 2) "root")).

(** The middleware on one request at time [now]: the timestamps of the key
    still inside the window, with [now] pushed, are stored; the request goes
    on ([true]) unless they are more than [rlMax], in which case it is
    answered 429 ([false]). *)
Definition limit (config : Config) (now : Z) (key : string)
    (rlStore : gmap string (list Z)) : bool * gmap string (list Z) :=
  let windowStart := (now - rlWindowMs config)%Z in
  let arr := JS.or_obj (rlStore !! key) [] in
  let recent := List.filter (fun ts => (windowStart <? ts)%Z) arr ++ [now] in
  let rlStore := <[ key := recent ]> rlStore in
  if (rlMax config <? Z.of_nat (length recent))%Z
  then (false, rlStore)
  else (true, rlStore).

End RateLimiter.

(** ** backend/src/server.ts: the voice endpoint *)

Module Server.

(** [apiStats] *)
Record ApiStats : Type :=
  { totalRequests : Z;
    successfulRequests : Z;
    failedRequests : Z;
    averageProcessingTime : float;
    lastRequestTime : option Z }.

Definition initialStats : ApiStats :=
  {| totalRequests := 0; successfulRequests := 0; failedRequests := 0;
     averageProcessingTime := 0; lastRequestTime := None |}.

(** [req.file] as multer leaves it. *)
Record UploadedFile : Type :=
  { size : Z; mimetype : option string; buffer : list Byte.byte }.

(** What the handler reads of a request: [req.body.language] and
    [req.file].  A language field that is no string (a repeated field, which
    the parser makes an array) is none of the supported ones, and is
    answered as an unsupported string is. *)
Record VoiceRequest : Type :=
  { body_language : option string; file : option UploadedFile }.

(** The body of a response, as far as the server decides it: the JSON of a
    failure with its [retryable] mark if it has one, the JSON of a result,
    or the page Express's own error handler writes for an error no
    middleware of the server answers. *)
Inductive Body : Type :=
| Failure (error : string) (retryable : option bool)
| VoiceResult (transcription : string) (transactionData : TransactionData.t)
    (invoiceData : InvoiceData.t) (invoiceHTML : string) (processingTime : Z)
| ErrorPage (message : string).

Record Response : Type :=
  { status : Z; body : Body }.

(** What one request meets: the hosts of the two services; the clock when
    the handler starts ([Date.now()], then [new Date()]) and the time the
    request has taken when it is answered; which of the two timed stages
    lose the race against their timer; and the HTML renderer of the invoice
    service, taken as it comes (it may throw). *)
Record VoiceEnv : Type :=
  { ai : Host;
    invoicing : InvoiceHost;
    startTime : Z;
    requestDate : Z;
    processingTime : Z;
    transcriptionTimedOut : bool;
    processingTimedOut : bool;
    generateInvoiceHTML : InvoiceData.t -> JS.Completion string }.

(** [await Promise.race([stage, timer])]: the timer's rejection when it
    fires first, the outcome of the stage otherwise. *)
Definition race {A : Type} (timedOut : bool) (message : string)
    (stage : JS.Completion A) : JS.Completion A :=
  if timedOut then JS.Thrown message else stage.

(** [await] in a [try] block: go on with the value, or leave with the
    exception. *)
Definition andThen {A B : Type} (m : JS.Completion A)
    (k : A -> JS.Completion B) : JS.Completion B :=
  match m with
  | JS.Returned a => k a
  | JS.Thrown e => JS.Thrown e
  end.

(** [apiStats.failedRequests++] *)
Definition countFailure (stats : ApiStats) : ApiStats :=
  {| totalRequests := totalRequests stats;
     successfulRequests := successfulRequests stats;
     failedRequests := failedRequests stats + 1;
     averageProcessingTime := averageProcessingTime stats;
     lastRequestTime := lastRequestTime stats |}.

(** [apiStats.successfulRequests++] and the update of the running average,
    in the arithmetic of numbers. *)
Definition countSuccess (processingTime : Z) (stats : ApiStats) : ApiStats :=
  let successfulRequests := (successfulRequests stats + 1)%Z in
  {| totalRequests := totalRequests stats;
     successfulRequests := successfulRequests;
     failedRequests := failedRequests stats;
     averageProcessingTime :=
       (averageProcessingTime stats * JS.ofZ (successfulRequests - 1)
        + JS.ofZ processingTime) / JS.ofZ successfulRequests;
     lastRequestTime := lastRequestTime stats |}.

(** The [catch] block of the voice endpoint: the response by the message of
    the error. *)
Definition voiceErrorResponse (message : string) : Response :=
  if JS.includes message "timeout" then
    {| status := 408; body := Failure "Request timeout" (Some true) |}
  else if JS.includes message "API key" || JS.includes message "authentication" then
    {| status := 503; body := Failure "Service temporarily unavailable" (Some true) |}
  else if JS.includes message "rate limit" || JS.includes message "quota" then
    {| status := 429; body := Failure "Rate limit exceeded" (Some true) |}
  else
    {| status := 500; body := Failure "Internal server error" (Some true) |}.

(** [10 * 1024 * 1024] *)
Definition maxFileSize : Z := 10 * 1024 * 1024.

(** The handler of [POST /api/voice/process]: the response and [apiStats]
    after the request.  The transaction is read at its declared type, which
    is what the handler has for the mock records and for every provider
    document of the declared shape. *)
Definition voiceProcess (env : VoiceEnv) (req : VoiceRequest)
    (apiStats : ApiStats) : Response * ApiStats :=
  let apiStats :=
    {| totalRequests := totalRequests apiStats + 1;
       successfulRequests := successfulRequests apiStats;
       failedRequests := failedRequests apiStats;
       averageProcessingTime := averageProcessingTime apiStats;
       lastRequestTime := Some (requestDate env) |} in
  let attempt : JS.Completion (Response * ApiStats) :=
    (* const { language = 'en' } = req.body *)
    let language := JS.or_obj (body_language req) "en"%string in
    if negb (existsb (String.eqb language) supportedLanguages) then
      JS.Returned ({| status := 400; body := Failure "Invalid language" None |},
                   countFailure apiStats)
    else
      match file req with
      | None =>
          JS.Returned ({| status := 400;
                          body := Failure "No audio file provided" None |},
                       countFailure apiStats)
      | Some audioFile =>
          if (maxFileSize <? size audioFile)%Z then
            JS.Returned ({| status := 400; body := Failure "File too large" None |},
                         countFailure apiStats)
          else
            (* Step 1: Transcribe audio with timeout *)
            andThen
              (race (transcriptionTimedOut env) "Transcription timeout"
                 (IO.result (AIService.transcribeAudio (ai env)
                               (buffer audioFile) language)))
              (fun transcription =>
            (* Step 2: Process transaction data with timeout *)
            andThen
              (race (processingTimedOut env) "Transaction processing timeout"
                 (IO.result (AIService.processTransaction (ai env)
                               transcription language)))
              (fun transactionData =>
            (* Step 3: Generate invoice *)
            let invoiceData :=
              fst (InvoiceService.generateInvoice (invoicing env)
                     (JS.or_str (TransactionData.businessType transactionData)
                        "general")
                     transactionData) in
            andThen (generateInvoiceHTML env invoiceData)
              (fun invoiceHTML =>
            JS.Returned
              ({| status := 200;
                  body := VoiceResult transcription transactionData
                            invoiceData invoiceHTML (processingTime env) |},
               countSuccess (processingTime env) apiStats))))
      end in
  match attempt with
  | JS.Returned answered => answered
  | JS.Thrown message => (voiceErrorResponse message, countFailure apiStats)
  end.

(** A request to [POST /api/voice/process] as it reaches the rate limiter:
    the address of the client, and what [upload.single('audio')] will make
    of the body, the request as the handler reads it or the error multer
    passes on. *)
Record HttpRequest : Type :=
  { ip : option string; upload : JS.Completion VoiceRequest }.

(** The state of the server between requests. *)
Record State : Type :=
  { rlStore : gmap string (list Z); apiStats : ApiStats }.

(** [req.path.split('/')] under the mount point ['/api/']. *)
Definition voicePath : list string := [""; "voice"; "process"]%string.

(** The route: the rate limiter mounted on ['/api/'], the upload middleware,
    the handler.  An error of the upload middleware goes to Express's error
    handler, which answers it 500 (multer's errors carry no status of their
    own); the statistics count what reaches the handler. *)
Definition voiceRoute (config : RateLimiter.Config) (env : VoiceEnv)
    (now : Z) (req : HttpRequest) (state : State) : Response * State :=
  let (admitted, rlStore) :=
    RateLimiter.limit config now (RateLimiter.key (ip req) voicePath)
      (rlStore state) in
  if negb admitted then
    ({| status := 429; body := Failure "Rate limit exceeded" None |},
     {| rlStore := rlStore; apiStats := apiStats state |})
  else
    match upload req with
    | JS.Thrown error =>
        ({| status := 500; body := ErrorPage error |},
         {| rlStore := rlStore; apiStats := apiStats state |})
    | JS.Returned voiceRequest =>
        let (response, apiStats) := voiceProcess env voiceRequest (apiStats state) in
        (response, {| rlStore := rlStore; apiStats := apiStats |})
    end.

End Server.

(** * Vocabulary of the properties *)

Module Spec.

(** A number that is zero: [0] or [-0]. *)
Definition zero (x : float) : Prop := (x =? 0) = true.

(** A number that is not a number. *)
Definition NaN (x : float) : Prop := is_nan x = true.

(** An item of the provider's output next to its repaired form: the name,
    quantity and unit price are the same; the total is
    [quantity * unitPrice] when the reported total was absent or zero (or
    [NaN], which no JSON text denotes), and the reported total when that was
    not zero. *)
Definition ItemRepaired (item : RawItem.t) (fixed : Item.t) : Prop :=
  Item.name fixed = RawItem.name item /\
  Item.quantity fixed = RawItem.quantity item /\
  Item.unitPrice fixed = RawItem.unitPrice item /\
  ((RawItem.total item = None \/
    exists t, RawItem.total item = Some t /\ (zero t \/ NaN t)) ->
   Item.total fixed = Item.quantity fixed * Item.unitPrice fixed) /\
  (forall t, RawItem.total item = Some t -> ~ zero t -> ~ NaN t ->
   Item.total fixed = t).

(** The sum of a list of numbers, added from left to right starting from
    [0]: the sum of a list with one more number at its end is the sum of the
    list plus that number. *)
Definition sum (xs : list float) : float :=
  fold_right (fun x acc => acc + x) 0 (rev xs).

(** The trace of [failures] rejected attempts in a row, the first of them
    attempt [attempt]: each is followed by a wait of [2 ^ n] seconds, [n]
    the number of the attempt. *)
Fixpoint backoffTrace (attempt failures : nat) : list IO.Event :=
  match failures with
  | O => []
  | S failures' =>
      IO.Request attempt :: IO.Sleep (2 ^ Z.of_nat attempt * 1000)
        :: backoffTrace (S attempt) failures'
  end.

(** Attempt [n] of the chat request is rejected. *)
Definition rejected (client : OpenAI) (n : nat) : Prop :=
  exists e, chat_completions_create client n = JS.Thrown e.

(** The general-purpose model fails for a request: every one of the three
    attempts is rejected, or the first attempt that is answered carries no
    content, or content that is not valid JSON. *)
Inductive GeneralModelFails (host : Host) : Prop :=
| AllAttemptsRejected :
    (forall n, 1 <= n <= 3 -> rejected (openai host) n)%nat ->
    GeneralModelFails host
| NoContent (k : nat) (response : ChatCompletion) :
    (1 <= k <= 3)%nat ->
    (forall j, 1 <= j < k -> rejected (openai host) j)%nat ->
    chat_completions_create (openai host) k = JS.Returned response ->
    content response = None \/ content response = Some ""%string ->
    GeneralModelFails host
| MalformedJSON (k : nat) (response : ChatCompletion) (text : string) :
    (1 <= k <= 3)%nat ->
    (forall j, 1 <= j < k -> rejected (openai host) j)%nat ->
    chat_completions_create (openai host) k = JS.Returned response ->
    content response = Some text ->
    JSON_parse host text = None ->
    GeneralModelFails host.

(** [needle] occurs in [hay]. *)
Definition contains (hay needle : string) : Prop :=
  exists before after : string,
    hay = String.append before (String.append needle after).

(** One calendar month after [d]: the same day of the following month, or
    the last day of that month when it is too short for the day. *)
Definition oneMonthLater (d : Calendar.Date) : Calendar.Date :=
  let (y1, m1) := Calendar.nextMonth (Calendar.year d) (Calendar.month d) in
  Calendar.mk y1 m1 (Z.min (Calendar.day d) (Calendar.daysInMonth y1 m1)).

(** The day number of a civil date. *)
Definition dayNumber (d : Calendar.Date) : Z :=
  Calendar.MakeDay (Calendar.year d) (Calendar.month d) (Calendar.day d).

(** The calendar date in UTC of a time value. *)
Definition utcDate (t : Z) : Calendar.Date := Calendar.civil (Calendar.Day t).

(** The calendar date of a time value on the clock of the server. *)
Definition localDate (LocalTZA : Z -> bool -> Z) (t : Z) : Calendar.Date :=
  Calendar.civil (Calendar.Day (Calendar.LocalTime LocalTZA t)).

(** Business template resolution as the specification words it: look up
    (businessType, language); if absent fall back to (businessType, "en");
    if still absent fall back to the generic identity. *)
Definition threeLevelTemplate (businessType language : string)
  : BusinessInfo.t :=
  match JS.get businessType InvoiceService.templates ≫= JS.get language with
  | Some info => info
  | None =>
      match JS.get businessType InvoiceService.templates ≫= JS.get "en"%string with
      | Some info => info
      | None => InvoiceService.genericBusiness
      end
  end.

(** A business identity with no field left empty. *)
Definition complete (b : BusinessInfo.t) : Prop :=
  BusinessInfo.name b <> ""%string /\ BusinessInfo.address b <> ""%string /\
  BusinessInfo.phone b <> ""%string /\ BusinessInfo.email b <> ""%string.

End Spec.


(** * Sample hosts *)

Module Sample.

(** A client whose every request is rejected, with the number of the
    attempt in the message, and whose transcription endpoint is
    unreachable. *)
Definition failingClient : OpenAI :=
  {| chat_completions_create :=
       fun n => JS.Thrown (String.append "rejected " (JS.toString (Z.of_nat n)));
     audio_transcriptions_create := fun _ _ => JS.Thrown "unreachable" |}.

(** A host with a credential whose provider fails throughout. *)
Definition failingHost : Host :=
  {| OPENAI_API_KEY := Some "sk-test"%string;
     openai := failingClient;
     JSON_parse := fun _ => None;
     fs_writeFileSync := fun _ => JS.Returned tt |}.

(** A host of invoice synthesis in UTC on 31 January 2025, 09:30, whose
    date parser knows no text and whose QR encoder fails. *)
Definition invoiceHost : InvoiceHost :=
  {| Date_now := 1738315800123;
     Date_new := 1738315800123;
     LocalTZA := fun _ _ => 0%Z;
     Date_parse := fun _ => None;
     Math_random := 0.5%Q;
     Number_toString := fun _ => ""%string;
     Number_toFixed2 := fun _ => ""%string;
     QRCode_toDataURL := fun _ => JS.Thrown "encoder failure" |}.

(** The offset of Asia/Bangkok, seven hours ahead of UTC the year round. *)
Definition bangkok : Z -> bool -> Z := fun _ _ => (7 * 60 * 60 * 1000)%Z.

(** A server in Bangkok at 01:30 in the morning of 1 March 2025, which is
    18:30 of 28 February in UTC. *)
Definition bangkokHost : InvoiceHost :=
  {| Date_now := 1740767400000;
     Date_new := 1740767400000;
     LocalTZA := bangkok;
     Date_parse := fun _ => None;
     Math_random := 0.5%Q;
     Number_toString := fun _ => ""%string;
     Number_toFixed2 := fun _ => ""%string;
     QRCode_toDataURL := fun _ => JS.Thrown "encoder failure" |}.

(** A sale to be paid later, due "next month". *)
Definition dueNextMonth : TransactionData.t :=
  TransactionData.mk
    [ Item.mk "Shirts" 3 25 75 ] None 75 "THB"
    (Some "later"%string) (Some "next month"%string)
    (Some "retail"%string) "th" None.

End Sample.

(** * Vocabulary of the further properties *)

Module Spec2.

(** The integer [hash] that [hashString] prints in base 36. *)
Definition hashValue (str : list Z) : Z :=
  fold_left
    (fun hash char =>
       SeaLionService.toInt32
         ((SeaLionService.toInt32 (hash * 2 ^ 5) - hash) + char)%Z)
    str 0%Z.

(** The polynomial in 31 over the code units of a string,
    [c0 * 31^(n-1) + ... + c(n-1)]. *)
Definition polyHash (str : list Z) : Z :=
  fold_left (fun hash char => (31 * hash + char)%Z) str 0%Z.

(** The milliseconds a computation spent waiting. *)
Definition totalSleep (tr : list IO.Event) : Z :=
  fold_right
    (fun e acc => match e with IO.Sleep ms => (ms + acc)%Z | IO.Request _ => acc end)
    0%Z tr.

(** The language codes the transcription requests of the backend carry. *)
Definition whisperCodes : list string := ["id"; "th"; "vi"; "en"]%string.

(** The style tags of [selectTemplate]. *)
Definition templateTags : list string :=
  ["food-service"; "service-maintenance"; "retail"; "custom-service";
   "standard"]%string.

(** Dates in calendar order. *)
Definition before (a b : Calendar.Date) : Prop :=
  (Calendar.year a < Calendar.year b \/
   (Calendar.year a = Calendar.year b /\
    (Calendar.month a < Calendar.month b \/
     (Calendar.month a = Calendar.month b /\ Calendar.day a < Calendar.day b))))%Z.

(** The timestamps of a record later than [start], in their order and each
    as often as it occurs. *)
Fixpoint laterThan (start : Z) (record : list Z) : list Z :=
  match record with
  | [] => []
  | ts :: rest =>
      if (ts <=? start)%Z then laterThan start rest
      else ts :: laterThan start rest
  end.

(** The requests of one key served in turn at the given times: which of
    them went on, and the store afterwards. *)
Fixpoint serve (config : RateLimiter.Config) (key : string) (times : list Z)
    (rlStore : gmap string (list Z)) : list bool * gmap string (list Z) :=
  match times with
  | [] => ([], rlStore)
  | now :: later =>
      let (admitted, rlStore) := RateLimiter.limit config now key rlStore in
      let (rest, rlStore) := serve config key later rlStore in
      (admitted :: rest, rlStore)
  end.

(** [apiStats] once a request is counted and stamped. *)
Definition counted (env : Server.VoiceEnv) (apiStats : Server.ApiStats)
  : Server.ApiStats :=
  {| Server.totalRequests := Server.totalRequests apiStats + 1;
     Server.successfulRequests := Server.successfulRequests apiStats;
     Server.failedRequests := Server.failedRequests apiStats;
     Server.averageProcessingTime := Server.averageProcessingTime apiStats;
     Server.lastRequestTime := Some (Server.requestDate env) |}.

(** A voice request that passes the checks of the handler: a supported
    language (or none, which counts as 'en') and a file of at most 10 MB. *)
Definition wellFormed (req : Server.VoiceRequest) : Prop :=
  In (JS.or_obj (Server.body_language req) "en"%string) supportedLanguages /\
  exists audioFile,
    Server.file req = Some audioFile /\
    (Server.size audioFile <= Server.maxFileSize)%Z.

(** A provider whose documents are typed: every document its parser
    returns is one the validation throws on, or has the declared shape with
    a business type, if any, that names no property of
    [Object.prototype]. *)
Definition typedProvider (host : Host) : Prop :=
  forall text doc,
    JSON_parse host text = Some doc ->
    AIService.validationError doc <> None \/
    (Decode.conforms doc = true /\
     forall type,
       Decode.asString (JSON.member "businessType" doc) = Some type ->
       JS.inherited type = false).

(** What the upload middleware guarantees with [limits.fileSize] set to
    10 MB: a file it hands on has at most that size; a larger upload ends in
    its error. *)
Definition uploadLimit (req : Server.HttpRequest) : Prop :=
  forall voiceRequest audioFile,
    Server.upload req = JS.Returned voiceRequest ->
    Server.file voiceRequest = Some audioFile ->
    (Server.size audioFile <= Server.maxFileSize)%Z.

(** The server before its first request. *)
Definition initialState : Server.State :=
  {| Server.rlStore := ∅; Server.apiStats := Server.initialStats |}.

(** The requests of a list served in turn by the route, each at its time and
    with what it meets: the responses, and the state afterwards. *)
Fixpoint serveAll (config : RateLimiter.Config)
    (requests : list (Server.VoiceEnv * Z * Server.HttpRequest))
    (state : Server.State) : list Server.Response * Server.State :=
  match requests with
  | [] => ([], state)
  | (env, now, req) :: later =>
      let (response, state) := Server.voiceRoute config env now req state in
      let (answers, state) := serveAll config later state in
      (response :: answers, state)
  end.

(** The response is one the handler wrote: not the page of the error
    handler, and not the 429 of the rate limiter, the one failure with
    status 429 that carries no [retryable] mark. *)
Definition fromHandler (response : Server.Response) : bool :=
  match Server.body response with
  | Server.ErrorPage _ => false
  | Server.Failure _ None => negb (Server.status response =? 429)%Z
  | _ => true
  end.

(** How many responses of a list satisfy a test. *)
Definition count (test : Server.Response -> bool)
    (answers : list Server.Response) : Z :=
  Z.of_nat (length (List.filter test answers)).

End Spec2.

(** * Further sample hosts *)

Module Sample2.

(** A host with a credential whose provider answers the second chat request
    with a JSON text that its parser reads as one item without a total. *)
Definition answeringHost : Host :=
  {| OPENAI_API_KEY := Some "sk-test"%string;
     openai :=
       {| chat_completions_create :=
            fun n => if Nat.eqb n 2
                     then JS.Returned {| content := Some "{json}"%string |}
                     else JS.Thrown "rate limit";
          audio_transcriptions_create :=
            fun _ _ => JS.Returned "dua kopi"%string |};
     JSON_parse :=
       fun text =>
         if String.eqb text "{json}"
         then Some (JSON.Object
                      [ ("items"%string,
                         JSON.Array
                           [ JSON.Object
                               [ ("name"%string, JSON.String "kopi");
                                 ("quantity"%string, JSON.Number 2);
                                 ("unitPrice"%string, JSON.Number 5000) ] ]) ])
         else None;
     fs_writeFileSync := fun _ => JS.Returned tt |}.

(** A host whose provider answers every chat request with a JSON text that
    its parser reads as a transaction of 250. *)
Definition gpt4Host : Host :=
  {| OPENAI_API_KEY := Some "sk-test"%string;
     openai :=
       {| chat_completions_create :=
            fun _ => JS.Returned {| content := Some "{json}"%string |};
          audio_transcriptions_create :=
            fun _ _ => JS.Returned "dua kopi"%string |};
     JSON_parse :=
       fun _ => Some (JSON.Object [ ("total"%string, JSON.Number 250) ]);
     fs_writeFileSync := fun _ => JS.Returned tt |}.

(** A host without a credential. *)
Definition offlineHost : Host :=
  {| OPENAI_API_KEY := None;
     openai := Sample.failingClient;
     JSON_parse := fun _ => None;
     fs_writeFileSync := fun _ => JS.Returned tt |}.

(** A request in Thai with a small recording. *)
Definition thaiRequest : Server.VoiceRequest :=
  {| Server.body_language := Some "th"%string;
     Server.file := Some {| Server.size := 2048;
                            Server.mimetype := Some "audio/webm"%string;
                            Server.buffer := [] |} |}.

(** A server without a credential on which the transcription loses against
    its timer. *)
Definition slowEnv : Server.VoiceEnv :=
  {| Server.ai := offlineHost;
     Server.invoicing := Sample.invoiceHost;
     Server.startTime := 1738315800000;
     Server.requestDate := 1738315800000;
     Server.processingTime := 30001;
     Server.transcriptionTimedOut := true;
     Server.processingTimedOut := false;
     Server.generateInvoiceHTML := fun _ => JS.Returned "<html>"%string |}.

(** A server with a credential whose providers fail throughout. *)
Definition failingEnv : Server.VoiceEnv :=
  {| Server.ai := Sample.failingHost;
     Server.invoicing := Sample.invoiceHost;
     Server.startTime := 1738315800000;
     Server.requestDate := 1738315800000;
     Server.processingTime := 6350;
     Server.transcriptionTimedOut := false;
     Server.processingTimedOut := false;
     Server.generateInvoiceHTML := fun _ => JS.Returned "<html>"%string |}.

(** A server with a credential whose chat provider rejects the first
    request and answers the second. *)
Definition answeringEnv : Server.VoiceEnv :=
  {| Server.ai := answeringHost;
     Server.invoicing := Sample.invoiceHost;
     Server.startTime := 1738315800000;
     Server.requestDate := 1738315800000;
     Server.processingTime := 2840;
     Server.transcriptionTimedOut := false;
     Server.processingTimedOut := false;
     Server.generateInvoiceHTML := fun _ => JS.Returned "<html>"%string |}.

(** A request in Indonesian with a small recording, from the loopback
    address. *)
Definition indonesianUpload : Server.HttpRequest :=
  {| Server.ip := Some "::1"%string;
     Server.upload :=
       JS.Returned
         {| Server.body_language := Some "id"%string;
            Server.file := Some {| Server.size := 4096;
                                   Server.mimetype := Some "audio/webm"%string;
                                   Server.buffer := [] |} |} |}.

(** The Thai request as it reaches the route from the loopback address. *)
Definition thaiUpload : Server.HttpRequest :=
  {| Server.ip := Some "::1"%string;
     Server.upload := JS.Returned thaiRequest |}.

(** An upload of more than 10 MB: the middleware ends in its error. *)
Definition oversizedUpload : Server.HttpRequest :=
  {| Server.ip := Some "::1"%string;
     Server.upload := JS.Thrown "File too large" |}.

(** A request in Khmer without a file. *)
Definition khmerUpload : Server.HttpRequest :=
  {| Server.ip := Some "::1"%string;
     Server.upload :=
       JS.Returned {| Server.body_language := Some "km"%string;
                      Server.file := None |} |}.

End Sample2.

(** * Properties *)

(** ** Reading the JavaScript tests as propositions *)

Module JSFacts.

(** [ToBoolean] of a number, by comparison. *)
Lemma truthy_num_spec (x : float) :
  JS.truthy_num x = negb ((x =? 0) || is_nan x).
Proof.
  unfold JS.truthy_num, is_nan.
  rewrite FloatAxioms.classify_spec, !FloatAxioms.eqb_spec.
  change (Prim2SF 0) with (S754_zero false).
  destruct (Prim2SF x) as [s | s | | s m e].
  - destruct s; reflexivity.
  - destruct s; reflexivity.
  - reflexivity.
  - unfold SF64classify, SFclassify, SFeqb, SFcompare.
    rewrite Z.compare_refl, Pos.compare_cont_refl.
    destruct s, (Z.pos (digits2_pos m) =? prec)%Z; reflexivity.
Qed.

Lemma truthy_num_false (x : float) :
  JS.truthy_num x = false <-> Spec.zero x \/ Spec.NaN x.
Proof.
  rewrite truthy_num_spec, negb_false_iff, orb_true_iff. reflexivity.
Qed.

Lemma truthy_num_true (x : float) :
  JS.truthy_num x = true <-> ~ Spec.zero x /\ ~ Spec.NaN x.
Proof.
  rewrite truthy_num_spec, negb_true_iff, orb_false_iff.
  unfold Spec.zero, Spec.NaN.
  destruct (x =? 0), (is_nan x); intuition congruence.
Qed.

(** [x || d] keeps a number that is truthy. *)
Lemma or_num_truthy (v d : float) :
  JS.truthy_num v = true -> JS.or_num (Some v) d = v.
Proof. intros H. unfold JS.or_num. now rewrite H. Qed.

(** [x || d] replaces a number that is falsy. *)
Lemma or_num_falsy (v d : float) :
  JS.truthy_num v = false -> JS.or_num (Some v) d = d.
Proof. intros H. unfold JS.or_num. now rewrite H. Qed.

(** The difference of a number and itself is never above a hundredth: it
    is [0], or [NaN] when the number is infinite or [NaN]. *)
Lemma minus_itself_small (s : float) : JS.gt (abs (s - s)) 0.01 = false.
Proof.
  unfold JS.gt.
  rewrite FloatAxioms.ltb_spec, FloatAxioms.abs_spec, FloatAxioms.sub_spec.
  destruct (Prim2SF s) as [b | b | | b m e].
  - destruct b; reflexivity.
  - destruct b; reflexivity.
  - reflexivity.
  - unfold SF64sub, SFsub.
    rewrite Z.min_id. unfold shl_align. rewrite Z.sub_diag. cbn [fst].
    replace (cond_Zopp b (Z.pos m) - cond_Zopp b (Z.pos m))%Z with 0%Z by lia.
    reflexivity.
Qed.

(** Comparison of numbers, read the other way round. *)
Lemma SFcompare_antisym (a b : spec_float) :
  SFcompare b a = option_map CompOpp (SFcompare a b).
Proof.
  destruct a as [sa | sa | | sa ma ea], b as [sb | sb | | sb mb eb];
    cbn; try (destruct sa); try (destruct sb); try reflexivity.
  - rewrite (Z.compare_antisym eb ea).
    destruct (eb ?= ea)%Z; cbn; try reflexivity.
    now rewrite CompOpp_involutive, (Pos.compare_cont_antisym mb ma Eq).
  - rewrite (Z.compare_antisym eb ea).
    destruct (eb ?= ea)%Z; cbn; try reflexivity.
    now rewrite (Pos.compare_cont_antisym ma mb Eq).
Qed.

Lemma SF_not_lt_le (a b : spec_float) :
  SFeqb a a = true -> SFeqb b b = true ->
  SFltb b a = false -> SFleb a b = true.
Proof.
  unfold SFltb, SFleb. rewrite (SFcompare_antisym a b).
  destruct (SFcompare a b) as [[] |] eqn:E; cbn; try congruence.
  intros Ha Hb _. destruct a, b; cbn in *; congruence.
Qed.

(** Of two numbers neither of which is [NaN], the first is at most the
    second when it is not greater. *)
Lemma not_gt_le (x y : float) :
  ~ Spec.NaN x -> ~ Spec.NaN y -> JS.gt x y = false -> (x <=? y) = true.
Proof.
  unfold Spec.NaN, is_nan, JS.gt.
  rewrite FloatAxioms.ltb_spec, FloatAxioms.leb_spec, !FloatAxioms.eqb_spec.
  intros Hx Hy Hgt. apply SF_not_lt_le; [| | exact Hgt].
  - destruct (SFeqb (Prim2SF x) (Prim2SF x)); [reflexivity | now contradiction Hx].
  - destruct (SFeqb (Prim2SF y) (Prim2SF y)); [reflexivity | now contradiction Hy].
Qed.

(** The absolute value of a number is [NaN] only when the number is. *)
Lemma abs_NaN (x : float) : Spec.NaN (abs x) -> Spec.NaN x.
Proof.
  unfold Spec.NaN, is_nan.
  rewrite !FloatAxioms.eqb_spec, FloatAxioms.abs_spec.
  destruct (Prim2SF x) as [s | s | | s m e]; cbn [SFabs];
    unfold SFeqb, SFcompare;
    rewrite ?Z.compare_refl, ?Pos.compare_cont_refl; cbn; congruence.
Qed.

(** The supported languages are no names of [Object.prototype]. *)
Lemma supported_not_inherited (language : string) :
  In language supportedLanguages -> JS.inherited language = false.
Proof.
  cbn. intros [<- | [<- | [<- | [<- | [<- | []]]]]]; reflexivity.
Qed.

(** On a key that is not inherited [table[key]] is the table's own
    entry. *)
Lemma property_get {V : Type} (key : string) (table : list (string * V)) :
  JS.inherited key = false ->
  JS.property key table
  = match JS.get key table with
    | Some v => JS.Own v
    | None => JS.Undefined
    end.
Proof. intros H. unfold JS.property. now rewrite H. Qed.

(** [table[key]?.join(', ')] returns on a key that is not inherited. *)
Lemma get_join_returns (name key : string) (table : list (string * list string)) :
  JS.inherited key = false ->
  JS.get_join name key table
  = JS.Returned (option_map JS.join (JS.get key table)).
Proof.
  intros H. unfold JS.get_join. rewrite (property_get _ _ H).
  now destruct (JS.get key table).
Qed.

Lemma truthy_Some (s : string) :
  s <> ""%string -> JS.truthy (Some s) = Some s.
Proof.
  intros H. unfold JS.truthy. apply String.eqb_neq in H. now rewrite H.
Qed.

Lemma truthy_is_Some (s : option string) (v : string) :
  JS.truthy s = Some v <-> s = Some v /\ v <> ""%string.
Proof.
  destruct s as [w |]; simpl; [| split; [discriminate | intros [H _]; discriminate]].
  destruct (String.eqb_spec w ""%string) as [-> | Hne].
  - split; [discriminate | intros [[= <-] H]; contradiction].
  - split; [intros [= <-]; auto | intros [[= <-] _]; reflexivity].
Qed.

Lemma strict_eq_true (s : option string) (literal : string) :
  JS.strict_eq s literal = true <-> s = Some literal.
Proof.
  destruct s as [v |]; simpl.
  - rewrite String.eqb_eq. split; congruence.
  - split; discriminate.
Qed.

End JSFacts.

(** ** The validator *)

Module ValidatorFacts.
Import AIService.

(** The items of the validated record are the provider's items, repaired
    one by one and in the same order. *)
Lemma validated_items (data : RawTransactionData.t) (language : string) :
  TransactionData.items (validateAndEnhanceTransactionData data language)
  = map fixItemTotal (JS.or_obj (RawTransactionData.items data) []).
Proof. reflexivity. Qed.

(** The sum of a list with one more number at its end. *)
Lemma sum_snoc (xs : list float) (x : float) :
  Spec.sum (xs ++ [x]) = Spec.sum xs + x.
Proof. unfold Spec.sum. now rewrite rev_unit. Qed.

(** What [reduce] computes is the sum of the item totals, from left to
    right. *)
Lemma sumItemTotals_sum (items : list Item.t) :
  sumItemTotals items = Spec.sum (map Item.total items).
Proof.
  unfold sumItemTotals, Spec.sum. rewrite <- map_rev, <- fold_left_rev_right.
  induction (rev items) as [| item rest IH]; [reflexivity |].
  cbn. now rewrite IH.
Qed.

(** The total of the validated record, by the test of the reconciliation. *)
Lemma validated_total (data : RawTransactionData.t) (language : string) :
  let sum :=
    sumItemTotals
      (TransactionData.items (validateAndEnhanceTransactionData data language)) in
  let reported := JS.or_num (RawTransactionData.total data) 0 in
  TransactionData.total (validateAndEnhanceTransactionData data language)
  = if JS.gt (abs (reported - sum)) 0.01 && JS.gt sum 0 then sum else reported.
Proof. reflexivity. Qed.

(** What repair does to one item. *)
Lemma fixItemTotal_spec (item : RawItem.t) :
  Item.name (fixItemTotal item) = RawItem.name item /\
  Item.quantity (fixItemTotal item) = RawItem.quantity item /\
  Item.unitPrice (fixItemTotal item) = RawItem.unitPrice item /\
  ((RawItem.total item = None \/
    exists t, RawItem.total item = Some t /\ (Spec.zero t \/ Spec.NaN t)) ->
   Item.total (fixItemTotal item)
   = RawItem.quantity item * RawItem.unitPrice item) /\
  (forall t, RawItem.total item = Some t -> ~ Spec.zero t -> ~ Spec.NaN t ->
   Item.total (fixItemTotal item) = t).
Proof.
  repeat split; intros.
  - unfold fixItemTotal; simpl.
    destruct H as [-> | (t & -> & Hz)]; [reflexivity |].
    now apply JSFacts.or_num_falsy, JSFacts.truthy_num_false.
  - unfold fixItemTotal; simpl. rewrite H.
    now apply JSFacts.or_num_truthy, JSFacts.truthy_num_true.
Qed.

(** C5.  After validation every item of the provider's output stands at the
    same position, and its total is [quantity * unitPrice] when the reported
    total was absent or zero, while a reported total that is not zero is
    kept unchanged. *)
Theorem validated_item_totals
    (data : RawTransactionData.t) (language : string) :
  Forall2 Spec.ItemRepaired
    (JS.or_obj (RawTransactionData.items data) [])
    (TransactionData.items (validateAndEnhanceTransactionData data language)).
Proof.
  rewrite validated_items.
  induction (JS.or_obj (RawTransactionData.items data) []) as [| item rest IH].
  - constructor.
  - simpl. constructor; [| exact IH].
    destruct (fixItemTotal_spec item) as (Hn & Hq & Hu & Hz & Hk).
    unfold Spec.ItemRepaired. rewrite Hq, Hu. auto.
Qed.

(** C4.  In the arithmetic of numbers (binary64), with [sum] the sum from
    left to right of the repaired item totals, [reported] the total of the
    provider ([data.total || 0]) and [0.01] the number nearest to a
    hundredth: the validated total is [sum] when [sum > 0] and
    [|reported - sum| > 0.01], and the reported total otherwise; so whenever
    [sum > 0] the validated total is within [0.01] of [sum]:
    [|total - sum| > 0.01] does not hold, and [|total - sum| <= 0.01] holds
    whenever the difference is a number. *)
Theorem validated_total_reconciled
    (data : RawTransactionData.t) (language : string) :
  let validated := validateAndEnhanceTransactionData data language in
  let sum := Spec.sum (map Item.total (TransactionData.items validated)) in
  let reported := JS.or_num (RawTransactionData.total data) 0 in
  (JS.gt sum 0 = true -> JS.gt (abs (reported - sum)) 0.01 = true ->
   TransactionData.total validated = sum) /\
  (JS.gt sum 0 = false \/ JS.gt (abs (reported - sum)) 0.01 = false ->
   TransactionData.total validated = reported /\
   (forall t, RawTransactionData.total data = Some t ->
      ~ Spec.zero t -> ~ Spec.NaN t -> TransactionData.total validated = t) /\
   (RawTransactionData.total data = None ->
    TransactionData.total validated = 0)) /\
  (JS.gt sum 0 = true ->
   JS.gt (abs (TransactionData.total validated - sum)) 0.01 = false /\
   (~ Spec.NaN (TransactionData.total validated - sum) ->
    (abs (TransactionData.total validated - sum) <=? 0.01) = true)).
Proof.
  intros validated sum reported.
  enough (H :
    (JS.gt sum 0 = true -> JS.gt (abs (reported - sum)) 0.01 = true ->
     TransactionData.total validated = sum) /\
    (JS.gt sum 0 = false \/ JS.gt (abs (reported - sum)) 0.01 = false ->
     TransactionData.total validated = reported /\
     (forall t, RawTransactionData.total data = Some t ->
        ~ Spec.zero t -> ~ Spec.NaN t -> TransactionData.total validated = t) /\
     (RawTransactionData.total data = None ->
      TransactionData.total validated = 0)) /\
    (JS.gt sum 0 = true ->
     JS.gt (abs (TransactionData.total validated - sum)) 0.01 = false)).
  { destruct H as (H1 & H2 & H3). split; [exact H1 | split; [exact H2 |]].
    intros Hpos. split; [exact (H3 Hpos) |].
    intros Hnumber. apply JSFacts.not_gt_le.
    - intros Hnan. now apply Hnumber, JSFacts.abs_NaN.
    - discriminate.
    - exact (H3 Hpos). }
  pose proof (validated_total data language) as Htotal.
  cbv zeta in Htotal. rewrite sumItemTotals_sum in Htotal.
  fold validated sum reported in Htotal.
  assert (Hkept : TransactionData.total validated = reported ->
    (forall t, RawTransactionData.total data = Some t ->
       ~ Spec.zero t -> ~ Spec.NaN t -> TransactionData.total validated = t) /\
    (RawTransactionData.total data = None -> TransactionData.total validated = 0)).
  { intros ->. unfold reported. split.
    - intros t -> Hz Hn. now apply JSFacts.or_num_truthy, JSFacts.truthy_num_true.
    - now intros ->. }
  destruct (JS.gt (abs (reported - sum)) 0.01) eqn:Hdiff;
    destruct (JS.gt sum 0) eqn:Hpos; cbn [andb] in Htotal.
  - split; [auto | split].
    + intros [H | H]; discriminate H.
    + intros _. rewrite Htotal. apply JSFacts.minus_itself_small.
  - split; [discriminate | split; [auto | discriminate]].
  - split; [discriminate | split; [auto |]].
    intros _. now rewrite Htotal.
  - split; [discriminate | split; [auto | discriminate]].
Qed.

(** A run of C5: the first item comes without a total, the second with a
    zero total, the third with a total that is kept. *)
Lemma validated_item_totals_witness :
  let data :=
    RawTransactionData.mk
      (Some [ RawItem.mk "tea" 2 5 None;
              RawItem.mk "rice" 3 4 (Some 0);
              RawItem.mk "fish" 1 9 (Some 8) ])
      None (Some 3) None None None None None None in
  let validated := validateAndEnhanceTransactionData data "en" in
  Forall2 Spec.ItemRepaired
    (JS.or_obj (RawTransactionData.items data) [])
    (TransactionData.items validated) /\
  map Item.total (TransactionData.items validated) = [2 * 5; 3 * 4; 8].
Proof.
  intros data validated. split.
  - exact (validated_item_totals data "en").
  - reflexivity.
Defined.

(** A run of C4: items summing to 10 against a reported total of 3. *)
Lemma validated_total_reconciled_witness :
  let data :=
    RawTransactionData.mk
      (Some [ RawItem.mk "tea" 2 5 None ])
      None (Some 3) None None None None None None in
  TransactionData.total (validateAndEnhanceTransactionData data "en")
  = 0 + 2 * 5.
Proof.
  intros data.
  destruct (validated_total_reconciled data "en") as (H & _ & _).
  apply H; reflexivity.
Defined.

End ValidatorFacts.

(** ** The effect monad *)

Module IOFacts.

(** A [try] whose handler returns cannot end in an exception. *)
Lemma try_catch_returns {A : Type} (body : IO.t A) (handler : string -> IO.t A) :
  (forall e, exists a, IO.result (handler e) = JS.Returned a) ->
  exists a, IO.result (IO.try_catch body handler) = JS.Returned a.
Proof.
  intros Hh. destruct body as [tr [a | e]]; simpl.
  - now exists a.
  - destruct (Hh e) as [a Ha]. destruct (handler e) as [tr' r].
    simpl in *. now exists a.
Qed.

(** A [try] with a constant handler gives the body's value or the
    handler's. *)
Lemma try_catch_const {A : Type} (body : IO.t A) (fallback : A) :
  IO.result (IO.try_catch body (fun _ => IO.ret fallback))
  = match IO.result body with
    | JS.Returned a => JS.Returned a
    | JS.Thrown _ => JS.Returned fallback
    end.
Proof. destruct body as [tr [a | e]]; reflexivity. Qed.

Lemma result_bind {A B : Type} (m : IO.t A) (k : A -> IO.t B) :
  IO.result (IO.bind m k)
  = match IO.result m with
    | JS.Returned a => IO.result (k a)
    | JS.Thrown e => JS.Thrown e
    end.
Proof.
  destruct m as [tr [a | e]]; simpl; [| reflexivity].
  now destruct (k a).
Qed.

End IOFacts.

(** ** The retry wrapper *)

Module RetryFacts.
Import AIService.

Section Loop.

Variable create : nat -> JS.Completion ChatCompletion.
Variable maxRetries : nat.

(** One turn of the loop whose request is answered. *)
Lemma retryLoop_answered (attempt remaining : nat) (r : ChatCompletion) :
  create attempt = JS.Returned r ->
  retryLoop create maxRetries attempt (S remaining)
  = ([IO.Request attempt], JS.Returned (Some r)).
Proof. intros H. simpl. rewrite H. reflexivity. Qed.

(** The last turn of the loop, when its request is rejected. *)
Lemma retryLoop_last_rejected (remaining : nat) (e : string) :
  create maxRetries = JS.Thrown e ->
  retryLoop create maxRetries maxRetries (S remaining)
  = ([IO.Request maxRetries], JS.Thrown e).
Proof. intros H. simpl. rewrite H, Nat.eqb_refl. reflexivity. Qed.

(** An earlier turn whose request is rejected: wait, then go on. *)
Lemma retryLoop_rejected_step (attempt remaining : nat) (e : string) :
  create attempt = JS.Thrown e ->
  attempt <> maxRetries ->
  retryLoop create maxRetries attempt (S remaining)
  = (IO.Request attempt :: IO.Sleep (2 ^ Z.of_nat attempt * 1000)
       :: IO.trace (retryLoop create maxRetries (S attempt) remaining),
     IO.result (retryLoop create maxRetries (S attempt) remaining)).
Proof.
  intros H Hne. simpl. rewrite H.
  apply Nat.eqb_neq in Hne. rewrite Hne. simpl.
  now destruct (retryLoop create maxRetries (S attempt) remaining).
Qed.

(** After [k] rejected attempts the next one is answered: the loop returns
    that answer, having waited after each rejection and sent nothing
    afterwards. *)
Lemma retryLoop_fulfilled (k : nat) :
  forall (attempt remaining : nat) (r : ChatCompletion),
    (attempt + remaining = S maxRetries)%nat ->
    (k < remaining)%nat ->
    (forall j, (j < k)%nat -> exists e, create (attempt + j)%nat = JS.Thrown e) ->
    create (attempt + k)%nat = JS.Returned r ->
    retryLoop create maxRetries attempt remaining
    = (Spec.backoffTrace attempt k ++ [IO.Request (attempt + k)%nat],
       JS.Returned (Some r)).
Proof.
  induction k as [| k IH]; intros attempt remaining r Hinv Hk Hrej Hok.
  - destruct remaining as [| remaining]; [lia |].
    rewrite Nat.add_0_r in *. now apply retryLoop_answered.
  - destruct remaining as [| remaining]; [lia |].
    destruct (Hrej 0%nat ltac:(lia)) as [e He].
    rewrite Nat.add_0_r in He.
    rewrite (retryLoop_rejected_step _ _ e He ltac:(lia)).
    rewrite (IH (S attempt) remaining r); try lia.
    + simpl. now rewrite Nat.add_succ_r.
    + intros j Hj. destruct (Hrej (S j) ltac:(lia)) as [e' He'].
      exists e'. now rewrite Nat.add_succ_r in He'.
    + now rewrite Nat.add_succ_r in Hok.
Qed.

(** Every attempt is rejected: the loop throws the error of the last one,
    having waited after each of the earlier ones. *)
Lemma retryLoop_exhausted (remaining : nat) :
  forall (attempt : nat) (e : string),
    (attempt + S remaining = S maxRetries)%nat ->
    (forall j, (j < remaining)%nat -> exists e', create (attempt + j)%nat = JS.Thrown e') ->
    create maxRetries = JS.Thrown e ->
    retryLoop create maxRetries attempt (S remaining)
    = (Spec.backoffTrace attempt remaining ++ [IO.Request maxRetries],
       JS.Thrown e).
Proof.
  induction remaining as [| remaining IH]; intros attempt e Hinv Hrej Hlast.
  - assert (attempt = maxRetries) as -> by lia.
    now apply retryLoop_last_rejected.
  - destruct (Hrej 0%nat ltac:(lia)) as [e0 He0].
    rewrite Nat.add_0_r in He0.
    rewrite (retryLoop_rejected_step _ _ e0 He0 ltac:(lia)).
    rewrite (IH (S attempt) e); try lia; [reflexivity | | assumption].
    intros j Hj. destruct (Hrej (S j) ltac:(lia)) as [e' He'].
    exists e'. now rewrite Nat.add_succ_r in He'.
Qed.

(** The loop sends at most one request per turn. *)
Lemma retryLoop_requests_bound (remaining : nat) :
  forall attempt,
    (length (IO.requests (IO.trace (retryLoop create maxRetries attempt remaining)))
     <= remaining)%nat.
Proof.
  induction remaining as [| remaining IH]; intros attempt; [simpl; lia |].
  destruct (create attempt) as [r | e] eqn:Hc.
  - rewrite (retryLoop_answered _ _ r Hc). simpl. lia.
  - destruct (Nat.eq_dec attempt maxRetries) as [-> | Hne].
    + rewrite (retryLoop_last_rejected _ e Hc). simpl. lia.
    + rewrite (retryLoop_rejected_step _ _ e Hc Hne). simpl.
      specialize (IH (S attempt)). lia.
Qed.

End Loop.

(** The outcome of the wrapper with three attempts, by the outcomes of the
    three requests. *)
Lemma callOpenAIWithRetry_result (client : OpenAI) :
  IO.result (callOpenAIWithRetry client defaultMaxRetries)
  = match chat_completions_create client 1 with
    | JS.Returned r => JS.Returned (Some r)
    | JS.Thrown _ =>
        match chat_completions_create client 2 with
        | JS.Returned r => JS.Returned (Some r)
        | JS.Thrown _ =>
            match chat_completions_create client 3 with
            | JS.Returned r => JS.Returned (Some r)
            | JS.Thrown e => JS.Thrown e
            end
        end
    end.
Proof.
  unfold callOpenAIWithRetry, defaultMaxRetries. simpl.
  destruct (chat_completions_create client 1); [reflexivity |].
  simpl. destruct (chat_completions_create client 2); [reflexivity |].
  simpl. destruct (chat_completions_create client 3); reflexivity.
Qed.

(** C7.  The wrapper makes at most three requests.  An answered request
    ends the call at once with that answer; a rejected first or second
    attempt is absorbed and followed by a wait of [2 ^ 1] or [2 ^ 2]
    seconds; only the failure of the third attempt reaches the caller. *)
Theorem callOpenAIWithRetry_three_attempts (client : OpenAI) :
  let create := chat_completions_create client in
  let run := callOpenAIWithRetry client defaultMaxRetries in
  (length (IO.requests (IO.trace run)) <= 3)%nat /\
  (forall r, create 1%nat = JS.Returned r ->
     run = ([IO.Request 1], JS.Returned (Some r))) /\
  (forall e1 r,
     create 1%nat = JS.Thrown e1 -> create 2%nat = JS.Returned r ->
     run = ([IO.Request 1; IO.Sleep (2 ^ 1 * 1000); IO.Request 2],
            JS.Returned (Some r))) /\
  (forall e1 e2 r,
     create 1%nat = JS.Thrown e1 -> create 2%nat = JS.Thrown e2 ->
     create 3%nat = JS.Returned r ->
     run = ([IO.Request 1; IO.Sleep (2 ^ 1 * 1000);
             IO.Request 2; IO.Sleep (2 ^ 2 * 1000); IO.Request 3],
            JS.Returned (Some r))) /\
  (forall e1 e2 e3,
     create 1%nat = JS.Thrown e1 -> create 2%nat = JS.Thrown e2 ->
     create 3%nat = JS.Thrown e3 ->
     run = ([IO.Request 1; IO.Sleep (2 ^ 1 * 1000);
             IO.Request 2; IO.Sleep (2 ^ 2 * 1000); IO.Request 3],
            JS.Thrown e3)).
Proof.
  intros create run. unfold run, callOpenAIWithRetry, defaultMaxRetries.
  split; [apply retryLoop_requests_bound |].
  repeat split.
  - intros r H1. now apply retryLoop_answered.
  - intros e1 r H1 H2.
    apply (retryLoop_fulfilled _ 3 1 1 3 r); try lia; [| exact H2].
    intros j Hj. assert (j = 0)%nat as -> by lia. now exists e1.
  - intros e1 e2 r H1 H2 H3.
    apply (retryLoop_fulfilled _ 3 2 1 3 r); try lia; [| exact H3].
    intros j Hj. destruct j as [| [| j]]; [now exists e1 | now exists e2 | lia].
  - intros e1 e2 e3 H1 H2 H3.
    apply (retryLoop_exhausted _ 3 2 1 e3); try lia; [| exact H3].
    intros j Hj. destruct j as [| [| j]]; [now exists e1 | now exists e2 | lia].
Qed.

(** A run of C7: three rejections; the caller sees the third. *)
Lemma callOpenAIWithRetry_three_attempts_witness :
  callOpenAIWithRetry Sample.failingClient defaultMaxRetries
  = ([IO.Request 1; IO.Sleep 2000; IO.Request 2; IO.Sleep 4000; IO.Request 3],
     JS.Thrown "rejected 3").
Proof.
  destruct (callOpenAIWithRetry_three_attempts Sample.failingClient)
    as (_ & _ & _ & _ & H).
  apply (H "rejected 1" "rejected 2" "rejected 3")%string; reflexivity.
Defined.

End RetryFacts.

(** ** Extraction: the fallback to the mock record *)

Module ExtractionFacts.
Import AIService.

(** The first answered attempt is what the wrapper returns. *)
Lemma callOpenAIWithRetry_first_answer
    (client : OpenAI) (k : nat) (r : ChatCompletion) :
  (1 <= k <= 3)%nat ->
  (forall j, 1 <= j < k -> Spec.rejected client j)%nat ->
  chat_completions_create client k = JS.Returned r ->
  IO.result (callOpenAIWithRetry client defaultMaxRetries)
  = JS.Returned (Some r).
Proof.
  intros Hk Hrej Hok. rewrite RetryFacts.callOpenAIWithRetry_result.
  destruct k as [| [| [| [| k]]]]; try lia.
  - now rewrite Hok.
  - destruct (Hrej 1%nat ltac:(lia)) as [e1 ->]. now rewrite Hok.
  - destruct (Hrej 1%nat ltac:(lia)) as [e1 ->].
    destruct (Hrej 2%nat ltac:(lia)) as [e2 ->]. now rewrite Hok.
Qed.

(** Three rejections make the wrapper throw. *)
Lemma callOpenAIWithRetry_all_rejected (client : OpenAI) :
  (forall n, 1 <= n <= 3 -> Spec.rejected client n)%nat ->
  exists e, IO.result (callOpenAIWithRetry client defaultMaxRetries)
            = JS.Thrown e.
Proof.
  intros Hrej. rewrite RetryFacts.callOpenAIWithRetry_result.
  destruct (Hrej 1%nat ltac:(lia)) as [e1 ->].
  destruct (Hrej 2%nat ltac:(lia)) as [e2 ->].
  destruct (Hrej 3%nat ltac:(lia)) as [e3 ->]. now exists e3.
Qed.

(** The prompt is built for every language that is no name of
    [Object.prototype]. *)
Lemma buildSeaAsianPrompt_returns (transcription language : string) :
  JS.inherited language = false ->
  exists prompt,
    buildSeaAsianPrompt transcription language = JS.Returned prompt.
Proof.
  intros H. unfold buildSeaAsianPrompt.
  rewrite !(JSFacts.get_join_returns _ _ _ H). eauto.
Qed.

(** What [processTransaction] returns, stage by stage. *)
Lemma processTransaction_result
    (host : Host) (transcription language : string) :
  IO.result (processTransaction host transcription language)
  = JS.Returned
      (if negb (JS.truthy_str (OPENAI_API_KEY host))
       then getMockTransactionData language
       else
         match buildSeaAsianPrompt transcription language with
         | JS.Thrown _ => getMockTransactionData language
         | JS.Returned _ =>
             match IO.result (callOpenAIWithRetry (openai host) defaultMaxRetries) with
             | JS.Returned (Some response) =>
                 match JS.truthy (content response) with
                 | None => getMockTransactionData language
                 | Some result =>
                     match JSON_parse host result with
                     | Some parsedData =>
                         match validateParsed parsedData language with
                         | JS.Returned validatedData => validatedData
                         | JS.Thrown _ => getMockTransactionData language
                         end
                     | None => getMockTransactionData language
                     end
                 end
             | JS.Returned None | JS.Thrown _ => getMockTransactionData language
             end
         end).
Proof.
  unfold processTransaction. rewrite IOFacts.try_catch_const.
  destruct (negb (JS.truthy_str (OPENAI_API_KEY host))); [reflexivity |].
  rewrite IOFacts.result_bind. cbn [IO.call IO.result snd].
  destruct (buildSeaAsianPrompt transcription language) as [prompt | e0];
    [| reflexivity].
  rewrite IOFacts.result_bind.
  destruct (IO.result (callOpenAIWithRetry (openai host) defaultMaxRetries))
    as [[response |] | e]; try reflexivity.
  destruct (JS.truthy (content response)) as [result |]; [| reflexivity].
  rewrite IOFacts.try_catch_const.
  destruct (JSON_parse host result) as [parsedData |]; [| reflexivity].
  rewrite IOFacts.result_bind. cbn [IO.call IO.result snd].
  now destruct (validateParsed parsedData language).
Qed.

(** C2.  [processTransaction] never throws.  When the general-purpose model
    fails (three rejected attempts, an answer without content, or content
    that is not valid JSON) it returns the mock record of the language; for
    'th' that record has the items (ผัดไทย, 3, 60, 180) and
    (ส้มตำ, 2, 35, 70), total 250 and currency THB.  This service has no
    regional stage in front of the general-purpose model. *)
Theorem processTransaction_falls_back_to_mock
    (host : Host) (transcription language : string) :
  In language supportedLanguages ->
  Spec.GeneralModelFails host ->
  (forall host' transcription',
     exists td,
       IO.result (processTransaction host' transcription' language)
       = JS.Returned td) /\
  IO.result (processTransaction host transcription language)
  = JS.Returned (getMockTransactionData language) /\
  (language = "th"%string ->
   IO.result (processTransaction host transcription language)
   = JS.Returned
       (TransactionData.mk
          [ Item.mk "ผัดไทย" 3 60 180; Item.mk "ส้มตำ" 2 35 70 ]
          None 250 "THB" (Some "immediate"%string) None
          (Some "street food"%string) "th"
          (Some (Metadata.mk 0.95
                   ["food_items"; "quantity"; "amount"]%string [])))).
Proof.
  intros Hlang Hfails.
  assert (Hmock : IO.result (processTransaction host transcription language)
                  = JS.Returned (getMockTransactionData language)).
  { rewrite processTransaction_result. f_equal.
    destruct (negb (JS.truthy_str (OPENAI_API_KEY host))); [reflexivity |].
    destruct (buildSeaAsianPrompt transcription language); [| reflexivity].
    destruct Hfails as [Hall | k response Hk Hrej Hok Hempty
                       | k response text Hk Hrej Hok Htext Hparse].
    - destruct (callOpenAIWithRetry_all_rejected _ Hall) as [e ->].
      reflexivity.
    - rewrite (callOpenAIWithRetry_first_answer _ k response Hk Hrej Hok).
      now destruct Hempty as [-> | ->].
    - rewrite (callOpenAIWithRetry_first_answer _ k response Hk Hrej Hok).
      destruct (JS.truthy (content response)) as [result |] eqn:E;
        [| reflexivity].
      apply JSFacts.truthy_is_Some in E. destruct E as [E _].
      rewrite Htext in E. injection E as <-. now rewrite Hparse. }
  split; [| split].
  - intros host' transcription'. rewrite processTransaction_result. eauto.
  - exact Hmock.
  - intros ->. exact Hmock.
Qed.

(** A run of C2: a credential is configured, every request is rejected,
    the language is Thai. *)
Lemma processTransaction_falls_back_to_mock_witness :
  IO.result (processTransaction Sample.failingHost "ลูกค้าซื้อผัดไทย" "th")
  = JS.Returned (getMockTransactionData "th") /\
  TransactionData.total (getMockTransactionData "th") = 250 /\
  TransactionData.currency (getMockTransactionData "th") = "THB"%string.
Proof.
  assert (Hlang : In "th"%string supportedLanguages)
    by (simpl; auto).
  assert (Hfails : Spec.GeneralModelFails Sample.failingHost).
  { apply Spec.AllAttemptsRejected. intros n _.
    exists (String.append "rejected " (JS.toString (Z.of_nat n))).
    reflexivity. }
  destruct (processTransaction_falls_back_to_mock
              Sample.failingHost "ลูกค้าซื้อผัดไทย" "th" Hlang Hfails)
    as (_ & H & _).
  split; [exact H | split; reflexivity].
Defined.

(** C9.  For 'vi' and 'tl' the mock fallback is the English record
    (currency USD, language 'en', the retail items), not a record in the
    currency of the language: the table has entries for 'id', 'th' and 'en'
    only, and every other supported language gets the 'en' entry. *)
Theorem getMockTransactionData_vi_tl_english :
  let english :=
    TransactionData.mk
      [ Item.mk "Shirts" 3 25 75; Item.mk "Pants" 2 37.5 75 ]
      None 150 "USD" (Some "later"%string) (Some "next week"%string)
      (Some "retail"%string) "en"
      (Some (Metadata.mk 0.90
               ["items"; "quantity"; "amount"; "payment_terms"]%string [])) in
  getMockTransactionData "vi" = english /\
  getMockTransactionData "tl" = english /\
  TransactionData.currency english <> getCurrencyForLanguage "vi" /\
  TransactionData.currency english <> getCurrencyForLanguage "tl" /\
  map fst mockData = ["id"; "th"; "en"]%string /\
  (forall language,
     In language supportedLanguages ->
     language <> "id"%string -> language <> "th"%string ->
     getMockTransactionData language = english).
Proof.
  intros english. repeat split; try reflexivity; try discriminate.
  intros language Hin Hid Hth. simpl in Hin.
  destruct Hin as [<- | [<- | [<- | [<- | [<- | []]]]]];
    try reflexivity; congruence.
Qed.

(** A run of C9 at 'vi'. *)
Lemma getMockTransactionData_vi_tl_english_witness :
  getMockTransactionData "vi" = getMockTransactionData "en" /\
  TransactionData.currency (getMockTransactionData "vi") = "USD"%string /\
  TransactionData.language (getMockTransactionData "vi") = "en"%string.
Proof.
  destruct getMockTransactionData_vi_tl_english as (_ & _ & _ & _ & _ & H).
  rewrite (H "vi"%string); [| simpl; auto | discriminate | discriminate].
  repeat split; reflexivity.
Defined.

End ExtractionFacts.

(** ** Transcription *)

Module TranscriptionFacts.

(** C3, as the claim has it, fails: with a credential configured and the
    provider unreachable, [transcribeAudio] of the backend service returns
    the sample transcript of the language and throws nothing. *)
Lemma transcribeAudio_failure_counterexample :
  JS.truthy_str (OPENAI_API_KEY Sample.failingHost) = true /\
  audio_transcriptions_create (openai Sample.failingHost) []
    (AIService.mapLanguageForWhisper "en")
  = JS.Thrown "unreachable" /\
  AIService.transcribeAudio Sample.failingHost [] "en"
  = ([], JS.Returned
           "Customer bought 3 shirts and 2 pants, total 150 dollars, payment due next week"%string) /\
  ~ (exists e,
       IO.result (AIService.transcribeAudio Sample.failingHost [] "en")
       = JS.Thrown e).
Proof.
  repeat split. intros [e He]. discriminate He.
Qed.

(** C3, amended.  With a credential configured, a provider that is
    unreachable or rejects the input makes [transcribeAudio] of the backend
    service return the fixed sample transcript of the language; no failure
    reaches the caller.  [transcribeAudio] of the SEA-LION service, which
    checks no credential, turns the same failure into a plain [Error] with a
    fixed message. *)
Theorem transcribeAudio_provider_failure
    (host : Host) (audioBuffer : list Byte.byte) (language : string) :
  JS.truthy_str (OPENAI_API_KEY host) = true ->
  (forall hint, exists e,
     audio_transcriptions_create (openai host) audioBuffer hint = JS.Thrown e) ->
  IO.result (AIService.transcribeAudio host audioBuffer language)
  = JS.Returned (AIService.getMockTranscription language) /\
  IO.result (SeaLionService.transcribeAudio host audioBuffer language)
  = JS.Thrown "Failed to transcribe audio with SEA-LION service" /\
  IO.result (SeaLionService.transcribeAudio_v1 host audioBuffer language)
  = JS.Thrown "Failed to transcribe audio".
Proof.
  intros Hkey Hfail. repeat split.
  - unfold AIService.transcribeAudio. rewrite IOFacts.try_catch_const.
    rewrite Hkey. simpl negb. cbv iota.
    rewrite IOFacts.result_bind.
    destruct (IO.result (IO.call (fs_writeFileSync host audioBuffer)));
      [| reflexivity].
    rewrite IOFacts.result_bind. unfold IO.call at 1. simpl IO.result at 1.
    destruct (Hfail (AIService.mapLanguageForWhisper language)) as [e ->].
    reflexivity.
  - unfold SeaLionService.transcribeAudio.
    destruct (fs_writeFileSync host audioBuffer) as [[] | e0]; [| reflexivity].
    destruct (Hfail (SeaLionService.whisperLanguage language)) as [e ->].
    reflexivity.
  - unfold SeaLionService.transcribeAudio_v1.
    destruct (Hfail (SeaLionService.whisperLanguage language)) as [e ->].
    reflexivity.
Qed.

(** A run of amended C3 on the host whose provider is unreachable. *)
Lemma transcribeAudio_provider_failure_witness :
  IO.result (AIService.transcribeAudio Sample.failingHost [] "th")
  = JS.Returned (AIService.getMockTranscription "th") /\
  IO.result (SeaLionService.transcribeAudio_v1 Sample.failingHost [] "th")
  = JS.Thrown "Failed to transcribe audio".
Proof.
  destruct (transcribeAudio_provider_failure Sample.failingHost [] "th")
    as (H1 & _ & H3).
  - reflexivity.
  - intros hint. now exists "unreachable"%string.
  - split; assumption.
Defined.

End TranscriptionFacts.

(** ** The cache of the SEA-LION service *)

Module CacheFacts.
Import SeaLionService.

Lemma CACHE_DURATION_minutes : CACHE_DURATION = 300000%Z.
Proof. reflexivity. Qed.

(** A lookup that finds a fresh entry. *)
Lemma getFromCache_fresh (now : Z) (key : string)
    (cache : gmap string CacheEntry) (entry : CacheEntry) :
  cache !! key = Some entry ->
  (now - timestamp entry < CACHE_DURATION)%Z ->
  getFromCache now key cache = (Some (data entry), cache).
Proof.
  intros Hin Hfresh. unfold getFromCache. rewrite Hin.
  apply Z.ltb_lt in Hfresh. now rewrite Hfresh.
Qed.

(** A lookup that finds an expired entry. *)
Lemma getFromCache_expired (now : Z) (key : string)
    (cache : gmap string CacheEntry) (entry : CacheEntry) :
  cache !! key = Some entry ->
  (now - timestamp entry >= CACHE_DURATION)%Z ->
  getFromCache now key cache = (None, delete key cache).
Proof.
  intros Hin Hold. unfold getFromCache. rewrite Hin.
  assert (E : (now - timestamp entry <? CACHE_DURATION)%Z = false)
    by (apply Z.ltb_ge; lia).
  now rewrite E.
Qed.

(** A lookup that finds nothing. *)
Lemma getFromCache_absent (now : Z) (key : string)
    (cache : gmap string CacheEntry) :
  cache !! key = None -> getFromCache now key cache = (None, cache).
Proof. intros Hin. unfold getFromCache. now rewrite Hin. Qed.

(** What [setCache] leaves under the key it wrote, sweep or no sweep. *)
Lemma setCache_lookup (now : Z) (key : string) (value : RawTransactionData.t)
    (cache : gmap string CacheEntry) :
  setCache now key value cache !! key
  = Some {| data := value; timestamp := now |}.
Proof.
  unfold setCache.
  destruct (100 <? Z.of_nat (size (<[key:={| data := value; timestamp := now |}]> cache)))%Z.
  - unfold cleanupCache. apply map_lookup_filter_Some. split.
    + apply lookup_insert_eq.
    + simpl. unfold CACHE_DURATION. lia.
  - apply lookup_insert_eq.
Qed.

(** A call that finds an expired entry under its key goes through both
    stages of the provider chain. *)
Lemma processVoiceTransaction_expired (host : Host) (now later : Z)
    (transcription : list Z) (language : string)
    (cache : gmap string CacheEntry) (entry : CacheEntry) :
  cache !! cacheKey transcription language = Some entry ->
  (now - timestamp entry >= CACHE_DURATION)%Z ->
  stages (processVoiceTransaction host now later transcription language cache)
  = [SEALion; GPT4].
Proof.
  intros Hin Hold. unfold processVoiceTransaction.
  rewrite (getFromCache_expired _ _ _ entry Hin Hold).
  simpl. now destruct (processWithGPT4 host transcription language).
Qed.

(** A call that finds a fresh entry returns it and asks no provider. *)
Lemma processVoiceTransaction_hit (host : Host) (now later : Z)
    (transcription : list Z) (language : string)
    (cache : gmap string CacheEntry) (entry : CacheEntry) :
  cache !! cacheKey transcription language = Some entry ->
  (now - timestamp entry < CACHE_DURATION)%Z ->
  processVoiceTransaction host now later transcription language cache
  = {| outcome := JS.Returned (data entry); cache_after := cache; stages := [] |}.
Proof.
  intros Hin Hfresh. unfold processVoiceTransaction.
  now rewrite (getFromCache_fresh _ _ _ entry Hin Hfresh).
Qed.

(** A call that asked the providers and got an answer has stored it under
    its key, stamped with the time of the store. *)
Lemma processVoiceTransaction_stores (host : Host) (now later : Z)
    (transcription : list Z) (language : string)
    (cache : gmap string CacheEntry) (r : RawTransactionData.t) :
  let run := processVoiceTransaction host now later transcription language cache in
  outcome run = JS.Returned r ->
  stages run <> [] ->
  cache_after run !! cacheKey transcription language
  = Some {| data := r; timestamp := later |}.
Proof.
  unfold processVoiceTransaction.
  destruct (getFromCache now (cacheKey transcription language) cache)
    as [[cached |] cache'] eqn:Hget; simpl.
  - intros _ Hst. now contradiction Hst.
  - destruct (processWithGPT4 host transcription language) as [result | e];
      simpl; intros Hout _; [| discriminate].
    injection Hout as ->. apply setCache_lookup.
Qed.

(** The same extraction repeated once the TTL has passed since its result
    was stored asks the provider chain again. *)
Lemma repeated_extraction_after_ttl (host host' : Host)
    (now later now' later' : Z) (transcription : list Z) (language : string)
    (cache : gmap string CacheEntry) (r : RawTransactionData.t) :
  let first := processVoiceTransaction host now later transcription language cache in
  outcome first = JS.Returned r ->
  stages first <> [] ->
  (now' - later >= CACHE_DURATION)%Z ->
  stages (processVoiceTransaction host' now' later' transcription language
            (cache_after first))
  = [SEALion; GPT4].
Proof.
  intros first Hout Hst Hold.
  apply (processVoiceTransaction_expired _ _ _ _ _ _
           {| data := r; timestamp := later |}); [| exact Hold].
  now apply processVoiceTransaction_stores.
Qed.

(** The same extraction repeated within the TTL is answered from the
    cache. *)
Lemma repeated_extraction_within_ttl (host host' : Host)
    (now later now' later' : Z) (transcription : list Z) (language : string)
    (cache : gmap string CacheEntry) (r : RawTransactionData.t) :
  let first := processVoiceTransaction host now later transcription language cache in
  outcome first = JS.Returned r ->
  stages first <> [] ->
  (now' - later < CACHE_DURATION)%Z ->
  let second := processVoiceTransaction host' now' later' transcription language
                  (cache_after first) in
  outcome second = JS.Returned r /\ stages second = [].
Proof.
  intros first Hout Hst Hfresh second. unfold second.
  rewrite (processVoiceTransaction_hit _ _ _ _ _ _
             {| data := r; timestamp := later |}); [now split | | exact Hfresh].
  now apply processVoiceTransaction_stores.
Qed.

(** The prompt of this service is built for every language that is no name
    of [Object.prototype]. *)
Lemma buildSeaAsianPrompt_plain (transcription : list Z) (language : string) :
  JS.inherited language = false ->
  exists prompt,
    buildSeaAsianPrompt transcription language = JS.Returned prompt.
Proof.
  intros H. unfold buildSeaAsianPrompt.
  rewrite (JSFacts.get_join_returns _ _ _ H). eauto.
Qed.

(** The second stage, by what the provider does with the request. *)
Lemma processWithGPT4_outcome (host : Host) (transcription : list Z)
    (language : string) :
  JS.inherited language = false ->
  processWithGPT4 host transcription language
  = match chat_completions_create (openai host) 1 with
    | JS.Thrown e => JS.Thrown e
    | JS.Returned response =>
        match JS.truthy (content response) with
        | None => JS.Thrown "No response from AI service"
        | Some result =>
            match JSON_parse host result with
            | Some parsed => JS.Returned (Decode.transactionData parsed)
            | None => JS.Thrown "Invalid AI response format"
            end
        end
    end.
Proof.
  intros H. unfold processWithGPT4.
  now destruct (buildSeaAsianPrompt_plain transcription language H) as [prompt ->].
Qed.

(** A call that finds no fresh entry under its key returns what the second
    stage returns, and stores it when it is an answer. *)
Lemma processVoiceTransaction_miss (host : Host) (now later : Z)
    (transcription : list Z) (language : string)
    (cache : gmap string CacheEntry) :
  fst (getFromCache now (cacheKey transcription language) cache) = None ->
  let run := processVoiceTransaction host now later transcription language cache in
  let cache' := snd (getFromCache now (cacheKey transcription language) cache) in
  stages run = [SEALion; GPT4] /\
  outcome run = processWithGPT4 host transcription language /\
  cache_after run
  = match processWithGPT4 host transcription language with
    | JS.Returned result => setCache later (cacheKey transcription language) result cache'
    | JS.Thrown _ => cache'
    end.
Proof.
  unfold processVoiceTransaction.
  destruct (getFromCache now (cacheKey transcription language) cache)
    as [cached cache']. cbn [fst snd]. intros ->. cbn.
  now destruct (processWithGPT4 host transcription language).
Qed.

(** With no answer from the general-purpose model the call of this service
    ends in an exception: nothing stands behind the second stage. *)
Lemma processVoiceTransaction_propagates (host : Host) (now later : Z)
    (transcription : list Z) (language : string)
    (cache : gmap string CacheEntry) (e : string) :
  JS.inherited language = false ->
  cache !! cacheKey transcription language = None ->
  chat_completions_create (openai host) 1 = JS.Thrown e ->
  outcome (processVoiceTransaction host now later transcription language cache)
  = JS.Thrown e.
Proof.
  intros Hlang Hin Hrej.
  destruct (processVoiceTransaction_miss host now later transcription language cache)
    as (_ & -> & _).
  - now rewrite (getFromCache_absent _ _ _ Hin).
  - now rewrite (processWithGPT4_outcome _ _ _ Hlang), Hrej.
Qed.

(** C8.  [getFromCache] returns stored data exactly when the key has an
    entry and [now - timestamp] is below the TTL of five minutes.  An entry
    with [now - timestamp] at or above the TTL is deleted and the call
    reports a miss, so that an extraction that finds such an entry under its
    key goes through the provider chain again: the regional stage, then a
    request to the general-purpose model, whose answer (not the stale
    entry) is what the call returns and what the cache holds afterwards,
    stamped with the time of the store; if that request is rejected the call
    fails with the rejection and the key is left without an entry. *)
Theorem getFromCache_ttl (now : Z) (key : string)
    (cache : gmap string CacheEntry) :
  (forall d,
     fst (getFromCache now key cache) = Some d <->
     exists entry,
       cache !! key = Some entry /\ data entry = d /\
       (now - timestamp entry < 5 * 60 * 1000)%Z) /\
  (forall entry,
     cache !! key = Some entry ->
     (now - timestamp entry >= 5 * 60 * 1000)%Z ->
     getFromCache now key cache = (None, delete key cache)) /\
  (forall entry host later transcription language,
     key = cacheKey transcription language ->
     cache !! key = Some entry ->
     (now - timestamp entry >= 5 * 60 * 1000)%Z ->
     JS.inherited language = false ->
     let run := processVoiceTransaction host now later transcription language cache in
     stages run = [SEALion; GPT4] /\
     (forall response text parsed,
        chat_completions_create (openai host) 1 = JS.Returned response ->
        content response = Some text -> text <> ""%string ->
        JSON_parse host text = Some parsed ->
        Decode.conforms parsed = true ->
        outcome run = JS.Returned (Decode.transactionData parsed) /\
        cache_after run !! key
        = Some {| data := Decode.transactionData parsed; timestamp := later |}) /\
     (forall e,
        chat_completions_create (openai host) 1 = JS.Thrown e ->
        outcome run = JS.Thrown e /\ cache_after run !! key = None)).
Proof.
  change (5 * 60 * 1000)%Z with CACHE_DURATION.
  split; [| split].
  - intros d. split.
    + unfold getFromCache.
      destruct (cache !! key) as [entry |] eqn:Hin; [| discriminate].
      destruct (now - timestamp entry <? CACHE_DURATION)%Z eqn:E;
        [| discriminate].
      simpl. intros [= <-]. exists entry. apply Z.ltb_lt in E. auto.
    + intros (entry & Hin & <- & Hfresh).
      now rewrite (getFromCache_fresh _ _ _ entry Hin Hfresh).
  - intros entry. apply getFromCache_expired.
  - intros entry host later transcription language -> Hin Hold Hlang run.
    pose proof (processVoiceTransaction_miss host now later transcription
                  language cache) as Hmiss.
    rewrite (getFromCache_expired _ _ _ entry Hin Hold) in Hmiss.
    destruct (Hmiss eq_refl) as (Hst & Hout & Hcache). clear Hmiss.
    fold run in Hst, Hout, Hcache. cbn [snd] in Hcache.
    rewrite (processWithGPT4_outcome _ _ _ Hlang) in Hout, Hcache.
    split; [exact Hst | split].
    + intros response text parsed Hok Htext Hne Hparse _.
      rewrite Hok, Htext, (JSFacts.truthy_Some text Hne), Hparse in Hout, Hcache.
      split; [exact Hout |]. rewrite Hcache. apply setCache_lookup.
    + intros e Hrej. rewrite Hrej in Hout, Hcache.
      split; [exact Hout |]. rewrite Hcache. apply lookup_delete_eq.
Qed.

(** A run of C8: an entry stored at time 1000 is found five minutes later by
    an extraction of "Aa" in English, on a host whose provider answers with
    a total of 250: the call returns that answer, not the entry, and stores
    it. *)
Lemma getFromCache_ttl_witness :
  let stale :=
    {| data := RawTransactionData.mk None None (Some 99) None None None None None None;
       timestamp := 1000 |} in
  let key := cacheKey [65; 97]%Z "en" in
  let run :=
    processVoiceTransaction Sample2.gpt4Host 301000 301500 [65; 97]%Z "en"
      {[ key := stale ]} in
  outcome run
  = JS.Returned
      (RawTransactionData.mk None None (Some 250) None None None None None None) /\
  cache_after run !! key
  = Some {| data :=
              RawTransactionData.mk None None (Some 250) None None None None None None;
            timestamp := 301500 |}.
Proof.
  intros stale key run.
  destruct (getFromCache_ttl 301000 key {[ key := stale ]}) as (_ & _ & H).
  destruct (H stale Sample2.gpt4Host 301500%Z [65; 97]%Z "en"%string)
    as (_ & Hanswer & _).
  - reflexivity.
  - apply lookup_singleton_eq.
  - simpl. lia.
  - reflexivity.
  - apply (Hanswer {| content := Some "{json}"%string |} "{json}"%string
             (JSON.Object [ ("total"%string, JSON.Number 250) ]));
      try reflexivity; discriminate.
Defined.

End CacheFacts.

(** ** The calendar *)

Module CalendarFacts.
Import Calendar.

Local Open Scope Z_scope.

Lemma daysInMonth_bounds (y m : Z) : 28 <= daysInMonth y m <= 31.
Proof.
  unfold daysInMonth.
  destruct m as [| p | p]; try lia.
  do 4 (try (destruct p as [p | p |]; try lia)).
  all: destruct (isLeapYear y); lia.
Qed.

Lemma nextMonth_range (y m : Z) :
  0 <= m <= 11 -> 0 <= snd (nextMonth y m) <= 11.
Proof.
  intros Hm. unfold nextMonth. destruct (m =? 11) eqn:E; simpl; [lia |].
  apply Z.eqb_neq in E. lia.
Qed.

(** The month carry of [m + 1] is the following month. *)
Lemma month_carry (y m : Z) :
  0 <= m <= 11 ->
  (y + (m + 1) / 12, (m + 1) mod 12) = nextMonth y m.
Proof.
  intros Hm. unfold nextMonth. destruct (m =? 11) eqn:E.
  - apply Z.eqb_eq in E. subst m. reflexivity.
  - apply Z.eqb_neq in E.
    rewrite Z.div_small, Z.mod_small by lia. f_equal. lia.
Qed.

(** The two ways a year is a leap year, and the two ways it is not. *)
Lemma isLeapYear_cases (y : Z) :
  (isLeapYear y = true /\ (y mod 4 = 0 /\ y mod 100 <> 0 \/ y mod 400 = 0)) \/
  (isLeapYear y = false /\ (y mod 4 <> 0 \/ y mod 100 = 0) /\ y mod 400 <> 0).
Proof.
  unfold isLeapYear.
  destruct (y mod 4 =? 0) eqn:E4; destruct (y mod 100 =? 0) eqn:E100;
    destruct (y mod 400 =? 0) eqn:E400; cbn;
    rewrite ?Z.eqb_eq, ?Z.eqb_neq in *; intuition lia.
Qed.

(** A year has 365 days, and one more when it is a leap year. *)
Lemma DayFromYear_succ (y : Z) :
  DayFromYear (y + 1) = DayFromYear y + 365 + (if isLeapYear y then 1 else 0).
Proof.
  unfold DayFromYear.
  destruct (isLeapYear_cases y) as [[-> H] | [-> H]];
    Z.to_euclidean_division_equations; lia.
Qed.

Lemma MakeDay_in_year (y m date : Z) :
  0 <= m <= 11 ->
  MakeDay y m date = DayFromYear y + daysBeforeMonth y m + date - 1.
Proof.
  intros Hm. unfold MakeDay. rewrite Z.div_small, Z.mod_small by lia.
  now rewrite Z.add_0_r.
Qed.

Lemma daysBeforeMonth_succ (y m : Z) :
  0 <= m <= 10 ->
  daysBeforeMonth y (m + 1) = daysBeforeMonth y m + daysInMonth y m.
Proof.
  intros Hm. unfold daysBeforeMonth, daysInMonth.
  generalize (isLeapYear y). intros leap.
  assert (H : m = 0 \/ m = 1 \/ m = 2 \/ m = 3 \/ m = 4 \/ m = 5 \/ m = 6 \/
              m = 7 \/ m = 8 \/ m = 9 \/ m = 10) by lia.
  destruct H as [-> | [-> | [-> | [-> | [-> | [-> | [-> | [-> | [-> | [-> | ->]]]]]]]]]];
    destruct leap; reflexivity.
Qed.

Lemma daysBeforeMonth_december (y : Z) :
  daysBeforeMonth y 11 + daysInMonth y 11
  = 365 + (if isLeapYear y then 1 else 0).
Proof. unfold daysBeforeMonth, daysInMonth. destruct (isLeapYear y); lia. Qed.

(** The day number of [MakeDay] moves with its date. *)
Lemma MakeDay_date (y m date : Z) : MakeDay y m date = MakeDay y m 1 + date - 1.
Proof. unfold MakeDay. lia. Qed.

(** The first day of the following month comes a month's length after the
    first day of a month. *)
Lemma MakeDay_nextMonth (y m : Z) :
  0 <= m <= 11 ->
  MakeDay (fst (nextMonth y m)) (snd (nextMonth y m)) 1
  = MakeDay y m 1 + daysInMonth y m.
Proof.
  intros Hm. unfold nextMonth. destruct (m =? 11) eqn:E; cbn [fst snd].
  - apply Z.eqb_eq in E. subst m.
    rewrite !MakeDay_in_year by lia. rewrite DayFromYear_succ.
    pose proof (daysBeforeMonth_december y).
    change (daysBeforeMonth (y + 1) 0) with 0. lia.
  - apply Z.eqb_neq in E. rewrite !MakeDay_in_year by lia.
    rewrite daysBeforeMonth_succ by lia. lia.
Qed.

(** [MakeDay] with the month after [m]: a month's length further on. *)
Lemma MakeDay_month_succ (y m date : Z) :
  0 <= m <= 11 ->
  MakeDay y (m + 1) date = MakeDay y m date + daysInMonth y m.
Proof.
  intros Hm.
  pose proof (MakeDay_nextMonth y m Hm) as Hn.
  rewrite <- (month_carry y m Hm) in Hn. cbn [fst snd] in Hn.
  assert (Hc : MakeDay y (m + 1) 1
               = MakeDay (y + (m + 1) / 12) ((m + 1) mod 12) 1).
  { unfold MakeDay.
    rewrite (Z.div_small ((m + 1) mod 12)), Z.mod_mod
      by (try apply Z.mod_pos_bound; lia).
    now rewrite Z.add_0_r. }
  rewrite (MakeDay_date y (m + 1)), (MakeDay_date y m), Hc, Hn. lia.
Qed.

Lemma tomorrow_valid (d : Date) : valid d -> valid (tomorrow d).
Proof.
  intros [Hm Hd]. unfold tomorrow, valid.
  destruct (day d <? daysInMonth (year d) (month d)) eqn:E.
  - apply Z.ltb_lt in E. cbn. lia.
  - pose proof (nextMonth_range (year d) (month d) Hm).
    destruct (nextMonth (year d) (month d)) as [y m].
    cbn in *. pose proof (daysInMonth_bounds y m). lia.
Qed.

(** The day after a date has the next day number. *)
Lemma dayNumber_tomorrow (d : Date) :
  valid d -> Spec.dayNumber (tomorrow d) = Spec.dayNumber d + 1.
Proof.
  intros [Hm Hd]. unfold tomorrow, Spec.dayNumber.
  destruct (day d <? daysInMonth (year d) (month d)) eqn:E.
  - cbn [year month day]. unfold MakeDay. lia.
  - apply Z.ltb_ge in E.
    pose proof (MakeDay_nextMonth (year d) (month d) Hm) as Hn.
    destruct (nextMonth (year d) (month d)) as [y m].
    cbn [fst snd year month day] in *.
    rewrite Hn, (MakeDay_date (year d) (month d) (day d)). lia.
Qed.

Lemma prevMonth_nextMonth (y m : Z) :
  0 <= m <= 11 ->
  nextMonth (fst (prevMonth y m)) (snd (prevMonth y m)) = (y, m) /\
  0 <= snd (prevMonth y m) <= 11.
Proof.
  intros Hm. unfold prevMonth, nextMonth.
  destruct (m =? 0) eqn:E; cbn [fst snd].
  - apply Z.eqb_eq in E. subst. cbn. split; [f_equal; lia | lia].
  - apply Z.eqb_neq in E.
    assert (E' : (m - 1 =? 11) = false) by (apply Z.eqb_neq; lia).
    rewrite E'. split; [f_equal; lia | lia].
Qed.

Lemma yesterday_valid (d : Date) : valid d -> valid (yesterday d).
Proof.
  intros [Hm Hd]. unfold yesterday, valid.
  destruct (1 <? day d) eqn:E.
  - apply Z.ltb_lt in E. cbn. lia.
  - destruct (prevMonth_nextMonth (year d) (month d) Hm) as [_ Hr].
    destruct (prevMonth (year d) (month d)) as [y m]. cbn in *.
    pose proof (daysInMonth_bounds y m). lia.
Qed.

(** The day after the day before. *)
Lemma tomorrow_yesterday (d : Date) : valid d -> tomorrow (yesterday d) = d.
Proof.
  intros [Hm Hd]. unfold yesterday.
  destruct (1 <? day d) eqn:E.
  - apply Z.ltb_lt in E. unfold tomorrow. cbn [year month day].
    assert (E' : (day d - 1 <? daysInMonth (year d) (month d)) = true)
      by (apply Z.ltb_lt; lia).
    rewrite E'. destruct d; cbn; f_equal; lia.
  - apply Z.ltb_ge in E.
    destruct (prevMonth_nextMonth (year d) (month d) Hm) as [Hn _].
    destruct (prevMonth (year d) (month d)) as [y m]. cbn [fst snd] in Hn.
    unfold tomorrow. cbn [year month day]. rewrite Z.ltb_irrefl, Hn.
    destruct d; cbn in *; f_equal; lia.
Qed.

Lemma dayNumber_yesterday (d : Date) :
  valid d -> Spec.dayNumber (yesterday d) = Spec.dayNumber d - 1.
Proof.
  intros Hv.
  pose proof (dayNumber_tomorrow (yesterday d) (yesterday_valid d Hv)) as H.
  rewrite (tomorrow_yesterday d Hv) in H. lia.
Qed.

Lemma addDays_valid (n : nat) (d : Date) : valid d -> valid (addDays n d).
Proof.
  intros Hv. unfold addDays.
  induction n; cbn; [exact Hv | now apply tomorrow_valid].
Qed.

Lemma iter_yesterday_valid (n : nat) (d : Date) :
  valid d -> valid (Nat.iter n yesterday d).
Proof. intros Hv. induction n; cbn; [exact Hv | now apply yesterday_valid]. Qed.

Lemma epoch_valid : valid epoch.
Proof. unfold valid; cbn; lia. Qed.

(** Every day number has a date of the calendar. *)
Lemma civil_valid (n : Z) : valid (civil n).
Proof.
  unfold civil. destruct (0 <=? n);
    [apply (addDays_valid _ epoch) | apply iter_yesterday_valid];
    apply epoch_valid.
Qed.

Lemma dayNumber_addDays (n : nat) (d : Date) :
  valid d -> Spec.dayNumber (addDays n d) = Spec.dayNumber d + Z.of_nat n.
Proof.
  intros Hv. unfold addDays. induction n as [| n IH]; [cbn; lia |].
  rewrite Nat.iter_succ, dayNumber_tomorrow by now apply (addDays_valid n).
  lia.
Qed.

Lemma dayNumber_iter_yesterday (n : nat) (d : Date) :
  valid d ->
  Spec.dayNumber (Nat.iter n yesterday d) = Spec.dayNumber d - Z.of_nat n.
Proof.
  intros Hv. induction n as [| n IH]; [cbn; lia |].
  rewrite Nat.iter_succ, dayNumber_yesterday by now apply iter_yesterday_valid.
  lia.
Qed.

(** The date of a day number has that day number: its year, month and day
    are those [MakeDay] maps back to it. *)
Lemma dayNumber_civil (n : Z) : Spec.dayNumber (civil n) = n.
Proof.
  unfold civil. destruct (0 <=? n) eqn:E.
  - apply Z.leb_le in E. fold (addDays (Z.to_nat n) epoch).
    rewrite (dayNumber_addDays _ epoch) by apply epoch_valid.
    change (Spec.dayNumber epoch) with 0. lia.
  - apply Z.leb_gt in E. rewrite dayNumber_iter_yesterday by apply epoch_valid.
    change (Spec.dayNumber epoch) with 0. lia.
Qed.

(** The date of the next day number is the following day. *)
Lemma civil_succ (n : Z) : civil (n + 1) = tomorrow (civil n).
Proof.
  unfold civil. destruct (0 <=? n) eqn:E.
  - apply Z.leb_le in E.
    assert (E' : (0 <=? n + 1) = true) by (apply Z.leb_le; lia). rewrite E'.
    replace (Z.to_nat (n + 1)) with (S (Z.to_nat n)) by lia. reflexivity.
  - apply Z.leb_gt in E.
    destruct (0 <=? n + 1) eqn:E'.
    + apply Z.leb_le in E'. assert (n = -1) as -> by lia. reflexivity.
    + apply Z.leb_gt in E'.
      replace (Z.to_nat (- n)) with (S (Z.to_nat (- (n + 1)))) by lia.
      rewrite Nat.iter_succ, tomorrow_yesterday; [reflexivity |].
      apply iter_yesterday_valid, epoch_valid.
Qed.

(** The date [k] day numbers on is the date [k] days later. *)
Lemma civil_add (n : Z) (k : nat) : civil (n + Z.of_nat k) = addDays k (civil n).
Proof.
  induction k as [| k IH]; [now rewrite Z.add_0_r |].
  replace (n + Z.of_nat (S k)) with (n + Z.of_nat k + 1) by lia.
  rewrite civil_succ, IH. reflexivity.
Qed.

(** Whole days added to a time value. *)
Lemma Day_add (t k : Z) : Day (t + k * msPerDay) = Day t + k.
Proof. unfold Day, msPerDay. now rewrite Z.div_add by lia. Qed.

Lemma MakeDate_Day (t k : Z) :
  MakeDate (Day t + k) (TimeWithinDay t) = t + k * msPerDay.
Proof.
  unfold MakeDate, Day, TimeWithinDay, msPerDay.
  pose proof (Z.div_mod t 86400000 ltac:(lia)). lia.
Qed.

Section LocalTime.

Variable LocalTZA : Z -> bool -> Z.

(** [date.setDate(date.getDate() + k)]: [k] days later on the local clock,
    at the same time of day. *)
Lemma setDate_getDate (date k : Z) :
  setDate LocalTZA date (getDate LocalTZA date + k)
  = UTC LocalTZA (LocalTime LocalTZA date + k * msPerDay).
Proof.
  unfold setDate, getDate. cbv zeta.
  set (t := LocalTime LocalTZA date). f_equal.
  assert (H : MakeDay (year (civil (Day t))) (month (civil (Day t)))
                (day (civil (Day t)) + k) = Day t + k).
  { pose proof (dayNumber_civil (Day t)) as Hn. unfold Spec.dayNumber in Hn.
    rewrite MakeDay_date in Hn. rewrite MakeDay_date. lia. }
  rewrite H. apply MakeDate_Day.
Qed.

(** [date.setMonth(date.getMonth() + 1)]: as many days later on the local
    clock as the local month has, at the same time of day. *)
Lemma setMonth_getMonth (date : Z) :
  let local := civil (Day (LocalTime LocalTZA date)) in
  setMonth LocalTZA date (getMonth LocalTZA date + 1)
  = UTC LocalTZA
      (LocalTime LocalTZA date
       + daysInMonth (year local) (month local) * msPerDay).
Proof.
  unfold setMonth, getMonth. cbv zeta.
  set (t := LocalTime LocalTZA date). f_equal.
  pose proof (civil_valid (Day t)) as [Hm _].
  rewrite MakeDay_month_succ by exact Hm.
  fold (Spec.dayNumber (civil (Day t))). rewrite dayNumber_civil.
  apply MakeDate_Day.
Qed.

End LocalTime.

(** A day within the month is reached one day at a time. *)
Lemma addDays_within (k : nat) :
  forall y m d,
    1 <= d -> d + Z.of_nat k <= daysInMonth y m ->
    addDays k (mk y m d) = mk y m (d + Z.of_nat k).
Proof.
  induction k as [| k IH]; intros y m d Hd Hk.
  - cbn. f_equal. lia.
  - unfold addDays in *. rewrite Nat.iter_succ_r.
    unfold tomorrow at 2. cbn [year month day].
    assert (E : (d <? daysInMonth y m) = true) by (apply Z.ltb_lt; lia).
    rewrite E, IH by lia. f_equal. lia.
Qed.

Lemma addDays_succ (k : nat) (d : Date) :
  addDays (S k) d = tomorrow (addDays k d).
Proof. reflexivity. Qed.

Lemma addDays_add (j k : nat) (d : Date) :
  addDays (j + k) d = addDays j (addDays k d).
Proof. unfold addDays. apply Nat.iter_add. Qed.

(** From a date to the first day of the following month. *)
Lemma addDays_to_nextMonth (d : Date) :
  valid d ->
  addDays (Z.to_nat (daysInMonth (year d) (month d) - day d + 1)) d
  = mk (fst (nextMonth (year d) (month d))) (snd (nextMonth (year d) (month d))) 1.
Proof.
  intros [Hm Hd].
  replace (Z.to_nat (daysInMonth (year d) (month d) - day d + 1))
    with (S (Z.to_nat (daysInMonth (year d) (month d) - day d))) by lia.
  rewrite addDays_succ.
  destruct d as [y m dd]. cbn [year month day] in *.
  rewrite addDays_within by lia.
  unfold tomorrow. cbn [year month day].
  assert (E : (dd + Z.of_nat (Z.to_nat (daysInMonth y m - dd)) <? daysInMonth y m)
              = false) by (apply Z.ltb_ge; lia).
  rewrite E. now destruct (nextMonth y m).
Qed.

(** A month's length after a date whose day the following month has: the
    same day of the following month. *)
Lemma addDays_month (d : Date) :
  valid d ->
  let next := nextMonth (year d) (month d) in
  day d <= daysInMonth (fst next) (snd next) ->
  addDays (Z.to_nat (daysInMonth (year d) (month d))) d
  = mk (fst next) (snd next) (day d).
Proof.
  intros Hv next Hfit. pose proof Hv as [Hm Hd].
  replace (Z.to_nat (daysInMonth (year d) (month d)))
    with (Z.to_nat (day d - 1)
          + Z.to_nat (daysInMonth (year d) (month d) - day d + 1))%nat by lia.
  rewrite addDays_add, (addDays_to_nextMonth d Hv). fold next.
  rewrite addDays_within by lia. f_equal. lia.
Qed.

End CalendarFacts.


(** ** Substrings *)

Module StringFacts.

Lemma append_cons (c : ascii) (s t : string) :
  String.append (String c s) t = String c (String.append s t).
Proof. reflexivity. Qed.

Lemma prefix_append (needle : string) :
  forall hay,
    String.prefix needle hay = true <->
    exists after, hay = String.append needle after.
Proof.
  induction needle as [| a needle IH]; intros hay.
  - split; [intros _; now exists hay | now destruct hay].
  - destruct hay as [| b hay]; simpl.
    + split; [discriminate | intros [after H]; discriminate].
    + destruct (Ascii.ascii_dec a b) as [-> | Hne].
      * rewrite IH. split; intros [after H]; exists after;
          rewrite append_cons in *; congruence.
      * split; [discriminate |].
        intros [after H]. rewrite append_cons in H. congruence.
Qed.

(** [includes] decides the occurrence of a substring. *)
Lemma includes_contains (needle : string) :
  forall hay, JS.includes hay needle = true <-> Spec.contains hay needle.
Proof.
  unfold Spec.contains.
  induction hay as [| c hay IH].
  - cbn [JS.includes]. rewrite orb_false_r, prefix_append. split.
    + intros [after H]. now exists EmptyString, after.
    + intros ([| b before] & after & H); [now exists after | discriminate].
  - cbn [JS.includes]. rewrite orb_true_iff, prefix_append, IH. split.
    + intros [[after H] | (before & after & H)].
      * now exists EmptyString, after.
      * exists (String c before), after. rewrite append_cons. now rewrite H.
    + intros ([| b before] & after & H).
      * left. now exists after.
      * right. exists before, after. rewrite append_cons in H. congruence.
Qed.

Lemma includes_not_contains (needle hay : string) :
  JS.includes hay needle = false <-> ~ Spec.contains hay needle.
Proof.
  rewrite <- includes_contains. now destruct (JS.includes hay needle).
Qed.

End StringFacts.

(** ** Invoice synthesis *)

Module InvoiceFacts.
Import InvoiceService.

(** A value found in a table is one of its entries. *)
Lemma get_In {V : Type} (key : string) (table : list (string * V)) (v : V) :
  JS.get key table = Some v -> In (key, v) table.
Proof.
  induction table as [| [k w] table IH]; simpl; [discriminate |].
  destruct (String.eqb key k) eqn:E.
  - apply String.eqb_eq in E. intros [= <-]. left. congruence.
  - intros H. right. now apply IH.
Qed.

(** Every identity of the table is complete, and so is the generic one. *)
Lemma templates_complete :
  Forall (fun row => Forall (fun cell => Spec.complete (snd cell)) (snd row))
    templates.
Proof.
  unfold templates, Spec.complete.
  repeat (constructor; simpl); discriminate.
Qed.

Lemma genericBusiness_complete : Spec.complete genericBusiness.
Proof. unfold Spec.complete. repeat split; discriminate. Qed.

(** The outcome of the two lookups of [getBusinessTemplate]. *)
Lemma getBusinessTemplate_lookup (businessType language : string) :
  getBusinessTemplate businessType language
  = match JS.get businessType templates ≫= JS.get language with
    | Some info => info
    | None => genericBusiness
    end.
Proof.
  unfold getBusinessTemplate.
  now destruct (JS.get businessType templates).
Qed.

(** C1, as the claim has it, fails: for a street food business and the
    language 'id' the table has no ('street food', 'id') but it has
    ('street food', 'en'); the three-level resolution of the claim would
    give the English street food identity, the code gives the generic
    one. *)
Lemma getBusinessTemplate_en_fallback_counterexample :
  In "id"%string supportedLanguages /\
  JS.get "street food"%string templates ≫= JS.get "id"%string = None /\
  Spec.threeLevelTemplate "street food" "id"
  = BusinessInfo.mk "Street Food Corner" "123 Main Street, Bangkok"
      "+66 2 123 4567" "streetfood@example.com" /\
  getBusinessTemplate "street food" "id"
  = BusinessInfo.mk "VoiceFlow Business" "123 Business Street"
      "+1 234 567 8900" "contact@voiceflow.ai" /\
  getBusinessTemplate "street food" "id"
  <> Spec.threeLevelTemplate "street food" "id".
Proof.
  repeat split; try reflexivity; try discriminate.
  simpl. auto.
Qed.

(** C1, amended.  For every business type and every supported language the
    resolution looks up (businessType, language) and, when that is absent,
    returns the fixed generic identity; there is no step through
    (businessType, 'en').  The identity it returns is always complete:
    name, address, phone and email are all there. *)
Theorem getBusinessTemplate_two_levels (businessType language : string) :
  In language supportedLanguages ->
  (forall info,
     JS.get businessType templates ≫= JS.get language = Some info ->
     getBusinessTemplate businessType language = info) /\
  (JS.get businessType templates ≫= JS.get language = None ->
   getBusinessTemplate businessType language = genericBusiness) /\
  Spec.complete (getBusinessTemplate businessType language).
Proof.
  intros _. rewrite getBusinessTemplate_lookup.
  split; [| split].
  - now intros info ->.
  - now intros ->.
  - destruct (JS.get businessType templates) as [row |] eqn:Hrow; simpl;
      [| apply genericBusiness_complete].
    destruct (JS.get language row) as [info |] eqn:Hcell;
      [| apply genericBusiness_complete].
    apply get_In in Hrow. apply get_In in Hcell.
    pose proof templates_complete as Hall.
    rewrite List.Forall_forall in Hall. specialize (Hall _ Hrow). simpl in Hall.
    rewrite List.Forall_forall in Hall. exact (Hall _ Hcell).
Qed.

(** A run of amended C1 at the input of the counterexample. *)
Lemma getBusinessTemplate_two_levels_witness :
  getBusinessTemplate "street food" "id" = genericBusiness /\
  Spec.complete (getBusinessTemplate "street food" "id").
Proof.
  destruct (getBusinessTemplate_two_levels "street food" "id")
    as (_ & H & Hc).
  - simpl. auto.
  - split; [apply H; reflexivity | exact Hc].
Defined.

(** What the invoice takes from the transaction, field by field, and the
    transaction as synthesis leaves it. *)
Lemma generateInvoice_run (host : InvoiceHost) (businessType : string)
    (td : TransactionData.t) :
  generateInvoice host businessType td
  = (InvoiceData.mk
       (generateInvoiceNumber host)
       (Calendar.toISODate (Date_new host))
       (if JS.strict_eq (TransactionData.paymentTerms td) "later"
        then match JS.truthy (TransactionData.dueDate td) with
             | Some hint => Some (parseDueDate host hint)
             | None => None
             end
        else None)
       (getBusinessTemplate businessType (TransactionData.language td))
       (TransactionData.customer td)
       (TransactionData.items td)
       (TransactionData.total td)
       (TransactionData.total td)
       (TransactionData.currency td)
       (JS.or_str (TransactionData.paymentTerms td) "immediate")
       (fst (generatePaymentQR host td))
       (selectTemplate businessType)
       (TransactionData.language td),
     td).
Proof.
  unfold generateInvoice, generatePaymentQR, bind, read, ret.
  match goal with
  | |- context [QRCode_toDataURL host ?payload] =>
      destruct (QRCode_toDataURL host payload)
  end; reflexivity.
Qed.

(** C10.  The invoice carries the items, total, currency, customer and
    language of the transaction unchanged, its subtotal is the
    transaction's total, and synthesis leaves the transaction as it was. *)
Theorem generateInvoice_copies_transaction (host : InvoiceHost)
    (businessType : string) (td : TransactionData.t) :
  let invoice := fst (generateInvoice host businessType td) in
  let td_after := snd (generateInvoice host businessType td) in
  InvoiceData.items invoice = TransactionData.items td /\
  InvoiceData.total invoice = TransactionData.total td /\
  InvoiceData.subtotal invoice = TransactionData.total td /\
  InvoiceData.currency invoice = TransactionData.currency td /\
  InvoiceData.customer invoice = TransactionData.customer td /\
  InvoiceData.language invoice = TransactionData.language td /\
  td_after = td.
Proof.
  rewrite generateInvoice_run. simpl. repeat split.
Qed.

(** C6.  A run on which the due date is not the specified one.  On a server
    in Bangkok at 01:30 in the morning of 1 March 2025 (18:30 of
    28 February in UTC), the invoice
    of a sale to be paid later and due "next month" is dated 2025-02-28 and
    due 2025-03-31: the month is added on the local calendar (1 March to
    1 April) and the result is printed in UTC.  One calendar month after
    today is 2025-03-28 counting from the date of the invoice, and
    2025-04-01 counting from the local date; the code gives neither. *)
Theorem generateInvoice_due_date_bangkok :
  let invoice :=
    fst (generateInvoice Sample.bangkokHost "retail" Sample.dueNextMonth) in
  let now := Date_new Sample.bangkokHost in
  TransactionData.paymentTerms Sample.dueNextMonth = Some "later"%string /\
  TransactionData.dueDate Sample.dueNextMonth = Some "next month"%string /\
  InvoiceData.date invoice = "2025-02-28"%string /\
  Spec.localDate Sample.bangkok now = Calendar.mk 2025 2 1 /\
  InvoiceData.dueDate invoice = Some "2025-03-31"%string /\
  Calendar.isoDate (Spec.oneMonthLater (Spec.utcDate now)) = "2025-03-28"%string /\
  Calendar.isoDate (Spec.oneMonthLater (Spec.localDate Sample.bangkok now))
  = "2025-04-01"%string.
Proof. vm_compute. repeat split. Qed.

End InvoiceFacts.

(** ** Runs on concrete inputs *)

Module Examples.

Example hashString_hello :
  SeaLionService.hashString [104; 101; 108; 108; 111]%Z = "1n1e4y"%string.
Proof. reflexivity. Qed.

Example cacheKey_hello :
  SeaLionService.cacheKey [104; 101; 108; 108; 111]%Z "en" = "en-1n1e4y"%string.
Proof. reflexivity. Qed.

Example includes_week : JS.includes "minggu depan / next week" "week" = true.
Proof. reflexivity. Qed.

Example includes_case_sensitive : JS.includes "Next Week" "week" = false.
Proof. reflexivity. Qed.

Example end_of_january_plus_30_days :
  Calendar.toISODate
    (Calendar.setDate (fun _ _ => 0%Z) 1738315800123
       (Calendar.getDate (fun _ _ => 0%Z) 1738315800123 + 30))
  = "2025-03-02"%string.
Proof. vm_compute. reflexivity. Qed.

Example end_of_january_plus_one_month :
  Calendar.toISODate
    (Calendar.setMonth (fun _ _ => 0%Z) 1738315800123
       (Calendar.getMonth (fun _ _ => 0%Z) 1738315800123 + 1))
  = "2025-03-03"%string.
Proof. vm_compute. reflexivity. Qed.

Example before_the_epoch :
  Calendar.toISODate (-1) = "1969-12-31"%string.
Proof. vm_compute. reflexivity. Qed.

Example leap_day :
  Calendar.toISODate 1709208000000 = "2024-02-29"%string.
Proof. vm_compute. reflexivity. Qed.

Example invoice_number :
  InvoiceService.generateInvoiceNumber Sample.invoiceHost = "VF1580012349"%string.
Proof. reflexivity. Qed.

Example street_food_thai :
  BusinessInfo.email (InvoiceService.getBusinessTemplate "street food" "th")
  = "streetfood@example.com"%string.
Proof. reflexivity. Qed.

Example validation_keeps_consistent_total :
  TransactionData.total
    (AIService.validateAndEnhanceTransactionData
       (RawTransactionData.mk
          (Some [ RawItem.mk "tea" 2 5 (Some 10) ])
          None (Some 10.005) None None None None None None) "en")
  = 10.005.
Proof. reflexivity. Qed.

(** At the edge of the tolerance the arithmetic of numbers decides: 1.01
    is further than 0.01 from 1, 0.02 is not further than 0.01 from 0.01. *)
Example validation_replaces_one_cent_over :
  TransactionData.total
    (AIService.validateAndEnhanceTransactionData
       (RawTransactionData.mk
          (Some [ RawItem.mk "tea" 1 1 (Some 1) ])
          None (Some 1.01) None None None None None None) "en")
  = 1.
Proof. reflexivity. Qed.

Example validation_keeps_two_cents :
  TransactionData.total
    (AIService.validateAndEnhanceTransactionData
       (RawTransactionData.mk
          (Some [ RawItem.mk "tea" 1 0.01 (Some 0.01) ])
          None (Some 0.02) None None None None None None) "en")
  = 0.02.
Proof. reflexivity. Qed.

(** A missing quantity multiplies as [NaN], and a sum that is [NaN] leaves
    the reported total alone. *)
Example validation_with_a_missing_quantity :
  let validated :=
    AIService.validateParsed
      (JSON.Object
         [ ("items"%string,
            JSON.Array
              [ JSON.Object [ ("name"%string, JSON.String "tea");
                              ("unitPrice"%string, JSON.Number 5) ] ]);
           ("total"%string, JSON.Number 7) ]) "en" in
  exists td,
    validated = JS.Returned td /\
    map Item.total (TransactionData.items td) = [nan] /\
    TransactionData.total td = 7.
Proof. eexists. repeat split. Qed.

(** Item totals whose sum overflows: the validated total is the sum,
    [Infinity], and its difference from the sum is no number. *)
Example validation_overflow :
  let validated :=
    AIService.validateAndEnhanceTransactionData
      (RawTransactionData.mk
         (Some [ RawItem.mk "gold" 1 1e308 (Some 1e308);
                 RawItem.mk "silver" 1 1e308 (Some 1e308) ])
         None (Some 5) None None None None None None) "en" in
  TransactionData.total validated = infinity /\
  Spec.NaN (TransactionData.total validated
            - Spec.sum (map Item.total (TransactionData.items validated))).
Proof. split; reflexivity. Qed.

Example validation_trusts_total_without_items :
  TransactionData.total
    (AIService.validateAndEnhanceTransactionData
       (RawTransactionData.mk None None (Some 42) None None None None None None) "th")
  = 42.
Proof. reflexivity. Qed.

Example second_attempt_answers :
  AIService.callOpenAIWithRetry
    {| chat_completions_create :=
         fun n => if Nat.eqb n 2 then JS.Returned {| content := Some "{}"%string |}
                  else JS.Thrown "rate limit";
       audio_transcriptions_create := fun _ _ => JS.Thrown "unreachable" |}
    AIService.defaultMaxRetries
  = ([IO.Request 1; IO.Sleep 2000; IO.Request 2],
     JS.Returned (Some {| content := Some "{}"%string |})).
Proof. reflexivity. Qed.

End Examples.

(** * Further properties *)

(** ** The cache: stores, sweeps and lookups *)

Module CacheMore.
Import SeaLionService.

(** X1.  What [setCache] stores is what [getFromCache] returns for the same
    key as long as less than the TTL has passed since the store, whether or
    not the store swept the map. *)
Theorem setCache_getFromCache (now now' : Z) (key : string)
    (value : RawTransactionData.t) (cache : gmap string CacheEntry) :
  (now' - now < CACHE_DURATION)%Z ->
  getFromCache now' key (setCache now key value cache)
  = (Some value, setCache now key value cache).
Proof.
  intros Hfresh.
  apply (CacheFacts.getFromCache_fresh now' key _
           {| data := value; timestamp := now |}).
  - apply CacheFacts.setCache_lookup.
  - exact Hfresh.
Qed.

Lemma setCache_getFromCache_witness :
  let value := RawTransactionData.mk None None (Some 250) None None None None None None in
  getFromCache 299999 "th-abc" (setCache 0 "th-abc" value ∅)
  = (Some value, setCache 0 "th-abc" value ∅).
Proof.
  intros value. apply setCache_getFromCache. reflexivity.
Defined.

(** X2.  [setCache] never invents an entry under another key and never
    drops one that is at most the TTL old; below 100 entries it leaves every
    other key as it was, and when it sweeps (more than 100 entries after the
    insert) an entry of another key older than the TTL is gone. *)
Theorem setCache_other_keys (now : Z) (key k : string)
    (value : RawTransactionData.t) (cache : gmap string CacheEntry)
    (entry : CacheEntry) :
  k <> key ->
  (setCache now key value cache !! k = Some entry -> cache !! k = Some entry) /\
  (cache !! k = Some entry ->
   (now - timestamp entry <= CACHE_DURATION)%Z ->
   setCache now key value cache !! k = Some entry) /\
  ((size cache < 100)%nat ->
   setCache now key value cache !! k = cache !! k) /\
  (cache !! k = Some entry ->
   (100 < size (<[ key := {| data := value; timestamp := now |} ]> cache))%nat ->
   (now - timestamp entry > CACHE_DURATION)%Z ->
   setCache now key value cache !! k = None).
Proof.
  intros Hne. unfold setCache, cleanupCache.
  set (entry0 := {| data := value; timestamp := now |}).
  destruct (100 <? Z.of_nat (size (<[key:=entry0]> cache)))%Z eqn:Hsize.
  - apply Z.ltb_lt in Hsize. repeat split.
    + intros H. apply map_lookup_filter_Some in H. destruct H as [H _].
      now rewrite lookup_insert_ne in H.
    + intros Hin Hlive. apply map_lookup_filter_Some. split.
      * now rewrite lookup_insert_ne.
      * simpl. lia.
    + intros Hsmall.
      pose proof (map_size_insert key entry0 cache) as Hs.
      destruct (cache !! key); simpl in Hs; unfold id in Hs; lia.
    + intros Hin _ Hold. apply map_lookup_filter_None. right.
      intros e He. rewrite lookup_insert_ne in He by auto.
      rewrite Hin in He. injection He as <-. simpl. lia.
  - apply Z.ltb_ge in Hsize. repeat split.
    + now rewrite lookup_insert_ne.
    + intros Hin _. now rewrite lookup_insert_ne.
    + intros _. now rewrite lookup_insert_ne.
    + intros _ Hbig _. lia.
Qed.

Lemma setCache_other_keys_witness :
  let old := {| data := RawTransactionData.mk None None None None None None None None None;
                timestamp := 0 |} in
  setCache 1000 "en-b" (data old) {[ "en-a"%string := old ]} !! "en-a"%string
  = Some old.
Proof.
  intros old.
  destruct (setCache_other_keys 1000 "en-b" "en-a" (data old)
              {[ "en-a"%string := old ]} old) as (_ & H & _).
  - discriminate.
  - apply H; [apply lookup_singleton_eq | simpl; unfold CACHE_DURATION; lia].
Defined.

(** X3.  A lookup touches no other key, and after it the key still has an
    entry exactly when the lookup was a hit. *)
Theorem getFromCache_frame (now : Z) (key : string)
    (cache : gmap string CacheEntry) :
  (forall k, k <> key ->
     snd (getFromCache now key cache) !! k = cache !! k) /\
  (is_Some (snd (getFromCache now key cache) !! key) <->
   is_Some (fst (getFromCache now key cache))).
Proof.
  unfold getFromCache.
  destruct (cache !! key) as [entry |] eqn:Hin.
  - destruct (now - timestamp entry <? CACHE_DURATION)%Z; simpl.
    + split; [reflexivity |]. rewrite Hin. split; eauto.
    + split.
      * intros k Hk. now rewrite lookup_delete_ne.
      * rewrite lookup_delete_eq. split; intros [x Hx]; discriminate.
  - simpl. split; [reflexivity |]. rewrite Hin.
    split; intros [x Hx]; discriminate.
Qed.

Lemma getFromCache_frame_witness :
  let entry := {| data := RawTransactionData.mk None None None None None None None None None;
                  timestamp := 0 |} in
  snd (getFromCache 400000 "en-b" {[ "en-a"%string := entry ]}) !! "en-a"%string
  = Some entry.
Proof.
  intros entry.
  destruct (getFromCache_frame 400000 "en-b" {[ "en-a"%string := entry ]})
    as [H _].
  rewrite H; [apply lookup_singleton_eq | discriminate].
Defined.

(** A lookup that misses leaves nothing under its key, and leaves the other
    keys alone. *)
Lemma getFromCache_miss (now : Z) (key : string)
    (cache cache' : gmap string CacheEntry) :
  getFromCache now key cache = (None, cache') ->
  cache' !! key = None /\ forall k, k <> key -> cache' !! k = cache !! k.
Proof.
  unfold getFromCache.
  destruct (cache !! key) as [entry |] eqn:Hin.
  - destruct (now - timestamp entry <? CACHE_DURATION)%Z; [discriminate |].
    intros [= <-]. split; [apply lookup_delete_eq |].
    intros k Hk. now rewrite lookup_delete_ne.
  - intros [= <-]. auto.
Qed.

(** For a language that names a property of [Object.prototype] the prompt
    builder throws. *)
Lemma buildSeaAsianPrompt_throws (transcription : list Z) (language : string) :
  JS.inherited language = true ->
  exists e, buildSeaAsianPrompt transcription language = JS.Thrown e.
Proof.
  unfold JS.inherited, JS.Object_prototype. cbn [existsb].
  rewrite !orb_true_iff. intros H.
  repeat (destruct H as [H | H]); try discriminate;
    apply String.eqb_eq in H; subst language; eexists; reflexivity.
Qed.

(** X4.  An extraction that ends in an exception has gone through both
    stages and has cached nothing: every entry of the map afterwards was
    there before.  For a language that is the name of a property of
    [Object.prototype] the exception is the one the prompt builder raises,
    before any request; for every other language it is the rejection of the
    provider, or one of the two messages of [processWithGPT4]. *)
Theorem processVoiceTransaction_failure (host : Host) (now later : Z)
    (transcription : list Z) (language : string)
    (cache : gmap string CacheEntry) (e : string) :
  let run := processVoiceTransaction host now later transcription language cache in
  outcome run = JS.Thrown e ->
  stages run = [SEALion; GPT4] /\
  (forall k entry, cache_after run !! k = Some entry -> cache !! k = Some entry) /\
  (JS.inherited language = true ->
   buildSeaAsianPrompt transcription language = JS.Thrown e) /\
  (JS.inherited language = false ->
   chat_completions_create (openai host) 1 = JS.Thrown e \/
   e = "No response from AI service"%string \/
   e = "Invalid AI response format"%string).
Proof.
  unfold processVoiceTransaction.
  destruct (getFromCache now (cacheKey transcription language) cache)
    as [[cached |] cache'] eqn:Hget; simpl in *; [discriminate |].
  destruct (getFromCache_miss _ _ _ _ Hget) as [Hkey Hframe].
  destruct (processWithGPT4 host transcription language) as [r | e'] eqn:Hgpt;
    simpl; [discriminate |].
  intros [= ->].
  split; [reflexivity | split; [| split]].
  - intros k entry Hk.
    destruct (String.eqb_spec k (cacheKey transcription language)) as [-> | Hne].
    + rewrite Hkey in Hk. discriminate.
    + now rewrite Hframe in Hk.
  - intros Hlang. revert Hgpt. unfold processWithGPT4.
    destruct (buildSeaAsianPrompt_throws transcription language Hlang) as [e0 ->].
    congruence.
  - intros Hlang.
    rewrite (CacheFacts.processWithGPT4_outcome _ _ _ Hlang) in Hgpt.
    destruct (chat_completions_create (openai host) 1) as [response | e0].
    + destruct (JS.truthy (content response)) as [result |].
      * destruct (JSON_parse host result); [discriminate |].
        injection Hgpt as <-. auto.
      * injection Hgpt as <-. auto.
    + injection Hgpt as <-. auto.
Qed.

(** A run of X4 on a host whose provider rejects every request: the
    rejection reaches the caller after both stages, with no entry stored. *)
Lemma processVoiceTransaction_failure_witness :
  let run := processVoiceTransaction Sample.failingHost 0 1 [104; 105]%Z "en" ∅ in
  stages run = [SEALion; GPT4] /\
  (forall k entry, cache_after run !! k = Some entry ->
                   (∅ : gmap string CacheEntry) !! k = Some entry).
Proof.
  intros run.
  destruct (processVoiceTransaction_failure Sample.failingHost 0 1
              [104; 105]%Z "en" ∅ "rejected 1") as (H1 & H2 & _).
  - reflexivity.
  - split; [exact H1 | exact H2].
Defined.

(** [ToInt32] differs from its argument by a multiple of [2^32]. *)
Lemma toInt32_congruent (x : Z) :
  exists k, toInt32 x = (x + k * 2 ^ 32)%Z.
Proof.
  unfold toInt32.
  pose proof (Z.div_mod x (2 ^ 32) ltac:(lia)) as Hdm.
  destruct (x mod 2 ^ 32 <? 2 ^ 31)%Z.
  - exists (- (x / 2 ^ 32))%Z. lia.
  - exists (- (x / 2 ^ 32) - 1)%Z. lia.
Qed.

Lemma toInt32_range (x : Z) : (- 2 ^ 31 <= toInt32 x < 2 ^ 31)%Z.
Proof.
  unfold toInt32.
  pose proof (Z.mod_pos_bound x (2 ^ 32) ltac:(lia)) as Hb.
  destruct (x mod 2 ^ 32 <? 2 ^ 31)%Z eqn:E.
  - apply Z.ltb_lt in E. lia.
  - apply Z.ltb_ge in E. lia.
Qed.

(** The running hash follows the polynomial up to multiples of [2^32]. *)
Lemma hash_fold_congruent (str : list Z) :
  forall h p : Z,
    (exists k, h = p + k * 2 ^ 32)%Z ->
    exists k,
      (fold_left
         (fun hash char => toInt32 ((toInt32 (hash * 2 ^ 5) - hash) + char)%Z)
         str h
       = fold_left (fun hash char => 31 * hash + char) str p + k * 2 ^ 32)%Z.
Proof.
  induction str as [| c str IH]; intros h p [k0 Hk0]; simpl.
  - now exists k0.
  - apply IH.
    destruct (toInt32_congruent (h * 2 ^ 5)) as [k1 Hk1].
    destruct (toInt32_congruent (toInt32 (h * 2 ^ 5) - h + c)) as [k2 Hk2].
    exists (31 * k0 + k1 + k2)%Z. rewrite Hk2, Hk1, Hk0. lia.
Qed.

Lemma hashValue_range (str : list Z) :
  (- 2 ^ 31 <= Spec2.hashValue str < 2 ^ 31)%Z.
Proof.
  unfold Spec2.hashValue.
  destruct str as [| c str] using rev_ind; [simpl; lia |].
  rewrite fold_left_app. simpl. apply toInt32_range.
Qed.

(** X5.  [hashString] prints, in base 36 and without its sign, the signed
    32-bit integer congruent modulo [2^32] to the polynomial in 31 over the
    code units of the string. *)
Theorem hashString_polynomial (str : list Z) :
  exists h : Z,
    hashString str = toString36 (Z.abs h) /\
    (- 2 ^ 31 <= h < 2 ^ 31)%Z /\
    (h mod 2 ^ 32 = Spec2.polyHash str mod 2 ^ 32)%Z.
Proof.
  exists (Spec2.hashValue str). split; [reflexivity |].
  split; [apply hashValue_range |].
  destruct (hash_fold_congruent str 0 0) as [k Hk]; [now exists 0%Z |].
  unfold Spec2.hashValue, Spec2.polyHash. rewrite Hk.
  apply Z_mod_plus_full.
Qed.






End CacheMore.

(** ** The backend service: transcription, extraction, validation *)

Module AIServiceMore.
Import AIService.

(** [s || d] is not empty when [d] is not. *)
Lemma or_str_nonempty (s : option string) (d : string) :
  d <> ""%string -> JS.or_str s d <> ""%string.
Proof.
  intros Hd. unfold JS.or_str. destruct s as [v |]; [| exact Hd].
  destruct (String.eqb_spec v ""%string); assumption.
Qed.

Ltac by_table language :=
  repeat match goal with
         | |- context [String.eqb language ?k] =>
             destruct (String.eqb_spec language k); try subst language
         end.

Lemma getMockTranscription_nonempty (language : string) :
  getMockTranscription language <> ""%string.
Proof.
  unfold getMockTranscription. cbn [JS.get].
  by_table language; cbn; discriminate.
Qed.

Lemma getCurrencyForLanguage_nonempty (language : string) :
  getCurrencyForLanguage language <> ""%string.
Proof.
  unfold getCurrencyForLanguage. cbn [JS.get].
  by_table language; cbn; discriminate.
Qed.

(** X7.  For a language that names no property of [Object.prototype],
    [transcribeAudio] of the backend service never throws and never returns
    an empty transcript.  Without a credential, when the temporary file
    cannot be written, when the provider rejects the request and when it
    answers with the empty string, the result is the sample transcript of
    the language, which is not empty and is the English one for a language
    outside the five; a non-empty answer of the provider is returned as it
    is. *)
Theorem transcribeAudio_always_transcript
    (host : Host) (audioBuffer : list Byte.byte) (language : string) :
  JS.inherited language = false ->
  let result := IO.result (transcribeAudio host audioBuffer language) in
  let sample := getMockTranscription language in
  let answer := audio_transcriptions_create (openai host) audioBuffer
                  (mapLanguageForWhisper language) in
  sample <> ""%string /\
  (~ In language supportedLanguages -> sample = getMockTranscription "en") /\
  (JS.truthy_str (OPENAI_API_KEY host) = false -> result = JS.Returned sample) /\
  (forall e, fs_writeFileSync host audioBuffer = JS.Thrown e ->
             result = JS.Returned sample) /\
  (forall e, answer = JS.Thrown e -> result = JS.Returned sample) /\
  (answer = JS.Returned ""%string -> result = JS.Returned sample) /\
  (forall text,
     JS.truthy_str (OPENAI_API_KEY host) = true ->
     fs_writeFileSync host audioBuffer = JS.Returned tt ->
     answer = JS.Returned text ->
     text <> ""%string ->
     result = JS.Returned text) /\
  (exists text, result = JS.Returned text /\ text <> ""%string).
Proof.
  intros _ result sample answer.
  pose proof (getMockTranscription_nonempty language) as Hmock.
  assert (Hresult :
    result
    = if negb (JS.truthy_str (OPENAI_API_KEY host)) then JS.Returned sample
      else match fs_writeFileSync host audioBuffer with
           | JS.Thrown _ => JS.Returned sample
           | JS.Returned _ =>
               match answer with
               | JS.Thrown _ => JS.Returned sample
               | JS.Returned text =>
                   JS.Returned (if String.eqb text "" then sample else text)
               end
           end).
  { subst result sample answer. unfold transcribeAudio.
    rewrite IOFacts.try_catch_const.
    destruct (JS.truthy_str (OPENAI_API_KEY host)); cbn [negb]; [| reflexivity].
    rewrite IOFacts.result_bind. cbn [IO.call IO.result snd].
    destruct (fs_writeFileSync host audioBuffer) as [[] | e0]; [| reflexivity].
    rewrite IOFacts.result_bind. cbn [IO.call IO.result snd].
    now destruct (audio_transcriptions_create (openai host) audioBuffer
                    (mapLanguageForWhisper language)). }
  split; [exact Hmock |].
  split.
  { subst sample. unfold getMockTranscription, supportedLanguages.
    cbn [JS.get]. intros Hout.
    by_table language; cbn; try reflexivity; exfalso; apply Hout; cbn; tauto. }
  rewrite Hresult.
  split; [intros ->; reflexivity |].
  split.
  { intros e ->. now destruct (negb _). }
  split.
  { intros e ->. destruct (negb _); [reflexivity |].
    now destruct (fs_writeFileSync host audioBuffer). }
  split.
  { intros ->. destruct (negb _); [reflexivity |].
    now destruct (fs_writeFileSync host audioBuffer). }
  split.
  { intros text -> -> -> Htext. cbn.
    now destruct (String.eqb_spec text ""%string). }
  destruct (negb _); [eauto |].
  destruct (fs_writeFileSync host audioBuffer); [| eauto].
  destruct answer as [text | e]; [| eauto].
  destruct (String.eqb_spec text ""%string); eauto.
Qed.

(** A run of X7: a provider out of reach, and the Indonesian sample. *)
Lemma transcribeAudio_always_transcript_witness :
  IO.result (transcribeAudio Sample.failingHost [] "id")
  = JS.Returned (getMockTranscription "id") /\
  getMockTranscription "id" <> ""%string.
Proof.
  destruct (transcribeAudio_always_transcript Sample.failingHost [] "id")
    as (Hsample & _ & _ & _ & H & _).
  - reflexivity.
  - split; [apply (H "unreachable"%string); reflexivity | exact Hsample].
Defined.

(** X8.  For a language that names no property of [Object.prototype], the
    language hint the backend sends to the transcription provider is one of
    'id', 'th', 'vi', 'en': Tagalog and every unknown code are sent as 'en'.
    On the five supported languages it is the hint of the SEA-LION service,
    which for its part passes an unknown code on. *)
Theorem mapLanguageForWhisper_codes (language : string) :
  JS.inherited language = false ->
  In (mapLanguageForWhisper language) Spec2.whisperCodes /\
  (In language Spec2.whisperCodes -> mapLanguageForWhisper language = language) /\
  (~ In language Spec2.whisperCodes ->
   mapLanguageForWhisper language = "en"%string) /\
  (In language supportedLanguages ->
   mapLanguageForWhisper language = SeaLionService.whisperLanguage language) /\
  (~ In language supportedLanguages ->
   SeaLionService.whisperLanguage language = language).
Proof.
  intros _.
  unfold mapLanguageForWhisper, SeaLionService.whisperLanguage,
    Spec2.whisperCodes, supportedLanguages.
  cbn [JS.get].
  by_table language; cbn; intuition (try discriminate; try congruence).
Qed.

Lemma mapLanguageForWhisper_codes_witness :
  mapLanguageForWhisper "tl" = "en"%string /\
  mapLanguageForWhisper "km" = "en"%string /\
  SeaLionService.whisperLanguage "km" = "km"%string.
Proof.
  destruct (mapLanguageForWhisper_codes "tl") as (_ & _ & H1 & _);
    [reflexivity |].
  destruct (mapLanguageForWhisper_codes "km") as (_ & _ & H2 & _ & H3);
    [reflexivity |].
  split; [| split].
  - apply H1. cbn. intuition discriminate.
  - apply H2. cbn. intuition discriminate.
  - apply H3. cbn. intuition discriminate.
Defined.

(** The three shapes of the trace of the wrapper with three attempts. *)
Lemma callOpenAIWithRetry_traces (client : OpenAI) :
  let tr := IO.trace (callOpenAIWithRetry client defaultMaxRetries) in
  tr = [IO.Request 1] \/
  tr = [IO.Request 1; IO.Sleep 2000; IO.Request 2] \/
  tr = [IO.Request 1; IO.Sleep 2000; IO.Request 2; IO.Sleep 4000; IO.Request 3].
Proof.
  unfold callOpenAIWithRetry, defaultMaxRetries. simpl.
  destruct (chat_completions_create client 1); [now left |].
  simpl. destruct (chat_completions_create client 2); [right; now left |].
  simpl. destruct (chat_completions_create client 3); right; now right.
Qed.

(** The trace of [processTransaction] is that of its requests. *)
Lemma processTransaction_trace
    (host : Host) (transcription language : string) :
  IO.trace (processTransaction host transcription language)
  = if negb (JS.truthy_str (OPENAI_API_KEY host)) then []
    else match buildSeaAsianPrompt transcription language with
         | JS.Thrown _ => []
         | JS.Returned _ =>
             IO.trace (callOpenAIWithRetry (openai host) defaultMaxRetries)
         end.
Proof.
  unfold processTransaction.
  destruct (negb (JS.truthy_str (OPENAI_API_KEY host))); [reflexivity |].
  destruct (buildSeaAsianPrompt transcription language) as [prompt | e0];
    [| reflexivity].
  destruct (callOpenAIWithRetry (openai host) defaultMaxRetries)
    as [tr [[response |] | e]]; cbn.
  - destruct (JS.truthy (content response)) as [result |]; cbn.
    + destruct (JSON_parse host result) as [parsedData |]; cbn;
        [destruct (validateParsed parsedData language); cbn |];
        now rewrite !app_nil_r.
    + now rewrite !app_nil_r.
  - now rewrite !app_nil_r.
  - now rewrite !app_nil_r.
Qed.

(** X9.  One call of [processTransaction] sends at most three chat requests
    and waits at most six seconds between them; without a credential it
    sends none and returns the mock record at once. *)
Theorem processTransaction_requests
    (host : Host) (transcription language : string) :
  let run := processTransaction host transcription language in
  (length (IO.requests (IO.trace run)) <= 3)%nat /\
  (Spec2.totalSleep (IO.trace run) <= 6000)%Z /\
  (JS.truthy_str (OPENAI_API_KEY host) = false ->
   run = ([], JS.Returned (getMockTransactionData language))).
Proof.
  intros run. unfold run. rewrite processTransaction_trace.
  destruct (JS.truthy_str (OPENAI_API_KEY host)) eqn:Hkey; cbn [negb].
  - destruct (buildSeaAsianPrompt transcription language).
    + destruct (callOpenAIWithRetry_traces (openai host)) as [-> | [-> | ->]];
        cbn; repeat split; try lia; discriminate.
    + cbn; repeat split; try lia; discriminate.
  - repeat split; cbn; try lia.
    intros _. unfold processTransaction. now rewrite Hkey.
Qed.

Lemma processTransaction_requests_witness :
  processTransaction Sample2.offlineHost "dua kopi" "vi"
  = ([], JS.Returned (getMockTransactionData "vi")).
Proof.
  destruct (processTransaction_requests Sample2.offlineHost "dua kopi" "vi")
    as (_ & _ & H).
  apply H. reflexivity.
Defined.

(** A document of the declared shape is one the validation does not throw
    on. *)
Lemma conforms_validationError (doc : JSON.value) :
  Decode.conforms doc = true -> validationError doc = None.
Proof.
  destruct doc as [| b | x | text | elements | members]; try discriminate.
  unfold Decode.conforms, Decode.isObject, validationError.
  rewrite !andb_true_iff. intros [[[[[[[[Hitems _] _] _] _] _] _] _] _].
  destruct (JSON.member "items" (JSON.Object members)) as [items |];
    [| reflexivity].
  destruct items as [| b | x | text | elements | members']; try discriminate.
  cbn in Hitems.
  replace (existsb JSON.isNull elements) with false; [reflexivity |].
  symmetry. induction elements as [| e elements IH]; [reflexivity |].
  cbn in Hitems. apply andb_true_iff in Hitems. destruct Hitems as [He Hrest].
  cbn. rewrite (IH Hrest). now destruct e.
Qed.

(** X10.  With a credential and a language that names no property of
    [Object.prototype], when the first answered attempt carries text that
    parses: for a document of the declared shape [processTransaction]
    returns that data validated for the requested language, and the
    [language] of the result is the requested one whatever the provider
    wrote; for a document the validation throws on ([null], items that are
    no array, an item that is [null]) it returns the mock record of the
    language. *)
Theorem processTransaction_success
    (host : Host) (transcription language : string) (k : nat)
    (response : ChatCompletion) (text : string) (doc : JSON.value) :
  JS.inherited language = false ->
  JS.truthy_str (OPENAI_API_KEY host) = true ->
  (1 <= k <= 3)%nat ->
  (forall j, 1 <= j < k -> Spec.rejected (openai host) j)%nat ->
  chat_completions_create (openai host) k = JS.Returned response ->
  content response = Some text ->
  text <> ""%string ->
  JSON_parse host text = Some doc ->
  let result := IO.result (processTransaction host transcription language) in
  let validated :=
    validateAndEnhanceTransactionData (Decode.transactionData doc) language in
  (Decode.conforms doc = true ->
   result = JS.Returned validated /\
   TransactionData.language validated = language) /\
  (doc = JSON.Null ->
   result = JS.Returned (getMockTransactionData language)) /\
  (forall items,
     JSON.member "items" doc = Some items ->
     JSON.truthy items = true ->
     (forall elements, items <> JSON.Array elements) ->
     result = JS.Returned (getMockTransactionData language)) /\
  (forall elements,
     JSON.member "items" doc = Some (JSON.Array elements) ->
     In JSON.Null elements ->
     result = JS.Returned (getMockTransactionData language)).
Proof.
  intros Hlang Hkey Hk Hrej Hok Htext Hne Hparse result validated.
  assert (Hresult :
    result = JS.Returned match validateParsed doc language with
                         | JS.Returned validatedData => validatedData
                         | JS.Thrown _ => getMockTransactionData language
                         end).
  { subst result.
    rewrite ExtractionFacts.processTransaction_result, Hkey. cbn [negb].
    destruct (ExtractionFacts.buildSeaAsianPrompt_returns transcription language
                Hlang) as [prompt ->].
    rewrite (ExtractionFacts.callOpenAIWithRetry_first_answer _ k response
               Hk Hrej Hok).
    rewrite Htext, (JSFacts.truthy_Some text Hne). now rewrite Hparse. }
  rewrite Hresult. unfold validateParsed.
  split; [| split; [| split]].
  - intros Hshape. now rewrite (conforms_validationError doc Hshape).
  - now intros ->.
  - intros items Hitems Htruthy Harray. unfold validationError.
    rewrite Hitems.
    destruct doc; try discriminate Hitems.
    destruct items as [| b | x | s | elements | members'];
      try (now rewrite Htruthy).
    now destruct (Harray elements).
  - intros elements Hitems Hnull. unfold validationError. rewrite Hitems.
    destruct doc; try discriminate Hitems.
    replace (existsb JSON.isNull elements) with true; [reflexivity |].
    symmetry. apply existsb_exists. now exists JSON.Null.
Qed.

(** A run of X10: the second attempt is answered; the item without a total
    gets [2 * 5000], and so does the transaction, in the currency of
    'id'. *)
Lemma processTransaction_success_witness :
  let run := processTransaction Sample2.answeringHost "dua kopi" "id" in
  IO.trace run = [IO.Request 1; IO.Sleep 2000; IO.Request 2] /\
  exists td,
    IO.result run = JS.Returned td /\
    map Item.total (TransactionData.items td) = [2 * 5000] /\
    TransactionData.total td = 0 + 2 * 5000 /\
    TransactionData.currency td = "IDR"%string.
Proof.
  intros run. split; [reflexivity |].
  destruct (processTransaction_success Sample2.answeringHost "dua kopi" "id" 2
              {| content := Some "{json}"%string |} "{json}"
              (JSON.Object
                 [ ("items"%string,
                    JSON.Array
                      [ JSON.Object
                          [ ("name"%string, JSON.String "kopi");
                            ("quantity"%string, JSON.Number 2);
                            ("unitPrice"%string, JSON.Number 5000) ] ]) ]))
    as [H _]; try reflexivity; try discriminate; try lia.
  - intros j Hj. assert (j = 1)%nat as -> by lia. now exists "rate limit"%string.
  - destruct H as [H _]; [reflexivity |].
    eexists. split; [exact H |]. split; [| split]; reflexivity.
Defined.

(** X11.  On a provider document of the declared shape, and for a language
    that names no property of [Object.prototype], the validation returns,
    and the validated record has the requested language, a non-empty
    currency, non-empty payment terms and business type, a customer and
    metadata, and the provider's due date untouched.  Its confidence is the
    provider's whenever the provider gave one (a zero included, which the
    spread writes back over the default), and 0.85 otherwise. *)
Theorem validated_record_complete (doc : JSON.value) (language : string) :
  JS.inherited language = false ->
  Decode.conforms doc = true ->
  let data := Decode.transactionData doc in
  let v := validateAndEnhanceTransactionData data language in
  validateParsed doc language = JS.Returned v /\
  TransactionData.language v = language /\
  TransactionData.currency v <> ""%string /\
  (exists terms, TransactionData.paymentTerms v = Some terms /\ terms <> ""%string) /\
  (exists type, TransactionData.businessType v = Some type /\ type <> ""%string) /\
  TransactionData.customer v <> None /\
  TransactionData.dueDate v = RawTransactionData.dueDate data /\
  (exists m,
     TransactionData.metadata v = Some m /\
     Metadata.confidence m
     = match RawTransactionData.metadata data ≫= RawMetadata.confidence with
       | Some c => c
       | None => 0.85
       end).
Proof.
  intros _ Hshape data v.
  split.
  { unfold validateParsed. now rewrite (conforms_validationError doc Hshape). }
  unfold v. clearbody data. unfold validateAndEnhanceTransactionData. cbn.
  repeat split.
  - apply or_str_nonempty, getCurrencyForLanguage_nonempty.
  - eexists. split; [reflexivity |]. apply or_str_nonempty. discriminate.
  - eexists. split; [reflexivity |]. apply or_str_nonempty. discriminate.
  - discriminate.
  - eexists. split; [reflexivity |].
    unfold enhanceMetadata.
    destruct (RawTransactionData.metadata data) as [m |]; cbn; [| reflexivity].
    now destruct (RawMetadata.confidence m).
Qed.

(** A run of X11: a document with a confidence of zero and nothing else;
    validated for Thai it is in baht, paid at once, with the zero kept. *)
Lemma validated_record_complete_witness :
  let doc := JSON.Object
               [ ("metadata"%string,
                  JSON.Object [ ("confidence"%string, JSON.Number 0) ]) ] in
  let v := validateAndEnhanceTransactionData (Decode.transactionData doc) "th" in
  validateParsed doc "th" = JS.Returned v /\
  TransactionData.currency v = "THB"%string /\
  TransactionData.paymentTerms v = Some "immediate"%string /\
  option_map Metadata.confidence (TransactionData.metadata v) = Some 0.
Proof.
  intros doc v.
  destruct (validated_record_complete doc "th") as (H & _);
    [reflexivity | reflexivity |].
  split; [exact H |]. split; [| split]; reflexivity.
Defined.

End AIServiceMore.

(** ** The retry wrapper for any number of attempts *)

Module RetryMore.
Import AIService.

Lemma requests_backoffTrace (failures : nat) :
  forall attempt,
    IO.requests (Spec.backoffTrace attempt failures
                 ++ [IO.Request (attempt + failures)%nat])
    = seq attempt (S failures).
Proof.
  induction failures as [| failures IH]; intros attempt.
  - cbn. now rewrite Nat.add_0_r.
  - cbn [Spec.backoffTrace]. cbn. f_equal.
    replace (attempt + S failures)%nat with (S attempt + failures)%nat by lia.
    apply IH.
Qed.

Lemma totalSleep_backoffTrace (failures : nat) :
  forall attempt last,
    Spec2.totalSleep (Spec.backoffTrace attempt failures ++ [IO.Request last])
    = ((2 ^ Z.of_nat (attempt + failures) - 2 ^ Z.of_nat attempt) * 1000)%Z.
Proof.
  induction failures as [| failures IH]; intros attempt last.
  - cbn. rewrite Nat.add_0_r. lia.
  - cbn [Spec.backoffTrace app Spec2.totalSleep fold_right].
    fold (Spec2.totalSleep
            (Spec.backoffTrace (S attempt) failures ++ [IO.Request last])).
    rewrite IH.
    replace (attempt + S failures)%nat with (S attempt + failures)%nat by lia.
    rewrite (Nat2Z.inj_succ attempt), Z.pow_succ_r by lia. lia.
Qed.

(** X12.  For any positive number of attempts, when every attempt is
    rejected the wrapper has sent exactly the attempts 1 to [maxRetries],
    has waited [2^maxRetries - 2] seconds in all, and throws the error of
    the last attempt.  With [maxRetries = 0] it sends nothing and returns
    [undefined] without throwing. *)
Theorem callOpenAIWithRetry_exhausted (client : OpenAI) (maxRetries : nat) :
  (forall n, 1 <= n <= maxRetries -> Spec.rejected client n)%nat ->
  let run := callOpenAIWithRetry client maxRetries in
  (maxRetries = 0%nat -> run = ([], JS.Returned None)) /\
  ((1 <= maxRetries)%nat ->
   IO.requests (IO.trace run) = seq 1 maxRetries /\
   Spec2.totalSleep (IO.trace run) = ((2 ^ Z.of_nat maxRetries - 2) * 1000)%Z /\
   exists e,
     chat_completions_create client maxRetries = JS.Thrown e /\
     IO.result run = JS.Thrown e).
Proof.
  intros Hrej run. unfold run, callOpenAIWithRetry. split.
  - intros ->. reflexivity.
  - intros Hpos. destruct maxRetries as [| remaining]; [lia |].
    destruct (Hrej (S remaining) ltac:(lia)) as [e He].
    rewrite (RetryFacts.retryLoop_exhausted _ (S remaining) remaining 1 e);
      try lia; try assumption.
    + cbn [IO.trace IO.result fst snd]. repeat split.
      * change (S remaining) with (1 + remaining)%nat at 1.
        apply requests_backoffTrace.
      * rewrite totalSleep_backoffTrace.
        change (1 + remaining)%nat with (S remaining). cbn [Z.of_nat]. lia.
      * now exists e.
    + intros j Hj. apply Hrej. lia.
Qed.

Lemma callOpenAIWithRetry_exhausted_witness :
  Spec2.totalSleep (IO.trace (callOpenAIWithRetry Sample.failingClient 5))
  = 30000%Z /\
  IO.requests (IO.trace (callOpenAIWithRetry Sample.failingClient 5))
  = [1; 2; 3; 4; 5]%nat.
Proof.
  destruct (callOpenAIWithRetry_exhausted Sample.failingClient 5) as [_ H].
  - intros n _. eexists. reflexivity.
  - destruct H as (H1 & H2 & _); [lia |]. split; assumption.
Defined.

End RetryMore.

(** ** Invoice synthesis: due dates, payment QR, templates, numbers *)

Module InvoiceMore.
Import InvoiceService.

Local Open Scope Z_scope.

Lemma contains_includes (hay needle : string) :
  Spec.contains hay needle -> JS.includes hay needle = true.
Proof. apply StringFacts.includes_contains. Qed.

Lemma not_contains_includes (hay needle : string) :
  ~ Spec.contains hay needle -> JS.includes hay needle = false.
Proof. apply StringFacts.includes_not_contains. Qed.

Lemma tomorrow_after (d : Calendar.Date) :
  Calendar.valid d -> Spec2.before d (Calendar.tomorrow d).
Proof.
  intros [Hm Hd]. unfold Calendar.tomorrow, Spec2.before.
  destruct (Calendar.day d <? Calendar.daysInMonth (Calendar.year d) (Calendar.month d)).
  - cbn. lia.
  - unfold Calendar.nextMonth.
    destruct (Calendar.month d =? 11) eqn:E; cbn; [lia |].
    apply Z.eqb_neq in E. lia.
Qed.

Lemma before_trans (a b c : Calendar.Date) :
  Spec2.before a b -> Spec2.before b c -> Spec2.before a c.
Proof. unfold Spec2.before. lia. Qed.

Lemma addDays_after (n : nat) (d : Calendar.Date) :
  Calendar.valid d -> Spec2.before d (Calendar.addDays (S n) d).
Proof.
  intros Hv. induction n as [| n IH].
  - now apply tomorrow_after.
  - apply (before_trans _ _ _ IH).
    rewrite (CalendarFacts.addDays_succ (S n)).
    apply tomorrow_after. now apply CalendarFacts.addDays_valid.
Qed.

(** On a clock with a fixed offset from UTC, whole days added on the local
    clock are whole days added in UTC. *)
Lemma UTC_LocalTime_fixed (LocalTZA : Z -> bool -> Z) (offset t k : Z) :
  (forall t isUTC, LocalTZA t isUTC = offset) ->
  Calendar.UTC LocalTZA (Calendar.LocalTime LocalTZA t + k * Calendar.msPerDay)
  = t + k * Calendar.msPerDay.
Proof.
  intros Hfixed. unfold Calendar.UTC, Calendar.LocalTime.
  rewrite !Hfixed. lia.
Qed.

(** What [parseDueDate] returns for a hint that names no date: the instant
    a number of days later on the local clock, printed in UTC. *)
Lemma parseDueDate_relative (host : InvoiceHost) (hint : string) :
  let now := Date_new host in
  let local := Spec.localDate (LocalTZA host) now in
  JS.includes hint "week" = true \/ JS.includes hint "month" = true \/
    Date_parse host hint = None ->
  parseDueDate host hint
  = Calendar.toISODate
      (Calendar.UTC (LocalTZA host)
         (Calendar.LocalTime (LocalTZA host) now
          + (if JS.includes hint "week" then 7
             else if JS.includes hint "month"
                  then Calendar.daysInMonth (Calendar.year local)
                         (Calendar.month local)
                  else 30) * Calendar.msPerDay)).
Proof.
  intros now local Hhint. unfold parseDueDate.
  destruct (JS.includes hint "week").
  - now rewrite CalendarFacts.setDate_getDate.
  - destruct (JS.includes hint "month").
    + now rewrite CalendarFacts.setMonth_getMonth.
    + destruct Hhint as [H | [H | H]]; try discriminate.
      rewrite H. now rewrite CalendarFacts.setDate_getDate.
Qed.

(** X13.  A due date resolved from a hint that contains "week" or "month",
    or that cannot be read as a date, is the date in UTC of the instant a
    number of days after now on the clock of the server: 7 for a week, 30
    for a hint that cannot be read, and for a month the length of the month
    the server's clock is in.  Where that clock keeps a fixed offset from
    UTC, the due date is the invoice date moved that many days on: a date of
    the calendar after the invoice date; and for a month, when the server's
    date is the invoice date and the following month has its day, it is the
    same day of the following month. *)
Theorem parseDueDate_relative_future (host : InvoiceHost) (hint : string) :
  Spec.contains hint "week" \/ Spec.contains hint "month" \/
    Date_parse host hint = None ->
  let now := Date_new host in
  let local := Spec.localDate (LocalTZA host) now in
  exists days : nat,
    (Spec.contains hint "week" -> days = 7%nat) /\
    (~ Spec.contains hint "week" -> Spec.contains hint "month" ->
     Z.of_nat days = Calendar.daysInMonth (Calendar.year local) (Calendar.month local)) /\
    (~ Spec.contains hint "week" -> ~ Spec.contains hint "month" ->
     days = 30%nat) /\
    parseDueDate host hint
    = Calendar.toISODate
        (Calendar.UTC (LocalTZA host)
           (Calendar.LocalTime (LocalTZA host) now
            + Z.of_nat days * Calendar.msPerDay)) /\
    (forall offset,
       (forall t isUTC, LocalTZA host t isUTC = offset) ->
       let due := Calendar.addDays days (Spec.utcDate now) in
       parseDueDate host hint = Calendar.isoDate due /\
       Calendar.valid due /\
       Spec2.before (Spec.utcDate now) due /\
       (~ Spec.contains hint "week" -> Spec.contains hint "month" ->
        local = Spec.utcDate now ->
        Calendar.day local
        <= Calendar.daysInMonth
             (fst (Calendar.nextMonth (Calendar.year local) (Calendar.month local)))
             (snd (Calendar.nextMonth (Calendar.year local) (Calendar.month local))) ->
        due = Spec.oneMonthLater (Spec.utcDate now))).
Proof.
  intros Hhint now local.
  pose proof (CalendarFacts.daysInMonth_bounds (Calendar.year local)
                (Calendar.month local)) as Hlen.
  set (days := if JS.includes hint "week" then 7
               else if JS.includes hint "month"
                    then Calendar.daysInMonth (Calendar.year local)
                           (Calendar.month local)
                    else 30).
  assert (Hdays : 1 <= days) by (subst days; repeat destruct (JS.includes _ _); lia).
  assert (Hparse :
    parseDueDate host hint
    = Calendar.toISODate
        (Calendar.UTC (LocalTZA host)
           (Calendar.LocalTime (LocalTZA host) now
            + Z.of_nat (Z.to_nat days) * Calendar.msPerDay))).
  { rewrite Z2Nat.id by lia. apply parseDueDate_relative.
    destruct Hhint as [H | [H | H]].
    - left. now apply contains_includes.
    - right. left. now apply contains_includes.
    - now right; right. }
  exists (Z.to_nat days).
  split; [| split; [| split; [| split]]].
  - intros Hweek. subst days.
    now rewrite (contains_includes _ _ Hweek).
  - intros Hweek Hmonth. rewrite Z2Nat.id by lia. subst days.
    rewrite (not_contains_includes _ _ Hweek).
    now rewrite (contains_includes _ _ Hmonth).
  - intros Hweek Hmonth. subst days.
    rewrite (not_contains_includes _ _ Hweek).
    now rewrite (not_contains_includes _ _ Hmonth).
  - exact Hparse.
  - intros offset Hfixed due.
    assert (Hvalid : Calendar.valid (Spec.utcDate now))
      by apply CalendarFacts.civil_valid.
    split; [| split; [| split]].
    + rewrite Hparse, (UTC_LocalTime_fixed _ offset _ _ Hfixed).
      unfold Calendar.toISODate. rewrite CalendarFacts.Day_add.
      now rewrite CalendarFacts.civil_add.
    + now apply CalendarFacts.addDays_valid.
    + subst due. destruct (Z.to_nat days) as [| n] eqn:E; [lia |].
      now apply addDays_after.
    + intros Hweek Hmonth Hsame Hday. subst due days.
      rewrite (not_contains_includes _ _ Hweek).
      rewrite (contains_includes _ _ Hmonth).
      rewrite <- Hsame in *.
      rewrite (CalendarFacts.addDays_month local Hvalid Hday).
      unfold Spec.oneMonthLater.
      destruct (Calendar.nextMonth (Calendar.year local) (Calendar.month local))
        as [y1 m1]. cbn [fst snd] in *.
      now rewrite Z.min_l.
Qed.

(** A run of X13 in UTC at the end of January: "next month" is due 31 days
    on, 3 March, a date of the calendar after the invoice date. *)
Lemma parseDueDate_relative_future_witness :
  parseDueDate Sample.invoiceHost "next month" = "2025-03-03"%string /\
  exists days : nat,
    days = 31%nat /\
    let due := Calendar.addDays days (Spec.utcDate (Date_new Sample.invoiceHost)) in
    parseDueDate Sample.invoiceHost "next month" = Calendar.isoDate due /\
    Calendar.valid due /\
    Spec2.before (Spec.utcDate (Date_new Sample.invoiceHost)) due.
Proof.
  split; [vm_compute; reflexivity |].
  destruct (parseDueDate_relative_future Sample.invoiceHost "next month")
    as (days & _ & Hmonth & _ & _ & Hfixed).
  - right. left. exists "next "%string, ""%string. reflexivity.
  - exists days. split.
    + apply Nat2Z.inj. rewrite Hmonth; [vm_compute; reflexivity | |].
      * apply StringFacts.includes_not_contains. vm_compute. reflexivity.
      * exists "next "%string, ""%string. reflexivity.
    + destruct (Hfixed 0) as (H1 & H2 & H3 & _); [reflexivity |].
      split; [exact H1 | split; [exact H2 | exact H3]].
Defined.

(** X24.  An invoice has a due date exactly when the payment terms are
    'later' and the transaction carries a non-empty due-date hint; it is
    then what [parseDueDate] makes of the hint, and for a hint without
    "week" and "month" that the date parser reads, the date in UTC of the
    instant read. *)
Theorem generateInvoice_dueDate_presence (host : InvoiceHost)
    (businessType : string) (td : TransactionData.t) :
  let invoice := fst (generateInvoice host businessType td) in
  (InvoiceData.dueDate invoice <> None <->
   TransactionData.paymentTerms td = Some "later"%string /\
   exists hint, TransactionData.dueDate td = Some hint /\ hint <> ""%string) /\
  (forall hint,
     TransactionData.paymentTerms td = Some "later"%string ->
     TransactionData.dueDate td = Some hint ->
     hint <> ""%string ->
     InvoiceData.dueDate invoice = Some (parseDueDate host hint) /\
     (forall parsed,
        ~ Spec.contains hint "week" -> ~ Spec.contains hint "month" ->
        Date_parse host hint = Some parsed ->
        InvoiceData.dueDate invoice
        = Some (Calendar.isoDate (Spec.utcDate parsed)))).
Proof.
  intros invoice. unfold invoice. rewrite InvoiceFacts.generateInvoice_run.
  cbn [fst InvoiceData.dueDate]. split.
  - destruct (JS.strict_eq (TransactionData.paymentTerms td) "later") eqn:Hterms.
    + apply JSFacts.strict_eq_true in Hterms.
      destruct (JS.truthy (TransactionData.dueDate td)) as [hint |] eqn:Hhint.
      * apply JSFacts.truthy_is_Some in Hhint. destruct Hhint as [Hdue Hne].
        split; [intros _; eauto | discriminate].
      * split; [intros H; now contradiction H |].
        intros (_ & hint & Hdue & Hne).
        rewrite Hdue, (JSFacts.truthy_Some hint Hne) in Hhint. discriminate.
    + split; [intros H; now contradiction H |].
      intros (Hlater & _). rewrite Hlater in Hterms. discriminate.
  - intros hint -> -> Hne. cbn [JS.strict_eq].
    rewrite (JSFacts.truthy_Some hint Hne). cbn.
    split; [reflexivity |].
    intros parsed Hweek Hmonth Hparsed. unfold parseDueDate.
    rewrite (not_contains_includes _ _ Hweek).
    rewrite (not_contains_includes _ _ Hmonth).
    now rewrite Hparsed.
Qed.

(** A run of X24: terms 'later' with the hint "next month" in UTC at the end
    of January. *)
Lemma generateInvoice_dueDate_presence_witness :
  InvoiceData.dueDate
    (fst (generateInvoice Sample.invoiceHost "retail" Sample.dueNextMonth))
  = Some "2025-03-03"%string.
Proof.
  destruct (generateInvoice_dueDate_presence Sample.invoiceHost "retail"
              Sample.dueNextMonth) as [_ H].
  destruct (H "next month"%string) as [-> _];
    [reflexivity | reflexivity | discriminate | vm_compute; reflexivity].
Defined.

(** X14.  The payment QR never stops synthesis: when the encoder fails the
    invoice is produced with an empty [qrCode].  For a currency other than
    THB, PHP, IDR and VND the encoded payload is the plain text
    "Payment Amount: <total> <currency>". *)
Theorem generateInvoice_qrCode (host : InvoiceHost)
    (businessType : string) (td : TransactionData.t) :
  let invoice := fst (generateInvoice host businessType td) in
  ((forall payload, exists e, QRCode_toDataURL host payload = JS.Thrown e) ->
   InvoiceData.qrCode invoice = ""%string) /\
  (forall url,
     ~ In (TransactionData.currency td) ["THB"; "PHP"; "IDR"; "VND"]%string ->
     QRCode_toDataURL host
       (String.append "Payment Amount: "
          (String.append (Number_toString host (TransactionData.total td))
             (String.append " " (TransactionData.currency td))))
     = JS.Returned url ->
     InvoiceData.qrCode invoice = url).
Proof.
  intros invoice. unfold invoice. rewrite InvoiceFacts.generateInvoice_run.
  cbn [fst InvoiceData.qrCode].
  unfold generatePaymentQR, bind, read, ret. split.
  - intros Hfail.
    match goal with
    | |- context [QRCode_toDataURL host ?payload] =>
        destruct (Hfail payload) as [e ->]
    end. reflexivity.
  - intros url Hcur Hok. cbn in Hcur.
    destruct (String.eqb_spec (TransactionData.currency td) "THB");
      [intuition congruence |].
    destruct (String.eqb_spec (TransactionData.currency td) "PHP");
      [intuition congruence |].
    destruct (String.eqb_spec (TransactionData.currency td) "IDR");
      [intuition congruence |].
    destruct (String.eqb_spec (TransactionData.currency td) "VND");
      [intuition congruence |].
    now rewrite Hok.
Qed.

Lemma generateInvoice_qrCode_witness :
  InvoiceData.qrCode
    (fst (generateInvoice Sample.invoiceHost "retail"
            (AIService.getMockTransactionData "en")))
  = ""%string.
Proof.
  destruct (generateInvoice_qrCode Sample.invoiceHost "retail"
              (AIService.getMockTransactionData "en")) as [H _].
  apply H. intros payload. now exists "encoder failure"%string.
Defined.

(** X15.  For a business type that names no property of
    [Object.prototype], the style tag of an invoice is one of the five tags
    of the table, 'standard' for a business type the table does not know;
    and every business type that has a branded identity has a tag of its
    own, not 'standard'. *)
Theorem selectTemplate_tags (businessType : string) :
  JS.inherited businessType = false ->
  In (selectTemplate businessType) Spec2.templateTags /\
  (~ In businessType ["street food"; "repair shop"; "sari-sari store";
                      "tailor"; "retail"]%string ->
   selectTemplate businessType = "standard"%string) /\
  (JS.get businessType templates <> None ->
   selectTemplate businessType <> "standard"%string) /\
  (forall language,
     getBusinessTemplate businessType language <> genericBusiness ->
     selectTemplate businessType <> "standard"%string).
Proof.
  intros _.
  assert (Hbranded : JS.get businessType templates <> None ->
                     selectTemplate businessType <> "standard"%string).
  { unfold selectTemplate, templates. cbn [JS.get].
    repeat match goal with
           | |- context [String.eqb businessType ?k] =>
               destruct (String.eqb_spec businessType k); try subst businessType
           end; cbn; try discriminate; intros H; now contradiction H. }
  split; [| split; [| split; [exact Hbranded |]]].
  - unfold selectTemplate, Spec2.templateTags. cbn [JS.get].
    repeat match goal with
           | |- context [String.eqb businessType ?k] =>
               destruct (String.eqb_spec businessType k); try subst businessType
           end; cbn; tauto.
  - unfold selectTemplate. cbn [JS.get]. intros Hout.
    repeat match goal with
           | |- context [String.eqb businessType ?k] =>
               destruct (String.eqb_spec businessType k); try subst businessType
           end; cbn; try reflexivity; exfalso; apply Hout; cbn; tauto.
  - intros language Hne. apply Hbranded. intros Hnone.
    apply Hne. unfold getBusinessTemplate. now rewrite Hnone.
Qed.

Lemma selectTemplate_tags_witness :
  selectTemplate "tailor" <> "standard"%string.
Proof.
  destruct (selectTemplate_tags "tailor") as (_ & _ & H & _);
    [reflexivity |].
  apply H. discriminate.
Defined.




End InvoiceMore.

(** ** The rate limiter *)

Module RateLimiterMore.
Import RateLimiter.

Lemma filter_all {A : Type} (f : A -> bool) (l : list A) :
  (forall x, In x l -> f x = true) -> List.filter f l = l.
Proof.
  induction l as [| a l IH]; intros H; [reflexivity |].
  cbn. rewrite (H a) by now left. f_equal. apply IH.
  intros x Hx. apply H. now right.
Qed.

Lemma filter_none {A : Type} (f : A -> bool) (l : list A) :
  (forall x, In x l -> f x = false) -> List.filter f l = [].
Proof.
  induction l as [| a l IH]; intros H; [reflexivity |].
  cbn. rewrite (H a) by now left. apply IH.
  intros x Hx. apply H. now right.
Qed.

(** One request: what is stored and whether it goes on. *)
Lemma limit_step (config : Config) (now : Z) (key : string)
    (rlStore : gmap string (list Z)) :
  let recent :=
    List.filter (fun ts => (now - rlWindowMs config <? ts)%Z)
      (JS.or_obj (rlStore !! key) []) ++ [now] in
  limit config now key rlStore
  = ((Z.of_nat (length recent) <=? rlMax config)%Z, <[ key := recent ]> rlStore).
Proof.
  intros recent. unfold limit. fold recent.
  rewrite Z.leb_antisym.
  now destruct (rlMax config <? Z.of_nat (length recent))%Z.
Qed.

Lemma filter_laterThan (start : Z) (record : list Z) :
  List.filter (fun ts => (start <? ts)%Z) record = Spec2.laterThan start record.
Proof.
  induction record as [| ts record IH]; [reflexivity |].
  cbn. rewrite IH, Z.leb_antisym. now destruct (start <? ts)%Z.
Qed.

Lemma count_laterThan (start ts : Z) (record : list Z) :
  count_occ Z.eq_dec (Spec2.laterThan start record) ts
  = if (start <? ts)%Z then count_occ Z.eq_dec record ts else 0%nat.
Proof.
  induction record as [| t record IH]; [now destruct (start <? ts)%Z |].
  cbn [Spec2.laterThan].
  destruct (Z.leb_spec t start) as [Hout | Hin].
  - rewrite IH. cbn [count_occ].
    destruct (Z.eq_dec t ts) as [-> | Hne]; [| reflexivity].
    destruct (Z.ltb_spec start ts); [lia | reflexivity].
  - cbn [count_occ]. rewrite IH.
    destruct (Z.eq_dec t ts) as [-> | Hne]; [| reflexivity].
    destruct (Z.ltb_spec start ts); [reflexivity | lia].
Qed.

(** X17.  One request leaves the timestamps of every other key alone.  Under
    its own key it stores the time of the request, admitted or not, behind
    the earlier timestamps later than the start of the window, in their
    order and each as often as it was recorded; it is admitted exactly when
    those and the new one are at most [rlMax] in all.  A client whose
    earlier requests all left the window is admitted whenever [rlMax] is at
    least 1, and its record starts afresh. *)
Theorem limit_window (config : Config) (now : Z) (key : string)
    (rlStore : gmap string (list Z)) :
  let admitted := fst (limit config now key rlStore) in
  let after := snd (limit config now key rlStore) in
  let earlier := JS.or_obj (rlStore !! key) [] in
  let kept := Spec2.laterThan (now - rlWindowMs config) earlier in
  (forall k, k <> key -> after !! k = rlStore !! k) /\
  after !! key = Some (kept ++ [now]) /\
  (forall ts,
     count_occ Z.eq_dec kept ts
     = if (now - rlWindowMs config <? ts)%Z then count_occ Z.eq_dec earlier ts
       else 0%nat) /\
  (admitted = true <-> (Z.of_nat (length kept) + 1 <= rlMax config)%Z) /\
  ((forall ts, In ts earlier -> (ts <= now - rlWindowMs config)%Z) ->
   (1 <= rlMax config)%Z ->
   admitted = true /\ after !! key = Some [now]).
Proof.
  intros admitted after earlier kept. unfold admitted, after.
  rewrite limit_step. cbn [fst snd]. fold earlier.
  rewrite filter_laterThan. fold kept.
  split; [| split; [| split; [| split]]].
  - intros k Hk. now rewrite lookup_insert_ne.
  - apply lookup_insert_eq.
  - intros ts. apply count_laterThan.
  - rewrite length_app, Z.leb_le. cbn. lia.
  - intros Hquiet Hmax.
    assert (Hnone : kept = []).
    { unfold kept. rewrite <- filter_laterThan. apply filter_none.
      intros ts Hts. apply Z.ltb_ge. now apply Hquiet. }
    rewrite Hnone. cbn. split; [apply Z.leb_le; lia | apply lookup_insert_eq].
Qed.

Lemma limit_window_witness :
  fst (limit defaultConfig 70000 "::1:process" {[ "::1:process"%string := [1000; 2000]%Z ]})
  = true /\
  snd (limit defaultConfig 70000 "::1:process" {[ "::1:process"%string := [1000; 2000]%Z ]})
    !! "::1:process"%string
  = Some [70000%Z].
Proof.
  destruct (limit_window defaultConfig 70000 "::1:process"
              {[ "::1:process"%string := [1000; 2000]%Z ]}) as (_ & _ & _ & _ & H).
  apply H.
  - rewrite lookup_singleton_eq. cbn. intros ts [<- | [<- | []]]; lia.
  - cbn. lia.
Defined.

(** Requests in one window on top of a record that lies in the same
    window. *)
Lemma serve_in_window (config : Config) (key : string) (lo : Z)
    (times : list Z) :
  forall (rlStore : gmap string (list Z)) (prior : list Z),
    JS.or_obj (rlStore !! key) [] = prior ->
    (forall t, In t prior -> (lo <= t)%Z) ->
    (forall t, In t times -> (lo <= t < lo + rlWindowMs config)%Z) ->
    fst (Spec2.serve config key times rlStore)
    = map (fun i => (Z.of_nat (length prior + i) <=? rlMax config)%Z)
        (seq 1 (length times)).
Proof.
  induction times as [| now times IH]; intros rlStore prior Hprior Hlo Hin;
    [reflexivity |].
  cbn [Spec2.serve]. rewrite limit_step, Hprior.
  rewrite filter_all.
  - specialize (IH (<[ key := prior ++ [now] ]> rlStore) (prior ++ [now])).
    destruct (Spec2.serve config key times (<[ key := prior ++ [now] ]> rlStore))
      as [rest store'] eqn:Hserve.
    cbn [fst] in *. cbn [length seq map]. f_equal.
    + now rewrite length_app.
    + rewrite IH.
      * rewrite <- (seq_shift (length times) 1), map_map.
        apply map_ext. intros i.
        rewrite length_app. cbn. f_equal. f_equal. lia.
      * now rewrite lookup_insert_eq.
      * intros t Ht. apply in_app_or in Ht. destruct Ht as [Ht | [<- | []]].
        -- now apply Hlo.
        -- apply Hin. now left.
      * intros t Ht. apply Hin. now right.
  - intros ts Hts. apply Z.ltb_lt.
    specialize (Hlo ts Hts). specialize (Hin now (or_introl eq_refl)). lia.
Qed.

(** X18.  Of the requests a fresh client makes within one window, in
    whatever order their times come, exactly the first [rlMax] are
    admitted: the i-th goes on if and only if [i <= rlMax]. *)
Theorem serve_burst (config : Config) (key : string) (lo : Z)
    (times : list Z) (rlStore : gmap string (list Z)) :
  rlStore !! key = None ->
  (forall t, In t times -> (lo <= t < lo + rlWindowMs config)%Z) ->
  fst (Spec2.serve config key times rlStore)
  = map (fun i => (Z.of_nat i <=? rlMax config)%Z) (seq 1 (length times)).
Proof.
  intros Hfresh Hin.
  rewrite (serve_in_window config key lo times rlStore []).
  - reflexivity.
  - now rewrite Hfresh.
  - intros t [].
  - exact Hin.
Qed.

(** A run of X18 with a limit of two requests a minute: three requests in
    three seconds, the third is refused. *)
Lemma serve_burst_witness :
  fst (Spec2.serve {| rlWindowMs := 60000; rlMax := 2 |} "::1:voice"
         [1000; 2000; 3000]%Z ∅)
  = [true; true; false].
Proof.
  rewrite (serve_burst _ _ 1000).
  - reflexivity.
  - apply lookup_empty.
  - cbn. intros t [<- | [<- | [<- | []]]]; lia.
Defined.

End RateLimiterMore.

(** ** The voice endpoint *)

(** The route is taken from the rate limiter on: a request that the CORS
    check and the body parsers in front of it have passed on. *)

Module ServerMore.
Import Server.

(** The four answers of the [catch] block. *)
Lemma voiceErrorResponse_shape (message : string) :
  In (voiceErrorResponse message)
    [ {| status := 408; body := Failure "Request timeout" (Some true) |};
      {| status := 503;
         body := Failure "Service temporarily unavailable" (Some true) |};
      {| status := 429; body := Failure "Rate limit exceeded" (Some true) |};
      {| status := 500; body := Failure "Internal server error" (Some true) |} ].
Proof.
  unfold voiceErrorResponse.
  destruct (JS.includes message "timeout"); [cbn; tauto |].
  destruct (JS.includes message "API key" || JS.includes message "authentication");
    [cbn; tauto |].
  destruct (JS.includes message "rate limit" || JS.includes message "quota");
    cbn; tauto.
Qed.

Lemma supported_existsb (language : string) :
  existsb (String.eqb language) supportedLanguages = true
  <-> In language supportedLanguages.
Proof.
  rewrite existsb_exists. split.
  - intros (x & Hx & E). apply String.eqb_eq in E. now subst.
  - intros H. exists language. split; [exact H | apply String.eqb_refl].
Qed.

(** The three ways the handler ends: answered 200 and counted as a success,
    refused with a 400, or answered by the [catch] block; the last two are
    counted as failures. *)
Lemma voiceProcess_outcome (env : VoiceEnv) (req : VoiceRequest)
    (apiStats : ApiStats) :
  let response := fst (voiceProcess env req apiStats) in
  let after := snd (voiceProcess env req apiStats) in
  (status response = 200%Z /\
   (exists transcription transactionData invoiceData invoiceHTML,
      body response
      = VoiceResult transcription transactionData invoiceData invoiceHTML
          (processingTime env)) /\
   after = countSuccess (processingTime env) (Spec2.counted env apiStats)) \/
  (status response = 400%Z /\
   (exists error, body response = Failure error None) /\
   after = countFailure (Spec2.counted env apiStats)) \/
  ((exists message, response = voiceErrorResponse message) /\
   after = countFailure (Spec2.counted env apiStats)).
Proof.
  cbv zeta. unfold voiceProcess. fold (Spec2.counted env apiStats).
  destruct (negb (existsb (String.eqb (JS.or_obj (body_language req) "en"%string))
                    supportedLanguages)).
  { right. left. cbn. eauto. }
  destruct (file req) as [audioFile |].
  2: { right. left. cbn. eauto. }
  destruct (maxFileSize <? size audioFile)%Z.
  { right. left. cbn. eauto. }
  destruct (race (transcriptionTimedOut env) "Transcription timeout"
              (IO.result (AIService.transcribeAudio (ai env) (buffer audioFile)
                            (JS.or_obj (body_language req) "en"%string))))
    as [transcription | e1]; cbn [andThen];
    [| right; right; cbn [fst snd]; eauto].
  destruct (race (processingTimedOut env) "Transaction processing timeout"
              (IO.result (AIService.processTransaction (ai env) transcription
                            (JS.or_obj (body_language req) "en"%string))))
    as [transactionData | e2]; cbn [andThen];
    [| right; right; cbn [fst snd]; eauto].
  match goal with
  | |- context [generateInvoiceHTML env ?invoice] =>
      destruct (generateInvoiceHTML env invoice) as [invoiceHTML | e3]
  end; cbn [andThen];
    [| right; right; cbn [fst snd]; eauto].
  left. cbn. eauto 10.
Qed.

(** The route, stage by stage. *)
Lemma voiceRoute_run (config : RateLimiter.Config) (env : VoiceEnv) (now : Z)
    (req : HttpRequest) (state : State) :
  let limited :=
    RateLimiter.limit config now (RateLimiter.key (ip req) voicePath)
      (rlStore state) in
  voiceRoute config env now req state
  = if fst limited then
      match upload req with
      | JS.Thrown error =>
          ({| status := 500; body := ErrorPage error |},
           {| rlStore := snd limited; apiStats := apiStats state |})
      | JS.Returned voiceRequest =>
          (fst (voiceProcess env voiceRequest (apiStats state)),
           {| rlStore := snd limited;
              apiStats := snd (voiceProcess env voiceRequest (apiStats state)) |})
      end
    else
      ({| status := 429; body := Failure "Rate limit exceeded" None |},
       {| rlStore := snd limited; apiStats := apiStats state |}).
Proof.
  cbv zeta. unfold voiceRoute.
  destruct (RateLimiter.limit config now (RateLimiter.key (ip req) voicePath)
              (rlStore state)) as [admitted store].
  cbn [fst snd]. destruct admitted; cbn [negb]; [| reflexivity].
  destruct (upload req) as [voiceRequest | error]; [| reflexivity].
  now destruct (voiceProcess env voiceRequest (apiStats state)).
Qed.

(** What a response of the handler looks like. *)
Lemma voiceProcess_fromHandler (env : VoiceEnv) (req : VoiceRequest)
    (apiStats : ApiStats) :
  Spec2.fromHandler (fst (voiceProcess env req apiStats)) = true.
Proof.
  destruct (voiceProcess_outcome env req apiStats)
    as [(_ & (t & td & inv & html & Hb) & _)
       | [(H400 & (error & Hb) & _) | ((message & Hm) & _)]];
    unfold Spec2.fromHandler.
  - now rewrite Hb.
  - now rewrite Hb, H400.
  - rewrite Hm.
    pose proof (voiceErrorResponse_shape message) as H. cbn in H.
    destruct H as [<- | [<- | [<- | [<- | []]]]]; reflexivity.
Qed.

(** One request of the route and the statistics. *)
Lemma voiceRoute_counts (config : RateLimiter.Config) (env : VoiceEnv) (now : Z)
    (req : HttpRequest) (state : State) :
  let response := fst (voiceRoute config env now req state) in
  let before := apiStats state in
  let after := apiStats (snd (voiceRoute config env now req state)) in
  let handled := if Spec2.fromHandler response then 1%Z else 0%Z in
  let succeeded := if (status response =? 200)%Z then 1%Z else 0%Z in
  totalRequests after = (totalRequests before + handled)%Z /\
  successfulRequests after = (successfulRequests before + succeeded)%Z /\
  failedRequests after = (failedRequests before + (handled - succeeded))%Z.
Proof.
  cbv zeta. rewrite voiceRoute_run. cbv zeta.
  destruct (fst (RateLimiter.limit config now
                   (RateLimiter.key (ip req) voicePath) (rlStore state))).
  - destruct (upload req) as [voiceRequest | error]; cbn [fst snd apiStats].
    + rewrite voiceProcess_fromHandler.
      destruct (voiceProcess_outcome env voiceRequest (apiStats state))
        as [(H200 & _ & ->) | [(H400 & _ & ->) | ((message & Hm) & ->)]].
      * rewrite H200. cbn. lia.
      * rewrite H400. cbn. lia.
      * rewrite Hm.
        pose proof (voiceErrorResponse_shape message) as H. cbn in H.
        destruct H as [<- | [<- | [<- | [<- | []]]]]; cbn; lia.
    + cbn. lia.
  - cbn. lia.
Qed.

(** The statistics after a list of requests, from any state. *)
Lemma serveAll_accounting (config : RateLimiter.Config)
    (requests : list (VoiceEnv * Z * HttpRequest)) :
  forall state : State,
    let answers := fst (Spec2.serveAll config requests state) in
    let after := apiStats (snd (Spec2.serveAll config requests state)) in
    length answers = length requests /\
    totalRequests after
    = (totalRequests (apiStats state) + Spec2.count Spec2.fromHandler answers)%Z /\
    successfulRequests after
    = (successfulRequests (apiStats state)
       + Spec2.count (fun r => (status r =? 200)%Z) answers)%Z /\
    failedRequests after
    = (failedRequests (apiStats state)
       + (Spec2.count Spec2.fromHandler answers
          - Spec2.count (fun r => (status r =? 200)%Z) answers))%Z.
Proof.
  induction requests as [| [[env now] req] requests IH]; intros state.
  - cbn. unfold Spec2.count. cbn. lia.
  - cbn [Spec2.serveAll].
    pose proof (voiceRoute_counts config env now req state) as Hstep.
    cbv zeta in Hstep.
    destruct (voiceRoute config env now req state) as [response state1].
    cbn [fst snd] in Hstep.
    specialize (IH state1). cbv zeta in IH.
    destruct (Spec2.serveAll config requests state1) as [answers after].
    cbn [fst snd] in *. destruct IH as (Hlen & Ht & Hs & Hf).
    destruct Hstep as (Ht1 & Hs1 & Hf1).
    unfold Spec2.count in *. cbn [List.filter length].
    split; [now rewrite Hlen |].
    destruct (Spec2.fromHandler response), (status response =? 200)%Z;
      cbn [length]; lia.
Qed.

(** X19.  From a fresh server, after any list of requests to the voice
    route: [totalRequests] is the number of requests that reached the
    handler (those the rate limiter refused and those that ended in an error
    of the upload middleware are not counted), [successfulRequests] the
    number answered 200, and [failedRequests] the number of the other
    requests that reached the handler. *)
Theorem apiStats_accounting (config : RateLimiter.Config)
    (requests : list (VoiceEnv * Z * HttpRequest)) :
  let answers := fst (Spec2.serveAll config requests Spec2.initialState) in
  let after := apiStats (snd (Spec2.serveAll config requests Spec2.initialState)) in
  length answers = length requests /\
  totalRequests after = Spec2.count Spec2.fromHandler answers /\
  successfulRequests after = Spec2.count (fun r => (status r =? 200)%Z) answers /\
  (totalRequests after = successfulRequests after + failedRequests after)%Z /\
  (totalRequests after <= Z.of_nat (length requests))%Z.
Proof.
  pose proof (serveAll_accounting config requests Spec2.initialState) as H.
  cbv zeta in *. destruct H as (Hlen & Ht & Hs & Hf). cbn in Ht, Hs, Hf.
  split; [exact Hlen |]. split; [exact Ht |]. split; [exact Hs |].
  split; [lia |].
  rewrite Ht, <- Hlen. unfold Spec2.count.
  apply Nat2Z.inj_le, List.filter_length_le.
Qed.

(** The backend's transcription always returns a transcript that is not
    empty. *)
Lemma transcribeAudio_returns
    (host : Host) (audioBuffer : list Byte.byte) (language : string) :
  exists text,
    IO.result (AIService.transcribeAudio host audioBuffer language)
    = JS.Returned text /\ text <> ""%string.
Proof.
  pose proof (AIServiceMore.getMockTranscription_nonempty language) as Hmock.
  unfold AIService.transcribeAudio. rewrite IOFacts.try_catch_const.
  destruct (negb (JS.truthy_str (OPENAI_API_KEY host))); [eauto |].
  rewrite IOFacts.result_bind. cbn [IO.call IO.result snd].
  destruct (fs_writeFileSync host audioBuffer) as [[] | e0]; [| eauto].
  rewrite IOFacts.result_bind. cbn [IO.call IO.result snd].
  destruct (audio_transcriptions_create (openai host) audioBuffer
              (AIService.mapLanguageForWhisper language)) as [answer | e1];
    [| eauto].
  cbn. eexists. split; [reflexivity |].
  destruct (String.eqb_spec answer ""%string); assumption.
Qed.

Lemma wellFormed_checks (req : VoiceRequest) :
  Spec2.wellFormed req ->
  negb (existsb (String.eqb (JS.or_obj (body_language req) "en"%string))
          supportedLanguages) = false /\
  exists audioFile,
    file req = Some audioFile /\ (maxFileSize <? size audioFile)%Z = false.
Proof.
  intros [Hlang (audioFile & Hfile & Hsize)]. split.
  - apply negb_false_iff. now apply supported_existsb.
  - exists audioFile. split; [exact Hfile | apply Z.ltb_ge; lia].
Qed.

(** X20.  No failure of a typed provider reaches the client of the voice
    route.  A request that the rate limiter admits and the upload
    middleware hands on well formed, and whose two timed stages finish in
    time, is answered 200 whatever the transcription and chat providers do,
    as long as the documents of the chat provider are typed and the
    renderer returns a page.  The answer carries a transcript that is not
    empty, the transaction extracted from it and the invoice synthesised
    from that transaction, and the request is counted as a success. *)
Theorem voiceRoute_absorbs_provider_failures
    (config : RateLimiter.Config) (env : VoiceEnv) (now : Z)
    (req : HttpRequest) (state : State) (voiceRequest : VoiceRequest) :
  fst (RateLimiter.limit config now (RateLimiter.key (ip req) voicePath)
         (rlStore state)) = true ->
  upload req = JS.Returned voiceRequest ->
  Spec2.wellFormed voiceRequest ->
  Spec2.typedProvider (ai env) ->
  transcriptionTimedOut env = false ->
  processingTimedOut env = false ->
  (forall invoice, exists html, generateInvoiceHTML env invoice = JS.Returned html) ->
  exists transcription transactionData invoiceData invoiceHTML,
    fst (voiceRoute config env now req state)
    = {| status := 200;
         body := VoiceResult transcription transactionData invoiceData
                   invoiceHTML (processingTime env) |} /\
    transcription <> ""%string /\
    IO.result (AIService.processTransaction (ai env) transcription
                 (JS.or_obj (body_language voiceRequest) "en"%string))
    = JS.Returned transactionData /\
    invoiceData
    = fst (InvoiceService.generateInvoice (invoicing env)
             (JS.or_str (TransactionData.businessType transactionData) "general")
             transactionData) /\
    InvoiceData.items invoiceData = TransactionData.items transactionData /\
    InvoiceData.total invoiceData = TransactionData.total transactionData /\
    apiStats (snd (voiceRoute config env now req state))
    = countSuccess (processingTime env) (Spec2.counted env (apiStats state)).
Proof.
  intros Hadmitted Hupload Hreq _ Ht Hp Hrender.
  destruct (wellFormed_checks voiceRequest Hreq)
    as [Hlang (audioFile & Hfile & Hsize)].
  rewrite voiceRoute_run. cbv zeta. rewrite Hadmitted, Hupload.
  cbn [fst snd apiStats].
  unfold voiceProcess. fold (Spec2.counted env (apiStats state)).
  rewrite Hlang, Hfile, Hsize, Ht, Hp. cbn [race].
  destruct (transcribeAudio_returns (ai env) (buffer audioFile)
              (JS.or_obj (body_language voiceRequest) "en"%string))
    as (transcription & -> & Hne).
  cbn [andThen].
  rewrite ExtractionFacts.processTransaction_result. cbn [andThen].
  match goal with
  | |- context [generateInvoiceHTML env ?invoice] =>
      destruct (Hrender invoice) as [html ->]
  end.
  cbn [andThen fst snd].
  eexists _, _, _, _. split; [reflexivity |]. split; [exact Hne |].
  split; [apply ExtractionFacts.processTransaction_result |].
  split; [reflexivity |].
  rewrite InvoiceFacts.generateInvoice_run. cbn. repeat split.
Qed.

(** A run of X20 on a server whose chat provider rejects the first request
    and answers the second with one item without a total: the Indonesian
    request is answered 200 with the provider's transcript and the validated
    transaction, 10000 rupiah, and counted as a success. *)
Lemma voiceRoute_absorbs_provider_failures_witness :
  let run := voiceRoute RateLimiter.defaultConfig Sample2.answeringEnv
               1738315800000 Sample2.indonesianUpload Spec2.initialState in
  successfulRequests (apiStats (snd run)) = 1%Z /\
  exists transactionData invoiceData,
    fst run
    = {| status := 200;
         body := VoiceResult "dua kopi" transactionData invoiceData
                   "<html>" 2840 |} /\
    TransactionData.total transactionData = 0 + 2 * 5000 /\
    TransactionData.currency transactionData = "IDR"%string /\
    InvoiceData.total invoiceData = 0 + 2 * 5000.
Proof.
  intros run.
  destruct (voiceRoute_absorbs_provider_failures RateLimiter.defaultConfig
              Sample2.answeringEnv 1738315800000 Sample2.indonesianUpload
              Spec2.initialState
              {| body_language := Some "id"%string;
                 file := Some {| size := 4096;
                                 mimetype := Some "audio/webm"%string;
                                 buffer := [] |} |})
    as (transcription & td & invoiceData & html & H & _ & Htd & _ & _ & Htotal
        & Hstats).
  - reflexivity.
  - reflexivity.
  - split; [cbn; auto |]. eexists. split; [reflexivity |].
    unfold maxFileSize. cbn. lia.
  - intros text doc Hparse. right.
    cbn in Hparse. destruct (String.eqb text "{json}"); [| discriminate].
    injection Hparse as <-. split; [reflexivity |]. intros type Htype.
    discriminate Htype.
  - reflexivity.
  - reflexivity.
  - intros invoice. now exists "<html>"%string.
  - fold run in H, Hstats. split; [now rewrite Hstats |].
    pose proof (f_equal (fun r => match body r with
                                  | VoiceResult t _ _ h _ => (t, h)
                                  | _ => (""%string, ""%string)
                                  end) H) as Hth.
    vm_compute in Hth. injection Hth as <- <-.
    vm_compute in Htd. injection Htd as <-.
    eexists _, invoiceData. split; [exact H |].
    rewrite Htotal. repeat split.
Defined.

(** X21.  The voice route answers 200, 400, 408, 429, 500 or 503.  A
    request over the limit is answered 429 "Rate limit exceeded" and a
    request whose upload ends in an error (a file of more than 10 MB among
    them) gets the 500 page of the error handler; neither is marked
    retryable and neither is counted in the statistics.  A failure is
    marked retryable exactly when it comes from the [catch] block of the
    handler, with one of its four answers; the other failures are the 400s
    of the handler and the 429 of the limiter.  A well-formed request whose
    transcription, or whose extraction, loses against its timer is answered
    408 "Request timeout". *)
Theorem voiceRoute_failures
    (config : RateLimiter.Config) (env : VoiceEnv) (now : Z)
    (req : HttpRequest) (state : State) :
  let response := fst (voiceRoute config env now req state) in
  let after := snd (voiceRoute config env now req state) in
  let admitted :=
    fst (RateLimiter.limit config now (RateLimiter.key (ip req) voicePath)
           (rlStore state)) in
  In (status response) [200; 400; 408; 429; 500; 503]%Z /\
  (admitted = false ->
   response = {| status := 429; body := Failure "Rate limit exceeded" None |} /\
   apiStats after = apiStats state) /\
  (forall error,
     admitted = true -> upload req = JS.Thrown error ->
     response = {| status := 500; body := ErrorPage error |} /\
     apiStats after = apiStats state) /\
  (forall error retryable,
     body response = Failure error retryable ->
     (retryable = None /\
      (status response = 400%Z \/
       (status response = 429%Z /\ admitted = false))) \/
     (retryable = Some true /\ admitted = true /\
      In (status response, error)
        [ (408%Z, "Request timeout"%string);
          (503%Z, "Service temporarily unavailable"%string);
          (429%Z, "Rate limit exceeded"%string);
          (500%Z, "Internal server error"%string) ])) /\
  (forall voiceRequest,
     admitted = true -> upload req = JS.Returned voiceRequest ->
     Spec2.wellFormed voiceRequest ->
     transcriptionTimedOut env = true \/ processingTimedOut env = true ->
     response = {| status := 408; body := Failure "Request timeout" (Some true) |}).
Proof.
  cbv zeta. rewrite voiceRoute_run. cbv zeta.
  destruct (fst (RateLimiter.limit config now
                   (RateLimiter.key (ip req) voicePath) (rlStore state))).
  2: { cbn [fst snd status body apiStats].
       split; [cbn; tauto |]. split; [intros _; split; reflexivity |].
       split; [intros; discriminate |]. split; [| intros; discriminate].
       intros error retryable [= <- <-]. left. tauto. }
  destruct (upload req) as [voiceRequest | error0]; cbn [fst snd apiStats].
  2: { cbn [status body].
       split; [cbn; tauto |]. split; [intros; discriminate |].
       split; [intros error _ [= <-]; split; reflexivity |].
       split; intros; discriminate. }
  pose proof (voiceProcess_outcome env voiceRequest (apiStats state)) as Hout.
  cbv zeta in Hout.
  split; [| split; [intros; discriminate | split; [intros; discriminate | split]]].
  - destruct Hout as [(H & _) | [(H & _) | ((message & H) & _)]];
      rewrite H; cbn; try tauto.
    pose proof (voiceErrorResponse_shape message) as Hs. cbn in Hs.
    destruct Hs as [<- | [<- | [<- | [<- | []]]]]; cbn; tauto.
  - intros error retryable Hbody.
    destruct Hout as [(_ & (t & td & inv & html & Hb) & _)
                     | [(H400 & (error' & Hb) & _) | ((message & Hm) & _)]].
    + rewrite Hb in Hbody. discriminate.
    + rewrite Hb in Hbody. injection Hbody as <- <-. left. tauto.
    + rewrite Hm in Hbody |- *.
      pose proof (voiceErrorResponse_shape message) as Hs. cbn in Hs.
      destruct Hs as [Hs | [Hs | [Hs | [Hs | []]]]];
        rewrite <- Hs in Hbody |- *;
        cbn in Hbody |- *; injection Hbody as <- <-; right; tauto.
  - intros voiceRequest' _ [= <-] Hreq Hslow.
    destruct (wellFormed_checks voiceRequest Hreq)
      as [Hlang (audioFile & Hfile & Hsize)].
    unfold voiceProcess. rewrite Hlang, Hfile, Hsize.
    destruct (transcriptionTimedOut env); cbn [race andThen fst]; [reflexivity |].
    destruct Hslow as [H | H]; [discriminate |]. rewrite H. cbn [race].
    destruct (transcribeAudio_returns (ai env) (buffer audioFile)
                (JS.or_obj (body_language voiceRequest) "en"%string))
      as (transcription & -> & _).
    reflexivity.
Qed.

(** A run of X21: an upload of more than 10 MB is answered by the error
    handler and leaves the statistics as they were. *)
Lemma voiceRoute_failures_witness :
  let run := voiceRoute RateLimiter.defaultConfig Sample2.failingEnv
               1738315800000 Sample2.oversizedUpload Spec2.initialState in
  fst run = {| status := 500; body := ErrorPage "File too large" |} /\
  apiStats (snd run) = initialStats.
Proof.
  intros run.
  destruct (voiceRoute_failures RateLimiter.defaultConfig Sample2.failingEnv
              1738315800000 Sample2.oversizedUpload Spec2.initialState)
    as (_ & _ & H & _).
  apply (H "File too large"%string); reflexivity.
Defined.

(** X22.  The checks of the handler, in their order, for a request the rate
    limiter admits and the upload middleware hands on: a language outside
    the five supported ones (the empty string included; a missing language
    counts as 'en') is answered 400 "Invalid language"; then a missing file
    400 "No audio file provided"; each counts as one failed request.  The
    upload middleware hands on no file of more than 10 MB, so the third
    check never fires: no response of the route is "File too large", and a
    request in a supported language with a file is not answered 400. *)
Theorem voiceRoute_validation
    (config : RateLimiter.Config) (env : VoiceEnv) (now : Z)
    (req : HttpRequest) (state : State) (voiceRequest : VoiceRequest) :
  fst (RateLimiter.limit config now (RateLimiter.key (ip req) voicePath)
         (rlStore state)) = true ->
  upload req = JS.Returned voiceRequest ->
  let language := JS.or_obj (body_language voiceRequest) "en"%string in
  let response := fst (voiceRoute config env now req state) in
  let after := snd (voiceRoute config env now req state) in
  let refused error :=
    response = {| status := 400; body := Failure error None |} /\
    apiStats after = countFailure (Spec2.counted env (apiStats state)) in
  (~ In language supportedLanguages -> refused "Invalid language"%string) /\
  (In language supportedLanguages -> file voiceRequest = None ->
   refused "No audio file provided"%string) /\
  (Spec2.uploadLimit req ->
   (forall retryable, body response <> Failure "File too large" retryable) /\
   (In language supportedLanguages -> file voiceRequest <> None ->
    status response <> 400%Z)).
Proof.
  intros Hadmitted Hupload language response after refused.
  unfold refused, response, after, language.
  rewrite voiceRoute_run. cbv zeta. rewrite Hadmitted, Hupload.
  cbn [fst snd apiStats].
  assert (Hyes : In (JS.or_obj (body_language voiceRequest) "en"%string)
                   supportedLanguages ->
                 negb (existsb (String.eqb (JS.or_obj (body_language voiceRequest)
                                              "en"%string))
                         supportedLanguages) = false).
  { intros H. apply negb_false_iff. now apply supported_existsb. }
  assert (Hcatch : forall message,
            status (voiceErrorResponse message) <> 400%Z /\
            forall retryable,
              body (voiceErrorResponse message)
              <> Failure "File too large" retryable).
  { intros message.
    pose proof (voiceErrorResponse_shape message) as Hs. cbn in Hs.
    destruct Hs as [<- | [<- | [<- | [<- | []]]]]; cbn;
      split; try lia; intros retryable; discriminate. }
  split; [| split].
  - intros Hno. unfold voiceProcess.
    destruct (existsb (String.eqb (JS.or_obj (body_language voiceRequest)
                                     "en"%string))
                supportedLanguages) eqn:E.
    + apply supported_existsb in E. contradiction.
    + cbn. split; reflexivity.
  - intros Hlang Hfile. unfold voiceProcess. rewrite (Hyes Hlang), Hfile.
    cbn. split; reflexivity.
  - intros Hlimit.
    assert (Hlate : forall audioFile,
              file voiceRequest = Some audioFile ->
              negb (existsb (String.eqb (JS.or_obj (body_language voiceRequest)
                                           "en"%string))
                      supportedLanguages) = false ->
              status (fst (voiceProcess env voiceRequest (apiStats state)))
              <> 400%Z /\
              forall retryable,
                body (fst (voiceProcess env voiceRequest (apiStats state)))
                <> Failure "File too large" retryable).
    { intros audioFile Hfile Hlang.
      pose proof (Hlimit voiceRequest audioFile Hupload Hfile) as Hsize.
      apply Z.ltb_ge in Hsize.
      unfold voiceProcess. rewrite Hlang, Hfile, Hsize.
      destruct (race (transcriptionTimedOut env) "Transcription timeout" _)
        as [transcription | e1]; cbn [andThen]; [| apply Hcatch].
      destruct (race (processingTimedOut env) "Transaction processing timeout" _)
        as [td | e2]; cbn [andThen]; [| apply Hcatch].
      match goal with
      | |- context [generateInvoiceHTML env ?invoice] =>
          destruct (generateInvoiceHTML env invoice) as [html | e3]
      end; cbn [andThen fst]; [| apply Hcatch].
      cbn. split; [lia | discriminate]. }
    split.
    + intros retryable.
      destruct (negb (existsb (String.eqb (JS.or_obj (body_language voiceRequest)
                                             "en"%string))
                        supportedLanguages)) eqn:Hlang.
      * unfold voiceProcess. rewrite Hlang. cbn. discriminate.
      * destruct (file voiceRequest) as [audioFile |] eqn:Hfile.
        -- now apply (Hlate audioFile).
        -- unfold voiceProcess. rewrite Hlang, Hfile. cbn. discriminate.
    + intros Hlang Hfile.
      destruct (file voiceRequest) as [audioFile |] eqn:Hfile';
        [| now contradiction Hfile].
      now apply (Hlate audioFile eq_refl (Hyes Hlang)).
Qed.

(** A run of X22: a request in Khmer without a file is refused for its
    language, and counted. *)
Lemma voiceRoute_validation_witness :
  let run := voiceRoute RateLimiter.defaultConfig Sample2.failingEnv
               1738315800000 Sample2.khmerUpload Spec2.initialState in
  fst run = {| status := 400; body := Failure "Invalid language" None |} /\
  apiStats (snd run)
  = countFailure (Spec2.counted Sample2.failingEnv initialStats).
Proof.
  intros run.
  destruct (voiceRoute_validation RateLimiter.defaultConfig Sample2.failingEnv
              1738315800000 Sample2.khmerUpload Spec2.initialState
              {| body_language := Some "km"%string; file := None |})
    as (H & _).
  - reflexivity.
  - reflexivity.
  - apply H. cbn. intuition discriminate.
Defined.

(** A run of X19: a request that succeeds, one whose upload is too large,
    one that is refused for its language. *)
Example apiStats_after_three_requests :
  let after :=
    apiStats
      (snd (Spec2.serveAll RateLimiter.defaultConfig
              [ (Sample2.failingEnv, 1738315800000%Z, Sample2.thaiUpload);
                (Sample2.failingEnv, 1738315801000%Z, Sample2.oversizedUpload);
                (Sample2.failingEnv, 1738315802000%Z, Sample2.khmerUpload) ]
              Spec2.initialState)) in
  totalRequests after = 2%Z /\ successfulRequests after = 1%Z /\
  failedRequests after = 1%Z /\ averageProcessingTime after = 6350.
Proof. vm_compute. repeat split. Qed.

(** A transcription that loses against its timer. *)
Example slow_transcription_times_out :
  fst (voiceRoute RateLimiter.defaultConfig Sample2.slowEnv 1738315800000
         Sample2.thaiUpload Spec2.initialState)
  = {| status := 408; body := Failure "Request timeout" (Some true) |}.
Proof. vm_compute. reflexivity. Qed.

(** The sixty-first request of a client within a minute: refused by the
    limiter, recorded by it, and not counted in the statistics. *)
Example sixty_first_request :
  let state :=
    {| rlStore := {[ "::1:process"%string := repeat 1738315800000%Z 60 ]};
       apiStats := initialStats |} in
  let run := voiceRoute RateLimiter.defaultConfig Sample2.failingEnv
               1738315801000 Sample2.thaiUpload state in
  fst run = {| status := 429; body := Failure "Rate limit exceeded" None |} /\
  apiStats (snd run) = initialStats /\
  option_map (@length Z) (rlStore (snd run) !! "::1:process"%string) = Some 61%nat.
Proof.
  intros state run. unfold run. rewrite voiceRoute_run. cbv zeta.
  rewrite RateLimiterMore.limit_step. cbn [fst snd].
  unfold state. cbn [rlStore apiStats].
  change (RateLimiter.key (ip Sample2.thaiUpload) voicePath)
    with "::1:process"%string.
  rewrite lookup_singleton_eq. cbn [JS.or_obj].
  match goal with
  | |- context [(?a <=? ?b)%Z] => change (a <=? b)%Z with false
  end.
  cbn [fst snd rlStore apiStats].
  split; [reflexivity | split; [reflexivity |]].
  rewrite lookup_insert_eq. reflexivity.
Qed.

(** The running average is computed in the arithmetic of numbers, one
    rounding at each step: after requests of 4, 4, 4, 4, 4, 4 and 5 ms the
    average times the number of requests is not their sum, 29. *)
Example running_average_rounds :
  let stats :=
    fold_left (fun stats t => countSuccess t stats) [4; 4; 4; 4; 4; 4; 5]%Z
      initialStats in
  successfulRequests stats = 7%Z /\
  PrimFloat.eqb (averageProcessingTime stats * 7) 29 = false.
Proof. vm_compute. split; reflexivity. Qed.

End ServerMore.
